(** * ffmpeg-cnvt: the command compiler of [ffmpeg-cnvt.py], embedded in Rocq

    The script turns an argparse [Namespace] and facts probed with ffprobe
    into one ffmpeg command line per input file.  This development embeds
    the validator ([check_valid_arguments]), the stream mapping compiler
    ([stream_map_args], [stream_map]), the geometry resolver
    ([video_filters_from_args], [pad_resolution]), the suffix builder
    ([suffix_str]) and the batch loop ([process_input], [main]).

    Python integers are [Z], strings are [string], lists are [list];
    a raised exception is the [Raise] case of [result].  Everything the
    script asks of the outside (ffprobe output, the file system, the ffmpeg
    subprocess) is a field of [Env]; printing and logging are left out. *)

From Stdlib Require Import ZArith QArith Bool List String Ascii DecimalString Lia.
Import ListNotations.

Local Open Scope string_scope.
Local Open Scope list_scope.
Local Open Scope Z_scope.

(** ** Exceptions and the error monad *)

Inductive exn : Type :=
| Exception (msg : string)
| AttributeError (name : string)
| KeyError (key : string)
| IndexError
| ValueError (msg : string)
| TypeError (msg : string)
| UnboundLocalError (name : string)
| ZeroDivisionError
| OverflowError
| FileNotFoundError (name : string)
| UnicodeDecodeError.

Inductive result (A : Type) : Type :=
| Ok (a : A)
| Raise (e : exn).
Arguments Ok {A} a.
Arguments Raise {A} e.

Definition bind {A B : Type} (m : result A) (k : A -> result B) : result B :=
  match m with
  | Ok a => k a
  | Raise e => Raise e
  end.

Notation "x <- m ;; k" := (bind m (fun x => k))
  (at level 61, m at next level, right associativity).
Notation "' pat <- m ;; k" := (bind m (fun x => match x with pat => k end))
  (at level 61, pat pattern, m at next level, right associativity).

Definition is_ok {A : Type} (m : result A) : bool :=
  match m with Ok _ => true | Raise _ => false end.

(** A [for] loop whose body may raise and which threads an accumulator. *)
Fixpoint for_each {A S : Type} (xs : list A) (body : S -> A -> result S) (s : S)
  : result S :=
  match xs with
  | [] => Ok s
  | x :: xs' => s' <- body s x ;; for_each xs' body s'
  end.

(** A list built element by element, in order, by a body that may raise. *)
Fixpoint map_r {A B : Type} (f : A -> result B) (l : list A) : result (list B) :=
  match l with
  | [] => Ok []
  | x :: l' => y <- f x ;; ys <- map_r f l' ;; Ok (y :: ys)
  end.

(** ** Python string and list primitives used by the script *)

Definition str_of_Z (n : Z) : string := NilZero.string_of_int (Z.to_int n).

(** A character of a string is a code point below 256.  The blanks that
    [int] skips around a literal: the C white space and, beyond ASCII, the
    code points [str.isspace] holds of (next line, no-break space). *)
Definition is_space (a : ascii) : bool :=
  let n := nat_of_ascii a in
  (Nat.leb 9 n && Nat.leb n 13) || Nat.eqb n 32 || Nat.eqb n 133 || Nat.eqb n 160.

Definition is_digit (a : ascii) : bool :=
  let n := nat_of_ascii a in Nat.leb 48 n && Nat.leb n 57.

Definition digit_value (a : ascii) : Z := Z.of_nat (nat_of_ascii a) - 48.

Fixpoint lstrip (s : string) : string :=
  match s with
  | EmptyString => EmptyString
  | String a r => if is_space a then lstrip r else s
  end.

Fixpoint rstrip (s : string) : string :=
  match s with
  | EmptyString => EmptyString
  | String a r =>
      match rstrip r with
      | EmptyString => if is_space a then EmptyString else String a EmptyString
      | String _ _ as r' => String a r'
      end
  end.

(** The digits of an integer literal in base 10: groups of digits with
    single underscores between them.  [after_digit] tells whether the
    character before was a digit. *)
Fixpoint int_digits (s : string) (acc : Z) (after_digit : bool) : option Z :=
  match s with
  | EmptyString => if after_digit then Some acc else None
  | String a r =>
      if is_digit a then int_digits r (10 * acc + digit_value a) true
      else if Ascii.eqb a "_" && after_digit then int_digits r acc false
      else None
  end.

Fixpoint count_digits (s : string) : nat :=
  match s with
  | EmptyString => O
  | String a r => if is_digit a then S (count_digits r) else count_digits r
  end.

(** [sys.int_info.default_max_str_digits] *)
Definition max_str_digits : nat := 4300.

(** [int(s)] for a string: blanks around the literal, an optional sign,
    then the digits, no more of them than the interpreter's default limit;
    [None] stands for [ValueError]. *)
Definition py_int (s : string) : option Z :=
  let literal := rstrip (lstrip s) in
  if Nat.ltb max_str_digits (count_digits literal) then None
  else
    match literal with
    | String a r =>
        if Ascii.eqb a "-" then option_map Z.opp (int_digits r 0 false)
        else if Ascii.eqb a "+" then int_digits r 0 false
        else int_digits literal 0 false
    | EmptyString => None
    end.

Definition str_len (s : string) : Z := Z.of_nat (String.length s).

Definition truthy_str (s : string) : bool := negb (s =? "")%string.

Definition in_list (x : string) (l : list string) : bool :=
  existsb (String.eqb x) l.

Fixpoint rfind_from (c : ascii) (s : string) (i last : Z) : Z :=
  match s with
  | EmptyString => last
  | String a r => rfind_from c r (i + 1) (if Ascii.eqb a c then i else last)
  end.

(** [s.rfind(c)], -1 when [c] does not occur. *)
Definition py_rfind (c : ascii) (s : string) : Z := rfind_from c s 0 (-1).

(** [s.find(c, start)] for [0 <= start], -1 when [c] does not occur. *)
Definition py_find (c : ascii) (s : string) (start : Z) : Z :=
  match String.index (Z.to_nat start) (String c EmptyString) s with
  | Some i => Z.of_nat i
  | None => -1
  end.

(** [c in s] for a one-character [c]. *)
Definition char_in (c : ascii) (s : string) : bool := 0 <=? py_rfind c s.

Definition slice_index (len i : Z) : Z :=
  if i <? 0 then Z.max 0 (i + len) else Z.min i len.

(** [s[lo:hi]] with Python's treatment of negative and overlong indexes. *)
Definition py_slice (s : string) (lo hi : Z) : string :=
  let len := str_len s in
  let a := slice_index len lo in
  let b := slice_index len hi in
  String.substring (Z.to_nat a) (Z.to_nat (b - a)) s.

Definition py_slice_to (s : string) (hi : Z) : string := py_slice s 0 hi.
Definition py_slice_from (s : string) (lo : Z) : string := py_slice s lo (str_len s).

(** [s.count(sub)] for a non-empty [sub]: occurrences that do not overlap. *)
Fixpoint count_from (sub s : string) (skip : nat) : Z :=
  match s with
  | EmptyString => 0
  | String _ r =>
      match skip with
      | S k => count_from sub r k
      | O => if String.prefix sub s
             then 1 + count_from sub r (String.length sub - 1)
             else count_from sub r 0
      end
  end.

Definition py_count (s sub : string) : Z := count_from sub s 0.

(** ['1'.zfill(width)] *)
Definition zfill_1 (width : Z) : string :=
  (String.concat "" (repeat "0" (Z.to_nat (width - 1))) ++ "1")%string.

(** [s.startswith(p)] *)
Fixpoint starts_with (p s : string) : bool :=
  match p with
  | EmptyString => true
  | String a p' =>
      match s with
      | EmptyString => false
      | String b s' => Ascii.eqb a b && starts_with p' s'
      end
  end.

(** The tail returned by [os.path.split]. *)
Definition path_tail (p : string) : string := py_slice_from p (py_rfind "/" p + 1).

(** [os.path.join(a, b)] on a POSIX system. *)
Definition path_join (a b : string) : string :=
  if starts_with "/" b then b
  else if orb (a =? "")%string (py_slice_from a (-1) =? "/")%string then (a ++ b)%string
  else (a ++ "/" ++ b)%string.

(** [range(n)] and [range(lo, lo + n)] *)
Definition range (n : Z) : list Z := map Z.of_nat (seq 0 (Z.to_nat n)).
Definition range_from (lo n : Z) : list Z := map (fun k => lo + k) (range n).

(** [l[n]]; out of range raises. *)
Definition list_index {A : Type} (l : list A) (n : Z) : result A :=
  if n <? 0 then
    match nth_error l (Z.to_nat (Z.of_nat (List.length l) + n)) with
    | Some a => if 0 <=? Z.of_nat (List.length l) + n then Ok a else Raise IndexError
    | None => Raise IndexError
    end
  else
    match nth_error l (Z.to_nat n) with
    | Some a => Ok a
    | None => Raise IndexError
    end.

(** ** Constants of the script *)

Definition ATTACHTYPE_DEFAULT : string := "application/octet-stream".

Definition AUDIO_CODECS : list string :=
  ["aac"; "ac3"; "eac3"; "dts"; "flac"; "opus"; "mp3"; "wav"].
Definition VIDEO_PRESET_ARGS : list string := ["h264"; "h265"; "h264nv"; "h265nv"].
Definition VIDEO_CRF_ARGS : list string := ["h264"; "h265"; "vp8"; "vp9"].
(** [list(set(VIDEO_PRESET_ARGS) | set(VIDEO_CRF_ARGS))]: only membership is
    ever asked of it, so the order of the union does not matter. *)
Definition VIDEO_CODECS : list string :=
  VIDEO_PRESET_ARGS ++ filter (fun c => negb (in_list c VIDEO_PRESET_ARGS)) VIDEO_CRF_ARGS.
Definition SUBTITLE_CODECS : list string := ["ssa"; "ass"; "dvbsub"; "dvdsub"; "srt"; "sub"].
Definition RES_ARGS : list string := ["hd"; "fhd"; "qhd"; "uhd"].
Definition DEPTH_ARGS : list string := ["8bit"; "10bit"].
Definition COLOR_ARGS : list string := ["sdr"; "hdr"].
Definition LENGTH_ARGS : list string := ["shortest"; "duration"].
Definition CHANNELS_ARGS : list string := ["mono"; "stereo"].
Definition STREAM_TYPES_LONG : list string :=
  ["video"; "audio"; "subtitle"; "attachment"; "data"].
Definition STREAM_TYPES_SHORT : list string := ["v"; "a"; "s"; "t"; "d"].
Definition STREAM_TYPES_DICT : list (string * string) :=
  combine STREAM_TYPES_SHORT STREAM_TYPES_LONG.

(** [STREAM_TYPES_DICT[key]] *)
Definition dict_get {V : Type} (d : list (string * V)) (key : string) : result V :=
  match find (fun kv => String.eqb (fst kv) key) d with
  | Some kv => Ok (snd kv)
  | None => Raise (KeyError key)
  end.

Definition ENOENT : Z := 2.
Definition EFAULT : Z := 14.
Definition EINVAL : Z := 22.

(** ** The argparse namespace

    One field per [add_argument] of [create_argparser].  An option with
    [action='append'] is [None] or a list; with [nargs=2] each item of that
    list is a two-element list, here a pair. *)

Record Args : Type := mkArgs {
  input : string;
  output : string;
  container : option string;
  codec : option (list (string * string));
  bitrate : option (list (string * string));
  lang : option (list (string * string));
  nocopy : option (list string);
  singlestream : option (list (string * Z));
  convertonly : option (list string);
  addfile : option (list (string * string));
  addcodec : option (list (string * string));
  addstream : option (list (string * Z));
  addfirst : option (list string);
  adddefault : option (list string);
  addlang : option (list (string * string));
  addlooped : option (list string);
  mono : bool;
  stereo : bool;
  preset : option string;
  tune : option string;
  tier : option string;
  crf : option Z;
  deshake : bool;
  _8bit : bool;
  _10bit : bool;
  sdr : bool;
  hdr : bool;
  hd : bool;
  fhd : bool;
  qhd : bool;
  uhd : bool;
  width : option Z;
  height : option Z;
  crop : option string;
  padding : Z;
  sequence : bool;
  framerate : string;
  nounknown : bool;
  addattach : option string;
  attachtype : string;
  shortest : bool;
  duration : option string;
  stoponerror : bool;
  setaffinity : bool;
  dryrun : bool;
  overwrite : bool;
  verbose : bool;
  ffmpegbin : string;
  ffprobebin : string;
  nolog : bool;
  logfile : option string;
  suffix : bool
}.

(** The namespace argparse builds from the two positional arguments alone. *)
Definition default_args (inp out : string) : Args :=
  {| input := inp; output := out; container := None;
     codec := None; bitrate := None; lang := None; nocopy := None;
     singlestream := None; convertonly := None; addfile := None;
     addcodec := None; addstream := None; addfirst := None;
     adddefault := None; addlang := None; addlooped := None;
     mono := false; stereo := false; preset := None; tune := None;
     tier := None; crf := None; deshake := false;
     _8bit := false; _10bit := false; sdr := false; hdr := false;
     hd := false; fhd := false; qhd := false; uhd := false;
     width := None; height := None; crop := None; padding := 4;
     sequence := false; framerate := "30000/1001"; nounknown := false;
     addattach := None; attachtype := ATTACHTYPE_DEFAULT;
     shortest := false; duration := None; stoponerror := false;
     setaffinity := false; dryrun := false; overwrite := false;
     verbose := false; ffmpegbin := "ffmpeg"; ffprobebin := "ffprobe";
     nolog := false; logfile := None; suffix := false |}.

(** [args.vbitrate]: [create_argparser] adds no option of that name, so the
    attribute access in [video_codec_to_encoder] raises. *)
Definition vbitrate (args : Args) : result (option string) :=
  Raise (AttributeError "vbitrate").

Definition truthy_ostr (o : option string) : bool :=
  match o with Some s => truthy_str s | None => false end.

Definition truthy_oint (o : option Z) : bool :=
  match o with Some n => negb (n =? 0) | None => false end.

(** ** Lookups in stream-typed options *)

(** [stream_type == item] for an item of an option list.  A flag list holds
    strings; an [nargs=2] list holds two-element lists, and in Python a
    string is never equal to a list. *)
Class PyItem (A : Type) : Type := str_eq_item : string -> A -> bool.

#[export] Instance flag_item : PyItem string := String.eqb.
#[export] Instance pair_item {V : Type} : PyItem (string * V) := fun _ _ => false.

(** Returns the value for a stream type in an [nargs=2] list. *)
Fixpoint first_match {V : Type} (l : list (string * V)) (stream_type : string)
  : option V :=
  match l with
  | [] => None
  | (t, v) :: l' => if (t =? stream_type)%string then Some v else first_match l' stream_type
  end.

Definition stream_type_arg {V : Type} (args : option (list (string * V)))
  (stream_type : string) : option V :=
  match args with
  | None => None
  | Some l => first_match l stream_type
  end.

(** Returns True if [stream_type] is in [args]: [stream_type in args]. *)
Definition stream_type_bool {A : Type} `{PyItem A} (args : option (list A))
  (stream_type : string) : bool :=
  match args with
  | None => false
  | Some l => existsb (str_eq_item stream_type) l
  end.

(** ** Resolution padding *)

(** Round up to closest resolution divisible by padding ([res % padding]
    raises for a zero padding). *)
Definition pad_resolution (res padding : Z) : result Z :=
  if padding =? 0 then Raise ZeroDivisionError
  else
    let mod_ := res mod padding in
    if mod_ =? 0 then Ok res else Ok (res + padding - mod_).

(** ** Codec names and encoder arguments *)

(** Returns codec id from video argument. *)
Definition video_arg_to_codec (arg : string) : string :=
  if (arg =? "h264nv")%string then "h264"
  else if (arg =? "h264n5")%string then "h264"
  else arg.

(** Returns the encoder string for a video codec name. *)
Definition video_codec_to_encoder (codec : option string) (args : Args)
  : result (list string) :=
  match codec with
  | None => Ok ["copy"]
  | Some codec =>
      if negb (in_list codec VIDEO_CODECS)
      then Raise (Exception ("Invalid video codec: " ++ codec)%string)
      else
        (* Video codec *)
        let output_vcodec :=
          if (codec =? "h264")%string then ["libx264"]
          else if (codec =? "h265")%string then ["libx265"]
          else if (codec =? "h264nv")%string then ["h264_nvenc"]
          else if (codec =? "h265nv")%string then ["hevc_nvenc"]
          else if (codec =? "vp8")%string then ["libvpx"]
          else if (codec =? "vp9")%string then ["libvpx-vp9"]
          else [codec] in
        (* Preset *)
        let output_vcodec :=
          match preset args with
          | Some p => if truthy_str p && in_list codec VIDEO_PRESET_ARGS
                      then output_vcodec ++ ["-preset"; p] else output_vcodec
          | None => output_vcodec
          end in
        (* CRF *)
        let output_vcodec :=
          match crf args with
          | Some n => if negb (n =? 0) && in_list codec VIDEO_CRF_ARGS
                      then output_vcodec ++ ["-crf"; str_of_Z n] else output_vcodec
          | None => output_vcodec
          end in
        (* Tune *)
        let output_vcodec :=
          match tune args with
          | Some t => if truthy_str t then output_vcodec ++ ["-tune"; t] else output_vcodec
          | None => output_vcodec
          end in
        (* Tier *)
        let output_vcodec :=
          match tier args with
          | Some t =>
              if truthy_str t then
                if (t =? "main")%string then output_vcodec ++ ["-no-high-tier"]
                else if (t =? "high")%string then output_vcodec ++ ["-high-tier"]
                else output_vcodec
              else output_vcodec
          | None => output_vcodec
          end in
        (* Video bitrate *)
        vb <- vbitrate args ;;
        let output_vcodec :=
          match vb with
          | Some b => if truthy_str b then output_vcodec ++ ["-b:v"; b] else output_vcodec
          | None => output_vcodec
          end in
        (* Pixel format *)
        let output_vcodec :=
          if _8bit args then output_vcodec ++ ["-pix_fmt"; "yuv420p"]
          else if _10bit args then output_vcodec ++ ["-pix_fmt"; "yuv420p10le"]
          else output_vcodec in
        (* Color space *)
        let output_vcodec :=
          if sdr args then
            output_vcodec ++ ["-colorspace:v"; "bt709"; "-color_primaries:v"; "bt709";
                              "-color_trc:v"; "bt709"; "-color_range:v"; "tv"]
          else if hdr args then
            output_vcodec ++ ["-x265-params";
              "keyint=60:bframes=3:vbv-bufsize=75000:vbv-maxrate=75000:hdr-opt=1:repeat-headers=1:colorprim=bt2020:transfer=smpte2084:colormatrix=bt2020nc:master-display=" ++ String (ascii_of_nat 34) "G(13250,34500)B(7500,3000)R(34000,16000)WP(15635,16450)L(10000000,500)" ++ String (ascii_of_nat 34) ":max-cli=0,0"]%string
          else output_vcodec in
        Ok output_vcodec
  end.

(** Returns the encoder string for an audio codec name. *)
Definition audio_codec_to_encoder (codec : option string) (args : Args)
  : result (list string) :=
  match codec with
  | None => Ok ["copy"]
  | Some codec =>
      if negb (in_list codec AUDIO_CODECS)
      then Raise (Exception ("Invalid audio codec: " ++ codec)%string)
      else
        (* Audio codec *)
        let output_acodec :=
          if ("opus" =? codec)%string then ["opus"; "-strict"; "-2"]
          else if ("dts" =? codec)%string then ["dca"]
          else if ("mp3" =? codec)%string then ["libmp3lame"]
          else if ("wav" =? codec)%string then ["wavpack"]
          else [codec] in
        (* Channels *)
        let output_acodec :=
          if stereo args then output_acodec ++ ["-ac"; "2"]
          else if mono args then output_acodec ++ ["-ac"; "1"]
          else output_acodec in
        Ok output_acodec
  end.

(** Returns the encoder string for a subtitle codec name. *)
Definition subtitle_codec_to_encoder (codec : option string) (args : Args)
  : result (list string) :=
  match codec with
  | None => Ok ["copy"]
  | Some codec =>
      if negb (in_list codec SUBTITLE_CODECS)
      then Raise (Exception ("Invalid subtitle codec: " ++ codec)%string)
      else if ("sub" =? codec)%string then Ok ["subrip"]
      else Ok [codec]
  end.

(** Returns the encoder string for a codec name of a stream type. *)
Definition stream_codec_to_encoder (stream_type : string) (codec : option string)
  (args : Args) : result (list string) :=
  cmdline <-
    (if ("v" =? stream_type)%string then video_codec_to_encoder codec args
     else if ("a" =? stream_type)%string then audio_codec_to_encoder codec args
     else if ("s" =? stream_type)%string then subtitle_codec_to_encoder codec args
     else Ok []) ;;
  (* Stream bitrate *)
  if stream_type_bool (bitrate args) stream_type then
    match stream_type_arg (bitrate args) stream_type with
    | Some b => Ok (cmdline ++ [("-b:" ++ stream_type)%string; b])
    | None => Raise (TypeError "can only concatenate str")
    end
  else Ok cmdline.

(** ** The filename suffix *)

(** Returns a string built from command line arguments set. *)
Definition suffix_str (args : Args) (width height : Z) : result string :=
  let sep := "_" in
  for_each STREAM_TYPES_SHORT
    (fun retstr stream_type =>
       if stream_type_bool (nocopy args) stream_type then
         long <- dict_get STREAM_TYPES_DICT stream_type ;;
         Ok (retstr ++ sep ++ "no" ++ long)%string
       else if stream_type_bool (codec args) stream_type then
         retstr <-
           match stream_type_arg (codec args) stream_type with
           | Some c => Ok (retstr ++ sep ++ video_arg_to_codec c)%string
           | None => Raise (TypeError "can only concatenate str")
           end ;;
         retstr <-
           (if ("v" =? stream_type)%string then
              let retstr :=
                if sdr args then (retstr ++ sep ++ "SDR")%string
                else if hdr args then (retstr ++ sep ++ "HDR")%string
                else retstr in
              let retstr :=
                match crf args with
                | Some n => if negb (n =? 0)
                            then (retstr ++ sep ++ "CRF-" ++ str_of_Z n)%string else retstr
                | None => retstr
                end in
              let retstr :=
                match preset args with
                | Some p => if truthy_str p
                            then (retstr ++ sep ++ "preset-" ++ p)%string else retstr
                | None => retstr
                end in
              let retstr :=
                match tune args with
                | Some t => if truthy_str t
                            then (retstr ++ sep ++ "tune-" ++ t)%string else retstr
                | None => retstr
                end in
              if negb (width =? 0) || negb (height =? 0) then
                let retstr :=
                  (retstr ++ sep ++ str_of_Z width ++ "x" ++ str_of_Z height)%string in
                (* ["crop={}".args.crop]: a string has no attribute [args] *)
                if truthy_ostr (crop args) then Raise (AttributeError "args")
                else Ok retstr
              else Ok retstr
            else Ok retstr) ;;
         if ("a" =? stream_type)%string then
           if mono args then Ok (retstr ++ "-1.0")%string
           else if stereo args then Ok (retstr ++ "-2.0")%string
           else Ok retstr
         else Ok retstr
       else Ok retstr)
    "".

(** ** The stream mapping compiler *)

(** Returns mapping array and optional codec info for a specific type and
    index of stream. *)
Definition stream_map_args (spec : string) (file_index : Z) (none : bool)
  (stream_num : option Z) (first_stream stream_count : Z)
  (codec_args : list (list string)) (metadata : option string)
  (default_stream : option bool) : result (list string) :=
  (* Stream map *)
  let cmdline := ["-map"] in
  if none then
    Ok (cmdline ++ [("-" ++ str_of_Z file_index ++ ":" ++ spec ++ "?")%string])
  else
    let cmdline :=
      match stream_num with
      | Some n =>
          cmdline ++ [(str_of_Z file_index ++ ":" ++ spec ++ ":" ++ str_of_Z n)%string]
      | None => cmdline ++ [(str_of_Z file_index ++ ":" ++ spec ++ "?")%string]
      end in
    match codec_args with
    | [] => Ok cmdline
    | _ :: _ =>
        (* Codec info *)
        r <- for_each (range stream_count)
               (fun (st : list string * option bool) n =>
                  let '(cmdline, default_stream) := st in
                  ca <- list_index codec_args n ;;
                  let out := str_of_Z (first_stream + n) in
                  let cmdline := cmdline ++ [("-c:" ++ spec ++ ":" ++ out)%string] ++ ca in
                  let '(cmdline, default_stream) :=
                    match default_stream with
                    | Some d =>
                        let cmdline :=
                          cmdline ++ [("-disposition:" ++ spec ++ ":" ++ out)%string] in
                        if d
                        then (cmdline ++ ["default"], Some false)
                             (* Only mark the first stream as default *)
                        else (cmdline ++ ["none"], Some d)
                    | None => (cmdline, None)
                    end in
                  let cmdline :=
                    match metadata with
                    | Some m =>
                        if truthy_str m
                        then cmdline ++ [("-metadata:s:" ++ spec ++ ":" ++ out)%string; m]
                        else cmdline
                    | None => cmdline
                    end in
                  Ok (cmdline, default_stream))
               (cmdline, default_stream) ;;
        Ok (fst r)
    end.

(** ** The outside world *)

Record Env : Type := mkEnv {
  (** [subprocess.run(args, capture_output=True).stdout.decode('utf-8').strip()]:
      the decoded, stripped standard output of the ffprobe command [args],
      or the exception that starting the process or decoding ends with *)
  ffprobe_stdout : list string -> result string;
  isdir : string -> bool;
  isfile : string -> bool;
  glob : string -> list string;
  platform_system : string;
  (** [run_with_afinity(cmdline, setaffinity, verbose)]: the return code of
      the spawned process, or the exception the call ends with *)
  run_with_afinity : list string -> bool -> result Z
}.

(** Executes ffprobe on a file and returns the output as a string. *)
Definition probe_string (env : Env) (ffprobe_bin input_file : string)
  (probe_args : list string) : result string :=
  ffprobe_stdout env ([ffprobe_bin] ++ probe_args ++ [input_file]).

(** Queries a stream property using ffprobe. *)
Definition probe_media_property (env : Env) (ffprobe_bin input_file property : string)
  (stream_num : Z) (stream_spec : string) : result string :=
  let probe_args :=
    ["-v"; "error"; "-select_streams";
     (stream_spec ++ ":" ++ str_of_Z stream_num)%string;
     "-show_entries"; ("stream=" ++ property)%string; "-of"; "default=nw=1:nk=1"] in
  probe_string env ffprobe_bin input_file probe_args.

(** [probe_stream_count] called with [stream_type = None]: the raw listing. *)
Definition probe_stream_types (env : Env) (ffprobe_bin input_file : string)
  : result string :=
  probe_string env ffprobe_bin input_file ["-v"; "error"; "-show_entries"; "stream=codec_type"].

(** Returns the count of a specific stream type in a file using ffprobe
    ([stream_type] is a long name, never empty). *)
Definition probe_stream_count (env : Env) (ffprobe_bin input_file stream_type : string)
  : result Z :=
  probe_str <- probe_stream_types env ffprobe_bin input_file ;;
  Ok (py_count probe_str ("codec_type=" ++ stream_type)%string).

(** Gets first filename matching printf style path. *)
Definition printf_filename (input_path : string) : string :=
  let pct_pos := py_rfind "%" input_path in
  if pct_pos =? -1 then input_path
  else
    let d_pos := py_find "d" input_path pct_pos in
    if d_pos =? -1 then input_path
    else
      match py_int (py_slice input_path (pct_pos + 1) d_pos) with
      | None => input_path
      | Some chars =>
          (py_slice input_path 0 pct_pos ++ zfill_1 chars
             ++ py_slice_from input_path (d_pos + 1))%string
      end.

(** Returns extension of output container based on args or input filename. *)
Definition get_container_extension (args : Args) (input_file : string) : string :=
  match container args with
  | Some c => if truthy_str c then ("." ++ c)%string
              else py_slice_from input_file (py_rfind "." input_file)
  | None => py_slice_from input_file (py_rfind "." input_file)
  end.

(** Returns output width, height based on input arguments. *)
Definition get_dimensions_from_args (args : Args) : Z * Z :=
  if hd args then (1280, 720)
  else if fhd args then (1920, 1080)
  else if qhd args then (2560, 1440)
  else if uhd args then (3840, 2160)
  else
    let output_width :=
      match width args with Some w => if w =? 0 then 0 else w | None => 0 end in
    let output_height :=
      match height args with Some h => if h =? 0 then 0 else h | None => 0 end in
    (output_width, output_height).

(** Returns the number of streams of each type for a file in a dictionary. *)
Definition get_stream_count_map_from_input (env : Env) (args : Args)
  (input_file : string) : result (list (string * Z)) :=
  probe_str <- probe_stream_types env (ffprobebin args) input_file ;;
  for_each STREAM_TYPES_SHORT
    (fun return_dict stream_type =>
       long <- dict_get STREAM_TYPES_DICT stream_type ;;
       Ok (return_dict ++ [(stream_type, py_count probe_str ("codec_type=" ++ long)%string)]))
    [].

(** Returns command line elements for a primary or an added map. *)
Definition stream_map (env : Env) (primary : bool) (args : Args) (stream_type : string)
  (input_streams first_stream : Z) (input_file : string) : result (list string) :=
  let encoder :=
    if primary then stream_type_arg (codec args) stream_type
    else stream_type_arg (addcodec args) stream_type in
  encoder_args <- stream_codec_to_encoder stream_type encoder args ;;
  (* Either a per stream codec list or they are all the same *)
  encoder_list <-
    (if primary && negb (Nat.eqb (List.length encoder_args) 0)
        && stream_type_bool (convertonly args) stream_type
     then
       map_r (fun n =>
                input_audio_codec <-
                  probe_media_property env (ffprobebin args) input_file "codec_name" n
                    stream_type ;;
                Ok match encoder with
                   | Some e =>
                       if (input_audio_codec =? e)%string then ["copy"] else encoder_args
                   | None => encoder_args
                   end)
             (range_from first_stream input_streams)
     else Ok (repeat encoder_args (Z.to_nat input_streams))) ;;
  (* Default stream (disposition) *)
  let default_stream :=
    if primary
    then (if stream_type_bool (adddefault args) stream_type then Some false else None)
    else (if stream_type_bool (adddefault args) stream_type then Some true else None) in
  (* Language metadata *)
  let language :=
    if primary then stream_type_arg (lang args) stream_type
    else stream_type_arg (addlang args) stream_type in
  let metadata :=
    match language with
    | Some l => if truthy_str l then Some ("language=" ++ l)%string else None
    | None => None
    end in
  stream_map_args stream_type 0 (stream_type_bool (nocopy args) stream_type)
    (stream_type_arg (singlestream args) stream_type) first_stream input_streams
    encoder_list metadata default_stream.

(** ** The geometry resolver *)

(** Python floats, kept abstract: the operations the resolver applies to
    them, each with the exceptions it can raise. *)
Class PyFloat : Type := {
  float : Type;
  float_of_str : string -> result float;       (* float(s) *)
  float_div : float -> float -> result float;  (* x / y *)
  int_truediv : Z -> Z -> result float;        (* m / n on ints *)
  int_mul_float : Z -> float -> result float;  (* m * x *)
  int_div_float : Z -> float -> result float;  (* m / x *)
  int_of_float : float -> result Z;            (* int(x), truncation toward zero *)
  float_ltb : float -> float -> bool           (* x < y *)
}.

Section Geometry.
Context {PF : PyFloat}.

(** [int(probe_media_property(..., property))] *)
Definition probe_int (env : Env) (args : Args) (input_path property : string)
  : result Z :=
  text <- probe_media_property env (ffprobebin args) input_path property 0 "v" ;;
  match py_int text with
  | Some n => Ok n
  | None => Raise (ValueError "invalid literal for int() with base 10")
  end.

(** The first [try] block: both probed dimensions as integers; its handler
    turns every exception into one of its own. *)
Definition probe_dimensions (env : Env) (args : Args) (input_path : string)
  : result (Z * Z) :=
  match
    input_height <- probe_int env args input_path "height" ;;
    input_width <- probe_int env args input_path "width" ;;
    Ok (input_height, input_width)
  with
  | Ok dimensions => Ok dimensions
  | Raise _ => Raise (Exception "Failed to query resolution from input")
  end.

(** The second [try] block without its handler. *)
Definition probe_aspect_ratio (env : Env) (args : Args) (input_path : string)
  : result float :=
  input_ar_str <-
    probe_media_property env (ffprobebin args) input_path "display_aspect_ratio" 0 "v" ;;
  let colon_pos := py_find ":" input_ar_str 0 in
  if colon_pos =? -1 then Raise (Exception "Bad input aspect ratio string, no colon")
  else
    input_ar_num <- float_of_str (py_slice_to input_ar_str colon_pos) ;;
    input_ar_den <- float_of_str (py_slice_from input_ar_str (colon_pos + 1)) ;;
    float_div input_ar_num input_ar_den.

(** The second [try] block with its handler: any exception falls back to
    [input_width / input_height]. *)
Definition input_aspect_ratio (env : Env) (args : Args) (input_path : string)
  (input_width input_height : Z) : result float :=
  match probe_aspect_ratio env args input_path with
  | Ok input_ar => Ok input_ar
  | Raise _ => int_truediv input_width input_height
  end.

(** [int(m / 2)] *)
Definition half (m : Z) : result Z := q <- int_truediv m 2 ;; int_of_float q.

(** The crop offsets for an anchor name. *)
Definition crop_position (anchor : string)
  (input_width input_height output_width output_height : Z) : result (Z * Z) :=
  if (anchor =? "center")%string then
    xpos <- half (input_width - output_width) ;;
    ypos <- half (input_height - output_height) ;;
    Ok (xpos, ypos)
  else if (anchor =? "topleft")%string then Ok (0, 0)
  else if (anchor =? "left")%string then
    ypos <- half (input_height - output_height) ;; Ok (0, ypos)
  else if (anchor =? "bottomleft")%string then Ok (0, input_height - output_height)
  else if (anchor =? "bottom")%string then
    xpos <- half (input_width - output_width) ;; Ok (xpos, input_height - output_height)
  else if (anchor =? "bottomright")%string then
    Ok (input_width - output_width, input_height - output_height)
  else if (anchor =? "right")%string then
    ypos <- half (input_height - output_height) ;; Ok (input_width - output_width, ypos)
  else if (anchor =? "topright")%string then Ok (input_width - output_width, 0)
  else if (anchor =? "top")%string then
    xpos <- half (input_width - output_width) ;; Ok (xpos, 0)
  else Raise (UnboundLocalError "xpos").

(** [pad_resolution(int(m * ar), padding)] and [pad_resolution(int(m / ar), padding)] *)
Definition padded_times (m : Z) (ar : float) (padding : Z) : result Z :=
  x <- int_mul_float m ar ;; n <- int_of_float x ;; pad_resolution n padding.
Definition padded_over (m : Z) (ar : float) (padding : Z) : result Z :=
  x <- int_div_float m ar ;; n <- int_of_float x ;; pad_resolution n padding.

(** The crop branch: constrain the output dimensions to the input's and
    format the filter. *)
Definition crop_filter (anchor : string)
  (input_width input_height output_width output_height : Z)
  : result (string * Z * Z) :=
  let output_width :=
    if output_width >? input_width then input_width else output_width in
  let output_height :=
    if output_height >? input_height then input_height else output_height in
  '(xpos, ypos) <- crop_position anchor input_width input_height
                     output_width output_height ;;
  Ok (("crop=" ++ str_of_Z output_width ++ ":" ++ str_of_Z output_height
         ++ ":" ++ str_of_Z xpos ++ ":" ++ str_of_Z ypos)%string,
      output_width, output_height).

(** The scale branch: make sure the aspect ratio is correct and format the
    filter. *)
Definition scale_filter (input_ar : float) (padding : Z) (output_width output_height : Z)
  : result (string * Z * Z) :=
  output_ar <- int_truediv output_width output_height ;;
  '(output_width, output_height) <-
    (if float_ltb input_ar output_ar then
       w <- padded_times output_height input_ar padding ;; Ok (w, output_height)
     else if float_ltb output_ar input_ar then
       h <- padded_over output_width input_ar padding ;; Ok (output_width, h)
     else Ok (output_width, output_height)) ;;
  Ok (("scale=" ++ str_of_Z output_width ++ ":" ++ str_of_Z output_height
         ++ ",setsar=1:1")%string,
      output_width, output_height).

(** Builds video filter list from input arguments. *)
Definition video_filters_from_args (env : Env) (args : Args)
  (output_width output_height : Z) (input_file : string)
  : result (list string * Z * Z) :=
  (* Color space *)
  let output_vfilters :=
    if sdr args
    then ["scale=in_color_matrix=auto:in_range=auto:out_color_matrix=bt709:out_range=tv"]
    else [] in
  (* Scale or crop *)
  '(output_vfilters, output_width, output_height) <-
    (if negb (output_width =? 0) || negb (output_height =? 0) then
       let input_path := if sequence args then printf_filename input_file else input_file in
       '(input_height, input_width) <- probe_dimensions env args input_path ;;
       input_ar <- input_aspect_ratio env args input_path input_width input_height ;;
       if (input_width =? 0) || (input_height =? 0) then
         Raise (Exception "Failed to probe input dementions")
       else if (input_width =? output_width) || (input_height =? output_height) then
         Ok (output_vfilters, 0, 0)
       else
         (* If only one dimention is supplied, calculate the other from the
            input aspect ratio *)
         output_width <-
           (if output_width =? 0
            then padded_times output_height input_ar (padding args)
            else Ok output_width) ;;
         output_height <-
           (if output_height =? 0
            then padded_over output_width input_ar (padding args)
            else Ok output_height) ;;
         '(filter_string, output_width, output_height) <-
           (if truthy_ostr (crop args) then
              crop_filter (match crop args with Some anchor => anchor | None => "" end)
                input_width input_height output_width output_height
            else scale_filter input_ar (padding args) output_width output_height) ;;
         Ok (output_vfilters ++ [filter_string], output_width, output_height)
     else Ok (output_vfilters, output_width, output_height)) ;;
  (* Deshake filter *)
  let output_vfilters :=
    if deshake args then output_vfilters ++ ["deshake"] else output_vfilters in
  Ok (output_vfilters, output_width, output_height).

End Geometry.

(** ** The option validator *)

(** What [getattr(args, name)] returns, as far as the validator looks at
    it: of an [nargs=2] list only the first item of each entry is read. *)
Inductive attr : Type :=
| AFlag (b : bool)
| AInt (n : option Z)
| AStr (s : option string)
| AFlags (l : option (list string))
| APairs (keys : option (list string)).

Definition pair_keys {V : Type} (o : option (list (string * V))) : attr :=
  APairs (option_map (map fst) o).

Definition getattr (args : Args) (name : string) : result attr :=
  if (name =? "bitrate")%string then Ok (pair_keys (bitrate args))
  else if (name =? "codec")%string then Ok (pair_keys (codec args))
  else if (name =? "addcodec")%string then Ok (pair_keys (addcodec args))
  else if (name =? "addstream")%string then Ok (pair_keys (addstream args))
  else if (name =? "addfile")%string then Ok (pair_keys (addfile args))
  else if (name =? "addlang")%string then Ok (pair_keys (addlang args))
  else if (name =? "lang")%string then Ok (pair_keys (lang args))
  else if (name =? "singlestream")%string then Ok (pair_keys (singlestream args))
  else if (name =? "nocopy")%string then Ok (AFlags (nocopy args))
  else if (name =? "convertonly")%string then Ok (AFlags (convertonly args))
  else if (name =? "addfirst")%string then Ok (AFlags (addfirst args))
  else if (name =? "adddefault")%string then Ok (AFlags (adddefault args))
  else if (name =? "addlooped")%string then Ok (AFlags (addlooped args))
  else if (name =? "tune")%string then Ok (AStr (tune args))
  else if (name =? "preset")%string then Ok (AStr (preset args))
  else if (name =? "crop")%string then Ok (AStr (crop args))
  else if (name =? "duration")%string then Ok (AStr (duration args))
  else if (name =? "crf")%string then Ok (AInt (crf args))
  else if (name =? "width")%string then Ok (AInt (width args))
  else if (name =? "height")%string then Ok (AInt (height args))
  else if (name =? "8bit")%string then Ok (AFlag (_8bit args))
  else if (name =? "10bit")%string then Ok (AFlag (_10bit args))
  else if (name =? "sdr")%string then Ok (AFlag (sdr args))
  else if (name =? "hdr")%string then Ok (AFlag (hdr args))
  else if (name =? "hd")%string then Ok (AFlag (hd args))
  else if (name =? "fhd")%string then Ok (AFlag (fhd args))
  else if (name =? "qhd")%string then Ok (AFlag (qhd args))
  else if (name =? "uhd")%string then Ok (AFlag (uhd args))
  else if (name =? "mono")%string then Ok (AFlag (mono args))
  else if (name =? "stereo")%string then Ok (AFlag (stereo args))
  else if (name =? "shortest")%string then Ok (AFlag (shortest args))
  else Raise (AttributeError name).

(** [bool(value)] *)
Definition truthy (a : attr) : bool :=
  match a with
  | AFlag b => b
  | AInt n => truthy_oint n
  | AStr s => truthy_ostr s
  | AFlags (Some (_ :: _)) | APairs (Some (_ :: _)) => true
  | AFlags _ | APairs _ => false
  end.

(** [val[0]] of a string *)
Definition first_char (val : string) : result string :=
  match val with
  | EmptyString => Raise IndexError
  | String c _ => Ok (String c EmptyString)
  end.

Fixpoint filter_r {A : Type} (f : A -> result bool) (l : list A) : result (list A) :=
  match l with
  | [] => Ok []
  | x :: l' => b <- f x ;; ys <- filter_r f l' ;; Ok (if b then x :: ys else ys)
  end.

(** [any(f(x) for x in l)]: stops at the first true item. *)
Fixpoint any_r {A : Type} (f : A -> result bool) (l : list A) : result bool :=
  match l with
  | [] => Ok false
  | x :: l' => b <- f x ;; if b then Ok true else any_r f l'
  end.

(** Returns either an empty list, the input list, or the first item in a
    tuple list.  The test [type(arg[0]) == tuple or type(arg[0] == list)] is
    always true, so the comprehension [[val[0] for val in arg]] is what runs
    whenever [arg] is not empty. *)
Definition arg_stream_type_enumeration (arg : attr) : result (list string) :=
  if negb (truthy arg) then Ok []
  else
    match arg with
    | APairs (Some keys) => Ok keys
    | AFlags (Some l) => map_r first_char l
    | _ => Raise (TypeError "object is not subscriptable")
    end.

Definition enumeration_of (args : Args) (name : string) : result (list string) :=
  a <- getattr args name ;; arg_stream_type_enumeration a.

Definition attr_truthy (args : Args) (name : string) : result bool :=
  a <- getattr args name ;; Ok (truthy a).

(** Checks for mutually exclusive arguments. *)
Definition check_exclusive_args (args : Args) (arg_names : list string) : result unit :=
  set_args <- filter_r (attr_truthy args) arg_names ;;
  if (1 <? Z.of_nat (List.length set_args))
  then Raise (Exception ("Mutually exclusive arguments: " ++ String.concat " " set_args)%string)
  else Ok tt.

(** Check for arguments dependent on one of another set of argument. *)
Definition check_dependent_args (args : Args) (arg_names requires_names : list string)
  : result unit :=
  for_each arg_names
    (fun _ arg_name =>
       b <- attr_truthy args arg_name ;;
       if b then
         set <- map_r (attr_truthy args) requires_names ;;
         if existsb (fun x => x) set then Ok tt
         else Raise (Exception ("Argument '" ++ arg_name ++ "' requires one of: '"
                                  ++ String.concat ", " requires_names ++ "'")%string)
       else Ok tt)
    tt.

(** Checks for stream arguments dependant on other stream arguments of the
    same stream type. *)
Definition check_arg_stream_dependencies (args : Args)
  (value_names depend_arg_names : list string) : result unit :=
  for_each value_names
    (fun _ value_name =>
       keys <- enumeration_of args value_name ;;
       for_each keys
         (fun _ key =>
            found <- any_r (fun depend_name =>
                              l <- enumeration_of args depend_name ;; Ok (in_list key l))
                       depend_arg_names ;;
            if found then Ok tt
            else Raise (Exception ("Use of stream option '" ++ value_name ++ ":" ++ key
                                     ++ "' requires use of one of '"
                                     ++ String.concat ", " depend_arg_names
                                     ++ "' with same stream type")%string))
         tt)
    tt.

(** Check for mutually exclusive stream arguments of the same stream type. *)
Definition check_arg_stream_exclusive (args : Args) (value_names : list string)
  : result unit :=
  for_each value_names
    (fun _ value_name =>
       keys <- enumeration_of args value_name ;;
       for_each keys
         (fun _ key =>
            key_names <- filter_r (fun val_name =>
                                     l <- enumeration_of args val_name ;; Ok (in_list key l))
                           value_names ;;
            if (1 <? Z.of_nat (List.length key_names))
            then Raise (Exception ("Mutually exclusive args for stream type '" ++ key
                                     ++ "': " ++ String.concat ", " key_names)%string)
            else Ok tt)
         tt)
    tt.

(** Checks for named arguments dependant on stream arguments of a type. *)
Definition check_arg_stream_names_dependencies (args : Args)
  (value_names depend_arg_names : list string) (stream_spec : string) : result unit :=
  set_names <- filter_r (attr_truthy args) value_names ;;
  for_each set_names
    (fun _ value_name =>
       for_each depend_arg_names
         (fun _ depend_arg_name =>
            found <- any_r (fun depend_name =>
                              l <- enumeration_of args depend_name ;;
                              Ok (in_list stream_spec l))
                       depend_arg_names ;;
            if found then Ok tt
            else Raise (Exception ("Use of argument '" ++ value_name
                                     ++ "' requires use of one of '"
                                     ++ String.concat ", " depend_arg_names
                                     ++ "' with stream type '" ++ stream_spec ++ "'")%string))
         tt)
    tt.

(** Checks for named arguments mutually exclusive with stream argument of a
    type. *)
Definition check_arg_stream_names_exclusive (args : Args)
  (value_names stream_arg_names : list string) (stream_spec : string) : result unit :=
  set_names <- filter_r (attr_truthy args) value_names ;;
  for_each set_names
    (fun _ value_name =>
       for_each stream_arg_names
         (fun _ stream_arg_name =>
            l <- enumeration_of args stream_arg_name ;;
            if in_list stream_spec l
            then Raise (Exception ("Mutually exclusive arg '" ++ value_name
                                     ++ "' for stream type '" ++ stream_arg_name ++ ":"
                                     ++ stream_spec ++ "'")%string)
            else Ok tt)
         tt)
    tt.

(** Checks for invalid argument combinations. *)
Definition check_valid_arguments (args : Args) : result unit :=
  (* Arguments that require another argument *)
  _ <- check_arg_stream_dependencies args ["bitrate"] ["codec"; "addcodec"] ;;
  _ <- check_arg_stream_dependencies args
         ["addcodec"; "addstream"; "addfirst"; "adddefault"; "addlang"; "addlooped"]
         ["addfile"] ;;
  _ <- check_arg_stream_dependencies args ["addlooped"] ["addcodec"] ;;
  _ <- check_arg_stream_names_dependencies args
         (["tune"; "crf"; "crop"] ++ DEPTH_ARGS ++ COLOR_ARGS ++ RES_ARGS)
         ["codec"; "addcodec"] "v" ;;
  _ <- check_arg_stream_names_dependencies args CHANNELS_ARGS ["codec"; "addcodec"] "a" ;;
  _ <- check_dependent_args args ["crop"] (RES_ARGS ++ ["width"; "height"]) ;;
  _ <- check_dependent_args args ["addlooped"] LENGTH_ARGS ;;
  (* Arguments that are mutually exclusive *)
  _ <- check_arg_stream_exclusive args ["nocopy"; "codec"] ;;
  _ <- check_arg_stream_names_exclusive args RES_ARGS ["nocopy"] "v" ;;
  _ <- check_exclusive_args args (RES_ARGS ++ ["width"]) ;;
  check_exclusive_args args (RES_ARGS ++ ["height"]).

(** ** The command assembler and the batch loop *)

(** Builds audio filter list from input arguments (a placeholder). *)
Definition audio_filters_from_args (args : Args) (input_file : string) : list string := [].

(** What one pass through the [try] block of [process_input] ends with when
    no exception reaches the outer handler. *)
Inductive build_result : Type :=
| Built (cmdline : list string) (output_file : string) (suffix : option string)
| VideoFilterError (e : exn).

(** What the loop did with one input file. *)
Inductive job : Type :=
| NoExtension (input_file : string)
| FilterError (input_file : string) (e : exn)
| BuildError (input_file : string) (e : exn)
| DryRun (input_file output_file : string) (cmdline : list string)
| Ran (input_file output_file : string) (cmdline : list string) (returncode : Z).

(** How [process_input] ends: it returns [err_count], or [exit(returncode)]
    stops the script, or an exception leaves the loop. *)
Inductive batch : Type :=
| Finished (err_count : Z) (jobs : list job)
| Exited (returncode : Z) (jobs : list job)
| Crashed (e : exn) (jobs : list job).

Section Assembler.
Context {PF : PyFloat}.
Variable env : Env.
Variable args : Args.

(** The loop "Secondary inputs". *)
Definition secondary_inputs (cmdline : list string) : result (list string) :=
  for_each STREAM_TYPES_SHORT
    (fun cmdline stream_type =>
       if stream_type_bool (addfile args) stream_type then
         let cmdline :=
           if stream_type_bool (addlooped args) stream_type
           then cmdline ++ ["-stream_loop"; "-1"] else cmdline in
         match stream_type_arg (addfile args) stream_type with
         | Some f => Ok (cmdline ++ ["-i"; f])
         | None => Raise (TypeError "expected str, not NoneType")
         end
       else Ok cmdline)
    cmdline.

(** The number of streams taken from the added file of a stream type. *)
Definition added_stream_count (stream_type : string) : result Z :=
  match stream_type_arg (addfile args) stream_type with
  | Some add_file =>
      if truthy_str add_file then
        long <- dict_get STREAM_TYPES_DICT stream_type ;;
        input_add_streams <- probe_stream_count env (ffprobebin args) add_file long ;;
        match stream_type_arg (addstream args) stream_type with
        | Some single_add_stream =>
            if single_add_stream + 1 >? input_add_streams then
              Raise (Exception ("Requested stream index " ++ str_of_Z single_add_stream
                                  ++ " exceeds stream count " ++ str_of_Z input_add_streams
                                  ++ " for added input stream '" ++ stream_type ++ "'")%string)
            else Ok 1
        | None => Ok input_add_streams
        end
      else Ok 0
  | None => Ok 0
  end.

(** The number of streams taken from the primary input of a stream type. *)
Definition primary_stream_count (input_streams_counts : list (string * Z))
  (stream_type : string) : result Z :=
  if negb (stream_type_bool (nocopy args) stream_type) then
    input_streams <- dict_get input_streams_counts stream_type ;;
    match stream_type_arg (singlestream args) stream_type with
    | Some single_stream =>
        probed <- dict_get input_streams_counts stream_type ;;
        if single_stream + 1 >? probed then
          Raise (Exception ("Requested stream index " ++ str_of_Z single_stream
                              ++ " exceeds stream count " ++ str_of_Z input_streams
                              ++ " for primary input stream '" ++ stream_type ++ "'")%string)
        else Ok 1
    | None => Ok input_streams
    end
  else Ok 0.

(** The body of the loop "Begin stream mapping": the tokens one stream type
    adds to the command. *)
Definition stream_type_maps (input_file : string) (input_streams_counts : list (string * Z))
  (stream_type : string) : result (list string) :=
  let add_file :=
    match stream_type_arg (addfile args) stream_type with Some f => f | None => "" end in
  input_add_streams <- added_stream_count stream_type ;;
  input_streams <- primary_stream_count input_streams_counts stream_type ;;
  if negb (stream_type_bool (addfirst args) stream_type) then
    (* Add primary streams first *)
    primary_map <-
      (if negb (input_streams =? 0)
       then stream_map env true args stream_type input_streams 0 input_file
       else Ok []) ;;
    added_map <-
      (if negb (input_add_streams =? 0)
       then stream_map env false args stream_type input_add_streams input_streams add_file
       else Ok []) ;;
    Ok (primary_map ++ added_map)
  else
    (* Add secondary streams first *)
    added_map <-
      (if negb (input_add_streams =? 0)
       then stream_map env false args stream_type input_add_streams 0 add_file
       else Ok []) ;;
    probed <- dict_get input_streams_counts stream_type ;;
    primary_map <-
      (if negb (probed =? 0)
       then stream_map env true args stream_type input_streams input_add_streams input_file
       else Ok []) ;;
    Ok (added_map ++ primary_map).

(** The loop "Begin stream mapping". *)
Definition stream_maps (input_file : string) (input_streams_counts : list (string * Z))
  (cmdline : list string) : result (list string) :=
  for_each STREAM_TYPES_SHORT
    (fun cmdline stream_type =>
       maps <- stream_type_maps input_file input_streams_counts stream_type ;;
       Ok (cmdline ++ maps))
    cmdline.

(** "When to stop encoding" *)
Definition length_args : list string :=
  if shortest args then ["-shortest"]
  else
    match duration args with
    | Some d => if truthy_str d then ["-t"; d] else []
    | None => []
    end.

(** "Strip chapters" *)
Definition strip_chapters : list string :=
  if negb (stream_type_bool (nocopy args) "c") then ["-map_chapters"; "-1"] else [].

(** "Strip metadata" *)
Definition strip_metadata : list string :=
  if negb (stream_type_bool (nocopy args) "m") then ["-map_metadata"; "-1"] else [].

(** "Add metadata attachment" *)
Definition attach_args : list string :=
  match addattach args with
  | Some a =>
      if truthy_str a
      then ["-attach"; a; "-metadata:s:t"; ("mimetype=" ++ attachtype args)%string]
      else []
  | None => []
  end.

(** "Determine output filename" *)
Definition output_path (input_filename output_extension : string) : string :=
  if isdir env (output args) then
    (* Strip extension *)
    let filename := py_slice_to input_filename (py_rfind "." input_filename) in
    path_join (output args) (filename ++ output_extension)%string
  else output args.

(** The [try] block of [process_input]: the command line of one input file. *)
Definition build_cmdline (input_file input_filename output_extension : string)
  (output_width output_height : Z) (input_streams_counts : list (string * Z))
  : result build_result :=
  (* Starting binary *)
  let cmdline := [ffmpegbin args] in
  (* Overwrite flag *)
  let cmdline := if overwrite args then cmdline ++ ["-y"] else cmdline in
  (* Image sequence input *)
  let cmdline :=
    if sequence args then cmdline ++ ["-r"; framerate args; "-f"; "image2"] else cmdline in
  (* Set primary input *)
  let cmdline := cmdline ++ ["-i"; input_file] in
  (* Secondary inputs *)
  cmdline <- secondary_inputs cmdline ;;
  (* Copy other stuff *)
  let cmdline := if negb (nounknown args) then cmdline ++ ["-copy_unknown"] else cmdline in
  (* Begin stream mapping *)
  cmdline <- stream_maps input_file input_streams_counts cmdline ;;
  (* Video filters, in a [try] of their own *)
  match
    (if negb (stream_type_bool (nocopy args) "v") then
       match video_filters_from_args env args output_width output_height input_file with
       | Ok (output_vfilters, output_width, output_height) =>
           inl (match output_vfilters with
                | [] => cmdline
                | _ :: _ => cmdline ++ ["-vf"; String.concat "," output_vfilters]
                end, output_width, output_height)
       | Raise e => inr e
       end
     else inl (cmdline, output_width, output_height))
  with
  | inr e => Ok (VideoFilterError e)
  | inl (cmdline, output_width, output_height) =>
      (* Audio filters *)
      let cmdline :=
        if negb (stream_type_bool (nocopy args) "a") then
          match audio_filters_from_args args input_file with
          | [] => cmdline
          | (_ :: _) as output_afilters =>
              cmdline ++ ["-af"; String.concat "," output_afilters]
          end
        else cmdline in
      let cmdline := cmdline ++ length_args in
      let cmdline := cmdline ++ strip_chapters in
      let cmdline := cmdline ++ strip_metadata in
      let cmdline := cmdline ++ attach_args in
      let output_file := output_path input_filename output_extension in
      (* Add suffix *)
      '(output_file, suffix_used) <-
        (if suffix args then
           suffix <- suffix_str args output_width output_height ;;
           let dotpos := py_rfind "." output_file in
           Ok ((py_slice_to output_file dotpos ++ suffix
                  ++ py_slice_from output_file dotpos)%string, Some suffix)
         else Ok (output_file, None)) ;;
      (* Set Output path *)
      Ok (Built (cmdline ++ [output_file]) output_file suffix_used)
  end.

(** The loop of [process_input], from a given error count on.  The job
    number and the timers only feed log messages and are left out. *)
Fixpoint process_loop (input_files : list string) (err_count : Z) (jobs : list job)
  : batch :=
  match input_files with
  | [] => Finished err_count jobs
  | input_file :: rest =>
      (* Make sure input filename contains a period *)
      let input_filename := path_tail input_file in
      if negb (char_in "." input_filename) then
        process_loop rest (err_count + 1) (jobs ++ [NoExtension input_file])
      else
        (* Container file extension *)
        let output_extension := get_container_extension args input_file in
        (* Output dimensions, may be overridden later *)
        let '(output_width, output_height) := get_dimensions_from_args args in
        (* Input stream counts *)
        match get_stream_count_map_from_input env args input_file with
        | Raise e => Crashed e jobs
        | Ok input_streams_counts =>
            match build_cmdline input_file input_filename output_extension
                    output_width output_height input_streams_counts with
            | Raise e =>
                process_loop rest (err_count + 1) (jobs ++ [BuildError input_file e])
            | Ok (VideoFilterError e) =>
                process_loop rest (err_count + 1) (jobs ++ [FilterError input_file e])
            | Ok (Built cmdline output_file _) =>
                if dryrun args then
                  process_loop rest err_count (jobs ++ [DryRun input_file output_file cmdline])
                else
                  match run_with_afinity env cmdline (setaffinity args) with
                  | Raise e => Crashed e jobs
                  | Ok returncode =>
                      let jobs := jobs ++ [Ran input_file output_file cmdline returncode] in
                      if negb (returncode =? 0) then
                        if stoponerror args then Exited returncode jobs
                        else process_loop rest (err_count + 1) jobs
                      else process_loop rest err_count jobs
                  end
            end
        end
  end.

(** Process through list of input files. *)
Definition process_input (input_files : list string) : batch :=
  process_loop input_files 0 [].

End Assembler.

(** [args.setaffinity = False] *)
Definition clear_setaffinity (a : Args) : Args :=
  {| input := input a; output := output a; container := container a;
     codec := codec a; bitrate := bitrate a; lang := lang a; nocopy := nocopy a;
     singlestream := singlestream a; convertonly := convertonly a;
     addfile := addfile a; addcodec := addcodec a; addstream := addstream a;
     addfirst := addfirst a; adddefault := adddefault a; addlang := addlang a;
     addlooped := addlooped a; mono := mono a; stereo := stereo a;
     preset := preset a; tune := tune a; tier := tier a; crf := crf a;
     deshake := deshake a; _8bit := _8bit a; _10bit := _10bit a;
     sdr := sdr a; hdr := hdr a; hd := hd a; fhd := fhd a; qhd := qhd a;
     uhd := uhd a; width := width a; height := height a; crop := crop a;
     padding := padding a; sequence := sequence a; framerate := framerate a;
     nounknown := nounknown a; addattach := addattach a;
     attachtype := attachtype a; shortest := shortest a; duration := duration a;
     stoponerror := stoponerror a; setaffinity := false; dryrun := dryrun a;
     overwrite := overwrite a; verbose := verbose a; ffmpegbin := ffmpegbin a;
     ffprobebin := ffprobebin a; nolog := nolog a; logfile := logfile a;
     suffix := suffix a |}.

(** How [main] ends: it returns an errno before any file is looked at, or
    it hands the input files to [process_input]. *)
Inductive main_result : Type :=
| Returned (code : Z)
| Processed (b : batch).

(** Main function entry point, from the parsed arguments on. *)
Definition main {PF : PyFloat} (env : Env) (args : Args) : main_result :=
  (* Actual input is a file or wildcard list of files or printf style
     numbered image sequence *)
  let input_files :=
    if isfile env (input args) then [input args]
    else if sequence args && char_in "%" (input args) then [input args]
    else glob env (input args) in
  (* Validate inputs *)
  match input_files with
  | [] => Returned ENOENT
  | _ :: _ =>
      if (1 <? Z.of_nat (List.length input_files)) && negb (isdir env (output args))
      then Returned EFAULT
      else if truthy_ostr (addattach args)
              && negb (isfile env (match addattach args with Some a => a | None => "" end))
      then Returned ENOENT
      else
        (* CPU Affinity only availabe for "some Unix" as of 3.9 *)
        let args :=
          if setaffinity args && negb (in_list (platform_system env) ["Linux"; "Unix"])
          then clear_setaffinity args else args in
        (* Checks for invalid argument combinations *)
        match check_valid_arguments args with
        | Raise _ => Returned EINVAL
        | Ok _ => Processed (process_input env args input_files)
        end
  end.

(** ** Inputs for running the compiler

    An exact stand-in for Python floats (rationals; only integer literals
    are read) and environments that answer ffprobe from fixed tables. *)

Definition exact_of_str (s : string) : result Q :=
  match py_int s with
  | Some n => Ok (inject_Z n)
  | None => Raise (ValueError "could not convert string to float")
  end.

Definition exact_div (x y : Q) : result Q :=
  if Qeq_bool y (inject_Z 0) then Raise ZeroDivisionError else Ok (Qdiv x y).

#[export] Instance exact_float : PyFloat := {|
  float := Q;
  float_of_str := exact_of_str;
  float_div := exact_div;
  int_truediv := fun m n => exact_div (inject_Z m) (inject_Z n);
  int_mul_float := fun m x => Ok (Qmult (inject_Z m) x);
  int_div_float := fun m x => exact_div (inject_Z m) x;
  int_of_float := fun x => Ok (Z.quot (Qnum x) (Zpos (Qden x)));
  float_ltb := fun x y => negb (Qle_bool y x)
|}.

(** The ffprobe answers of one media file: the [codec_type] listing and the
    properties of its streams, keyed by stream selector and entry. *)
Record media : Type := mkMedia {
  listing : string;
  properties : list (string * string * string)
}.

Fixpoint property_of (props : list (string * string * string)) (select entry : string)
  : string :=
  match props with
  | [] => ""
  | (s, e, v) :: rest =>
      if (s =? select)%string && (e =? entry)%string then v
      else property_of rest select entry
  end.

(** ffprobe over a table of files; the command is the one [probe_string]
    assembles. *)
Definition ffprobe_of (files : list (string * media)) (cmd : list string) : string :=
  match find (fun fm => String.eqb (fst fm) (last cmd "")) files with
  | None => ""
  | Some (_, m) =>
      match cmd with
      | [_; "-v"; "error"; "-show_entries"; "stream=codec_type"; _] => listing m
      | [_; "-v"; "error"; "-select_streams"; select; "-show_entries"; entry; "-of"; _; _] =>
          property_of (properties m) select entry
      | _ => ""
      end
  end.

(** A world with the given media files, one directory [out], and an ffmpeg
    that always succeeds. *)
Definition world_of (files : list (string * media)) : Env :=
  {| ffprobe_stdout := fun cmd => Ok (ffprobe_of files cmd);
     isdir := fun p => (p =? "out")%string;
     isfile := fun p => existsb (fun fm => String.eqb (fst fm) p) files;
     glob := fun _ => map fst files;
     platform_system := "Linux";
     run_with_afinity := fun _ _ => Ok 0 |}.

(** The same probed facts in a world where ffmpeg fails and nothing is a
    file. *)
Definition failing_world_of (files : list (string * media)) : Env :=
  {| ffprobe_stdout := fun cmd => Ok (ffprobe_of files cmd);
     isdir := fun p => (p =? "out")%string;
     isfile := fun _ => false;
     glob := fun _ => [];
     platform_system := "Darwin";
     run_with_afinity := fun _ _ => Ok 1 |}.

Definition newline : string := String (ascii_of_nat 10) EmptyString.

(** A file with one data stream and one attachment. *)
Definition data_and_attachment : media :=
  {| listing := ("codec_type=data" ++ newline ++ "codec_type=attachment")%string;
     properties := [] |}.

(** A file with one h264 video stream and one hevc video stream. *)
Definition two_videos : media :=
  {| listing := ("codec_type=video" ++ newline ++ "codec_type=video")%string;
     properties := [("v:0", "stream=codec_name", "h264");
                    ("v:1", "stream=codec_name", "hevc");
                    ("v:0", "stream=width", "1920");
                    ("v:0", "stream=height", "1080");
                    ("v:0", "stream=display_aspect_ratio", "16:9")] |}.

(** A file with one video and one aac audio stream. *)
Definition video_and_audio : media :=
  {| listing := ("codec_type=video" ++ newline ++ "codec_type=audio")%string;
     properties := [("v:0", "stream=codec_name", "h264");
                    ("a:0", "stream=codec_name", "aac");
                    ("v:0", "stream=width", "1920");
                    ("v:0", "stream=height", "1080");
                    ("v:0", "stream=display_aspect_ratio", "16:9")] |}.

(** A file with an mp3 and an aac audio stream. *)
Definition two_audios : media :=
  {| listing := ("codec_type=audio" ++ newline ++ "codec_type=audio")%string;
     properties := [("a:0", "stream=codec_name", "mp3");
                    ("a:1", "stream=codec_name", "aac")] |}.

(** An option set that differs from the defaults in the fields given. *)
Definition options
  (codec' bitrate' : option (list (string * string)))
  (nocopy' convertonly' : option (list string))
  (singlestream' : option (list (string * Z)))
  (width' height' : option Z) (crop' : option string) (suffix' : bool) : Args :=
  let a := default_args "in.mkv" "out.mkv" in
  {| input := input a; output := output a; container := container a;
     codec := codec'; bitrate := bitrate'; lang := lang a; nocopy := nocopy';
     singlestream := singlestream'; convertonly := convertonly';
     addfile := addfile a; addcodec := addcodec a; addstream := addstream a;
     addfirst := addfirst a; adddefault := adddefault a; addlang := addlang a;
     addlooped := addlooped a; mono := mono a; stereo := stereo a;
     preset := preset a; tune := tune a; tier := tier a; crf := crf a;
     deshake := deshake a; _8bit := _8bit a; _10bit := _10bit a;
     sdr := sdr a; hdr := hdr a; hd := hd a; fhd := fhd a; qhd := qhd a;
     uhd := uhd a; width := width'; height := height'; crop := crop';
     padding := padding a; sequence := sequence a; framerate := framerate a;
     nounknown := nounknown a; addattach := addattach a;
     attachtype := attachtype a; shortest := shortest a; duration := duration a;
     stoponerror := stoponerror a; setaffinity := setaffinity a; dryrun := dryrun a;
     overwrite := overwrite a; verbose := verbose a; ffmpegbin := ffmpegbin a;
     ffprobebin := ffprobebin a; nolog := nolog a; logfile := logfile a;
     suffix := suffix' |}.

(** [-codec v h264 -convertonly v] *)
Definition convert_only_h264 : Args :=
  options (Some [("v", "h264")]) None None (Some ["v"]) None None None None false.

(** [-codec a mp3 -convertonly a] *)
Definition convert_only_mp3 : Args :=
  options (Some [("a", "mp3")]) None None (Some ["a"]) None None None None false.

(** [-codec v h264 -width 1280 -height 720 -crop center -suffix] *)
Definition cropped_with_suffix : Args :=
  options (Some [("v", "h264")]) None None None None (Some 1280) (Some 720)
    (Some "center") true.

(** [-nocopy a -singlestream a 5] *)
Definition single_audio_not_copied : Args :=
  options None None (Some ["a"]) None (Some [("a", 5)]) None None None false.

(** [-singlestream a 5] *)
Definition single_audio : Args :=
  options None None None None (Some [("a", 5)]) None None None false.

(** [-bitrate a 128k] *)
Definition bitrate_only : Args :=
  options None (Some [("a", "128k")]) None None None None None None false.

(** [-height 1080] *)
Definition height_1080 : Args :=
  options None None None None None None (Some 1080) None false.

(** [-nocopy c] *)
Definition keep_chapters : Args :=
  options None None (Some ["c"]) None None None None None false.


(** ** Vocabulary of the statements *)


(** The arguments of the [-map] options of a command, in order. *)
Fixpoint directives (cmdline : list string) : list string :=
  match cmdline with
  | [] => []
  | x :: rest =>
      match rest with
      | [] => []
      | y :: _ => if (x =? "-map")%string then y :: directives rest else directives rest
      end
  end.

(** The two forms of a map directive for the primary input file. *)
Definition drop_form (stream_type : string) : string :=
  ("-0:" ++ stream_type ++ "?")%string.

Definition select_form (args : Args) (stream_type : string) : string :=
  match stream_type_arg (singlestream args) stream_type with
  | Some n => ("0:" ++ stream_type ++ ":" ++ str_of_Z n)%string
  | None => ("0:" ++ stream_type ++ "?")%string
  end.

(** The directives a group of [count] streams of a type is given. *)
Definition group_directive (args : Args) (stream_type : string) (count : Z) : list string :=
  if count =? 0 then []
  else [if stream_type_bool (nocopy args) stream_type
        then drop_form stream_type else select_form args stream_type].

(** The filters that do not come from the requested geometry. *)
Definition colour_and_deshake (args : Args) : list string :=
  (if sdr args
   then ["scale=in_color_matrix=auto:in_range=auto:out_color_matrix=bt709:out_range=tv"]
   else [])
  ++ (if deshake args then ["deshake"] else []).

(** The jobs recorded by a batch, and the command of a job that has one. *)
Definition jobs_of (b : batch) : list job :=
  match b with
  | Finished _ jobs | Exited _ jobs | Crashed _ jobs => jobs
  end.

Definition command_of (j : job) : option (list string) :=
  match j with
  | DryRun _ _ cmdline | Ran _ _ cmdline _ => Some cmdline
  | _ => None
  end.

(** The stream types an [nargs=2] option has an entry for. *)
Definition keys_of {V : Type} (o : option (list (string * V))) : list string :=
  match o with
  | Some l => map fst l
  | None => []
  end.

(** A single-stream index for the primary input that is checked and lies
    beyond the probed count. *)
Definition primary_out_of_range (env : Env) (args : Args) (input_file stream_type : string)
  (index : Z) : Prop :=
  stream_type_bool (nocopy args) stream_type = false
  /\ stream_type_arg (singlestream args) stream_type = Some index
  /\ exists counts count,
       get_stream_count_map_from_input env args input_file = Ok counts
       /\ dict_get counts stream_type = Ok count
       /\ index + 1 > count.

(** A single-stream index for the added file of a stream type that lies
    beyond the probed count of that file. *)
Definition added_out_of_range (env : Env) (args : Args) (stream_type : string)
  (index : Z) : Prop :=
  exists add_file long,
    stream_type_arg (addfile args) stream_type = Some add_file
    /\ truthy_str add_file = true
    /\ dict_get STREAM_TYPES_DICT stream_type = Ok long
    /\ stream_type_arg (addstream args) stream_type = Some index
    /\ exists count,
         probe_stream_count env (ffprobebin args) add_file long = Ok count
         /\ index + 1 > count.

(** The tokens that may follow the directive of a [-map] option: output
    stream options, encoder arguments and metadata. *)
Definition mapping_argument (t : string) : bool :=
  starts_with "0:" t || starts_with "-0:" t || starts_with "-c:" t
  || starts_with "-disposition:" t || starts_with "-metadata:s:" t
  || starts_with "language=" t
  || in_list t ["copy"; "default"; "none"; "opus"; "-strict"; "-2"; "dca";
                "libmp3lame"; "wavpack"; "subrip"; "-ac"; "2"; "1"]
  || in_list t AUDIO_CODECS || in_list t SUBTITLE_CODECS.



(** The suffix fragment of a stream type that is not copied. *)
Definition excluded_fragment (args : Args) (stream_type long : string) : string :=
  if stream_type_bool (nocopy args) stream_type then ("_no" ++ long)%string else "".

(** ** Further parts of the script *)

(** [ValidateStreamCodecArg], the [type=] callable of [-codec] and
    [-addcodec]: it is called once per argument string, in command-line
    order, and keeps the attribute [lasttype] between calls.  The state
    passed here is that attribute; the assignment to [lastype] at the end
    of the codec branch writes another attribute and leaves it alone. *)
Definition ValidateStreamCodecArg (lasttype : option string) (value : string)
  : result (string * option string) :=
  if negb (truthy_ostr lasttype) then
    if negb (in_list value STREAM_TYPES_SHORT)
    then Raise (ValueError ("Invalid stream type: " ++ value)%string)
    else Ok (value, Some value)
  else
    let lasttype_value := match lasttype with Some t => t | None => "" end in
    if ("v" =? lasttype_value)%string then
      if negb (in_list value VIDEO_CODECS)
      then Raise (ValueError ("Invalid video codec: " ++ value)%string)
      else Ok (value, lasttype)
    else if ("a" =? lasttype_value)%string then
      if negb (in_list value AUDIO_CODECS)
      then Raise (ValueError ("Invalid audio codec: " ++ value)%string)
      else Ok (value, lasttype)
    else if ("s" =? lasttype_value)%string then
      if negb (in_list value SUBTITLE_CODECS)
      then Raise (ValueError ("Invalid subtitle codec: " ++ value)%string)
      else Ok (value, lasttype)
    else
      Raise (ValueError ("Codecs not currently supported for stream type "
                           ++ lasttype_value)%string).

(** [ValidateStreamStringArg], the [type=] callable of [-bitrate], [-lang]
    and [-addlang]; the state is its attribute [firstarg]. *)
Definition ValidateStreamStringArg (firstarg : bool) (value : string)
  : result (string * bool) :=
  if firstarg then
    if negb (in_list value STREAM_TYPES_SHORT)
    then Raise (ValueError ("Invalid stream type: " ++ value)%string)
    else Ok (value, negb firstarg)
  else Ok (value, negb firstarg).

(** Successive calls of a [type=] callable on the argument strings of the
    command line, threading its attribute. *)
Fixpoint validate_all {S : Type} (validate : S -> string -> result (string * S))
  (state : S) (values : list string) : result (list string * S) :=
  match values with
  | [] => Ok ([], state)
  | value :: rest =>
      '(v, state) <- validate state value ;;
      '(vs, state) <- validate_all validate state rest ;;
      Ok (v :: vs, state)
  end.

(** ** Further vocabulary *)

(** The input file a job is about. *)
Definition job_file (j : job) : string :=
  match j with
  | NoExtension f | FilterError f _ | BuildError f _ | DryRun f _ _ | Ran f _ _ _ => f
  end.

(** The jobs the loop counts as errors. *)
Definition job_failed (j : job) : bool :=
  match j with
  | NoExtension _ | FilterError _ _ | BuildError _ _ => true
  | Ran _ _ _ returncode => negb (returncode =? 0)
  | DryRun _ _ _ => false
  end.

Definition count_failed (jobs : list job) : Z :=
  Z.of_nat (List.length (filter job_failed jobs)).

Definition job_ran (j : job) : bool :=
  match j with
  | Ran _ _ _ _ => true
  | _ => false
  end.

(** The tokens of a command that start with [prefix], and the tokens that
    follow them. *)
Definition options_named (prefix : string) (cmdline : list string) : list string :=
  filter (starts_with prefix) cmdline.

Fixpoint values_of (prefix : string) (cmdline : list string) : list string :=
  match cmdline with
  | [] => []
  | x :: rest =>
      match rest with
      | [] => []
      | y :: _ => if starts_with prefix x then y :: values_of prefix rest
                  else values_of prefix rest
      end
  end.

(** The encoder words of audio, subtitle and copied streams. *)
Definition encoder_word (t : string) : bool :=
  in_list t ["copy"; "opus"; "-strict"; "-2"; "dca"; "libmp3lame"; "wavpack"; "subrip";
             "-ac"; "2"; "1"]
  || in_list t AUDIO_CODECS || in_list t SUBTITLE_CODECS.

(** The tokens [stream_map_args] adds for output stream [out] of a type:
    the codec option with its arguments, the disposition and the language. *)
Definition stream_options (spec : string) (out : Z) (codec_args : list string)
  (metadata : option string) (disposition : option string) : list string :=
  [("-c:" ++ spec ++ ":" ++ str_of_Z out)%string] ++ codec_args
  ++ match disposition with
     | Some d => [("-disposition:" ++ spec ++ ":" ++ str_of_Z out)%string; d]
     | None => []
     end
  ++ match metadata with
     | Some m => if truthy_str m
                 then [("-metadata:s:" ++ spec ++ ":" ++ str_of_Z out)%string; m]
                 else []
     | None => []
     end.

(** The disposition of the [k]-th stream of a group. *)
Definition disposition_of (default_stream : option bool) (k : nat) : option string :=
  match default_stream with
  | None => None
  | Some d => Some (if d && Nat.eqb k 0 then "default" else "none")
  end.

(** ** Further option sets *)

(** [-nocopy a -codec a aac] *)
Definition excluded_and_encoded : Args :=
  options (Some [("a", "aac")]) None (Some ["a"]) None None None None None false.

(** [-addcodec a aac]: the fields of [options] and those for added streams. *)
Definition options_added
  (codec' : option (list (string * string)))
  (addfile' addcodec' : option (list (string * string)))
  (addfirst' adddefault' addlooped' : option (list string))
  (shortest' : bool) : Args :=
  let a := default_args "in.mkv" "out.mkv" in
  {| input := input a; output := output a; container := container a;
     codec := codec'; bitrate := bitrate a; lang := lang a; nocopy := nocopy a;
     singlestream := singlestream a; convertonly := convertonly a;
     addfile := addfile'; addcodec := addcodec'; addstream := addstream a;
     addfirst := addfirst'; adddefault := adddefault'; addlang := addlang a;
     addlooped := addlooped'; mono := mono a; stereo := stereo a;
     preset := preset a; tune := tune a; tier := tier a; crf := crf a;
     deshake := deshake a; _8bit := _8bit a; _10bit := _10bit a;
     sdr := sdr a; hdr := hdr a; hd := hd a; fhd := fhd a; qhd := qhd a;
     uhd := uhd a; width := width a; height := height a; crop := crop a;
     padding := padding a; sequence := sequence a; framerate := framerate a;
     nounknown := nounknown a; addattach := addattach a;
     attachtype := attachtype a; shortest := shortest'; duration := duration a;
     stoponerror := stoponerror a; setaffinity := setaffinity a; dryrun := dryrun a;
     overwrite := overwrite a; verbose := verbose a; ffmpegbin := ffmpegbin a;
     ffprobebin := ffprobebin a; nolog := nolog a; logfile := logfile a;
     suffix := suffix a |}.

Definition added_codec_without_file : Args :=
  options_added None None (Some [("a", "aac")]) None None None false.

(** [-height 720 -crop center] *)
Definition height_and_crop : Args :=
  options None None None None None None (Some 720) (Some "center") false.

(** [-crop center] *)
Definition crop_only : Args :=
  options None None None None None None None (Some "center") false.

(** [-hd -width 640 -codec v h264] *)
Definition hd_and_width : Args :=
  let a := options (Some [("v", "h264")]) None None None None (Some 640) None None false in
  {| input := input a; output := output a; container := container a;
     codec := codec a; bitrate := bitrate a; lang := lang a; nocopy := nocopy a;
     singlestream := singlestream a; convertonly := convertonly a;
     addfile := addfile a; addcodec := addcodec a; addstream := addstream a;
     addfirst := addfirst a; adddefault := adddefault a; addlang := addlang a;
     addlooped := addlooped a; mono := mono a; stereo := stereo a;
     preset := preset a; tune := tune a; tier := tier a; crf := crf a;
     deshake := deshake a; _8bit := _8bit a; _10bit := _10bit a;
     sdr := sdr a; hdr := hdr a; hd := true; fhd := fhd a; qhd := qhd a;
     uhd := uhd a; width := width a; height := height a; crop := crop a;
     padding := padding a; sequence := sequence a; framerate := framerate a;
     nounknown := nounknown a; addattach := addattach a;
     attachtype := attachtype a; shortest := shortest a; duration := duration a;
     stoponerror := stoponerror a; setaffinity := setaffinity a; dryrun := dryrun a;
     overwrite := overwrite a; verbose := verbose a; ffmpegbin := ffmpegbin a;
     ffprobebin := ffprobebin a; nolog := nolog a; logfile := logfile a;
     suffix := suffix a |}.

(** [args.bitrate = value] *)
Definition set_bitrate (a : Args) (value : option (list (string * string))) : Args :=
  {| input := input a; output := output a; container := container a;
     codec := codec a; bitrate := value; lang := lang a; nocopy := nocopy a;
     singlestream := singlestream a; convertonly := convertonly a;
     addfile := addfile a; addcodec := addcodec a; addstream := addstream a;
     addfirst := addfirst a; adddefault := adddefault a; addlang := addlang a;
     addlooped := addlooped a; mono := mono a; stereo := stereo a;
     preset := preset a; tune := tune a; tier := tier a; crf := crf a;
     deshake := deshake a; _8bit := _8bit a; _10bit := _10bit a;
     sdr := sdr a; hdr := hdr a; hd := hd a; fhd := fhd a; qhd := qhd a;
     uhd := uhd a; width := width a; height := height a; crop := crop a;
     padding := padding a; sequence := sequence a; framerate := framerate a;
     nounknown := nounknown a; addattach := addattach a;
     attachtype := attachtype a; shortest := shortest a; duration := duration a;
     stoponerror := stoponerror a; setaffinity := setaffinity a; dryrun := dryrun a;
     overwrite := overwrite a; verbose := verbose a; ffmpegbin := ffmpegbin a;
     ffprobebin := ffprobebin a; nolog := nolog a; logfile := logfile a;
     suffix := suffix a |}.

(** [-nocopy a -suffix] *)
Definition suffix_without_audio : Args :=
  options None None (Some ["a"]) None None None None None true.

(** The value of [default_stream] when the loop of [stream_map_args] reaches
    its [k]-th stream: only the first stream can still be marked default. *)
Definition default_state (default_stream : option bool) (k : nat) : option bool :=
  match default_stream with
  | Some d => Some (d && Nat.eqb k 0)
  | None => None
  end.

(** The language tag and the initial disposition state of a group. *)
Definition language_tag (primary : bool) (args : Args) (stream_type : string)
  : option string :=
  match (if primary then stream_type_arg (lang args) stream_type
         else stream_type_arg (addlang args) stream_type) with
  | Some l => if truthy_str l then Some ("language=" ++ l)%string else None
  | None => None
  end.

Definition group_default (primary : bool) (args : Args) (stream_type : string)
  : option bool :=
  if stream_type_bool (adddefault args) stream_type then Some (negb primary) else None.

(** [-codec v h264 -width 4000 -height 720 -crop center] *)
Definition wide_crop : Args :=
  options (Some [("v", "h264")]) None None None None (Some 4000) (Some 720)
    (Some "center") false.

(** The codec option of output stream [k] of a type. *)
Definition codec_option (stream_type : string) (k : Z) : string :=
  ("-c:" ++ stream_type ++ ":" ++ str_of_Z k)%string.

(** [-addfile a add.mka -addcodec a aac -adddefault a] *)
Definition added_default_audio : Args :=
  options_added None (Some [("a", "add.mka")]) (Some [("a", "aac")]) None (Some ["a"])
    None false.

(** The options [a] with another output path and the given [-dryrun] and
    [-stoponerror] flags. *)
Definition run_options (a : Args) (output' : string) (dryrun' stoponerror' : bool) : Args :=
  {| input := input a; output := output'; container := container a;
     codec := codec a; bitrate := bitrate a; lang := lang a; nocopy := nocopy a;
     singlestream := singlestream a; convertonly := convertonly a;
     addfile := addfile a; addcodec := addcodec a; addstream := addstream a;
     addfirst := addfirst a; adddefault := adddefault a; addlang := addlang a;
     addlooped := addlooped a; mono := mono a; stereo := stereo a;
     preset := preset a; tune := tune a; tier := tier a; crf := crf a;
     deshake := deshake a; _8bit := _8bit a; _10bit := _10bit a;
     sdr := sdr a; hdr := hdr a; hd := hd a; fhd := fhd a; qhd := qhd a;
     uhd := uhd a; width := width a; height := height a; crop := crop a;
     padding := padding a; sequence := sequence a; framerate := framerate a;
     nounknown := nounknown a; addattach := addattach a;
     attachtype := attachtype a; shortest := shortest a; duration := duration a;
     stoponerror := stoponerror'; setaffinity := setaffinity a; dryrun := dryrun';
     overwrite := overwrite a; verbose := verbose a; ffmpegbin := ffmpegbin a;
     ffprobebin := ffprobebin a; nolog := nolog a; logfile := logfile a;
     suffix := suffix a |}.

(** [-dryrun], into the directory [out] *)
Definition dry_run : Args := run_options (default_args "in.mkv" "out") "out" true false.

(** [-stoponerror], into the directory [out] *)
Definition stop_on_error : Args := run_options (default_args "in.mkv" "out") "out" false true.

(** [-nocopy a -suffix] with the output path [result], which has no dot *)
Definition suffix_on_plain_name : Args := run_options suffix_without_audio "result" false false.

(** The input files [main] finds: the input path itself when it is a file
    or the printf pattern of an image sequence, else the matches of the
    wildcard. *)
Definition found_input_files (env : Env) (args : Args) : list string :=
  if isfile env (input args) then [input args]
  else if sequence args && char_in "%" (input args) then [input args]
  else glob env (input args).

(** The options [main] goes on with after its platform test. *)
Definition affinity_checked (env : Env) (args : Args) : Args :=
  if setaffinity args && negb (in_list (platform_system env) ["Linux"; "Unix"])
  then clear_setaffinity args else args.

(** A world in which the ffprobe binary cannot be started. *)
Definition world_without_ffprobe : Env :=
  {| ffprobe_stdout := fun cmd => Raise (FileNotFoundError (List.hd "" cmd));
     isdir := fun p => (p =? "out")%string;
     isfile := fun _ => true;
     glob := fun _ => [];
     platform_system := "Linux";
     run_with_afinity := fun _ _ => Ok 0 |}.

(** [-addfile a add.mka -addfirst a -singlestream a -1] *)
Definition added_first_last_audio : Args :=
  let a := options_added None (Some [("a", "add.mka")]) None (Some ["a"]) None None false in
  {| input := input a; output := output a; container := container a;
     codec := codec a; bitrate := bitrate a; lang := lang a; nocopy := nocopy a;
     singlestream := Some [("a", -1)]; convertonly := convertonly a;
     addfile := addfile a; addcodec := addcodec a; addstream := addstream a;
     addfirst := addfirst a; adddefault := adddefault a; addlang := addlang a;
     addlooped := addlooped a; mono := mono a; stereo := stereo a;
     preset := preset a; tune := tune a; tier := tier a; crf := crf a;
     deshake := deshake a; _8bit := _8bit a; _10bit := _10bit a;
     sdr := sdr a; hdr := hdr a; hd := hd a; fhd := fhd a; qhd := qhd a;
     uhd := uhd a; width := width a; height := height a; crop := crop a;
     padding := padding a; sequence := sequence a; framerate := framerate a;
     nounknown := nounknown a; addattach := addattach a;
     attachtype := attachtype a; shortest := shortest a; duration := duration a;
     stoponerror := stoponerror a; setaffinity := setaffinity a; dryrun := dryrun a;
     overwrite := overwrite a; verbose := verbose a; ffmpegbin := ffmpegbin a;
     ffprobebin := ffprobebin a; nolog := nolog a; logfile := logfile a;
     suffix := suffix a |}.

(** * Properties *)

(** ** The error monad and loops *)

Lemma bind_ok {A B : Type} (m : result A) (k : A -> result B) (b : B) :
  bind m k = Ok b -> exists a, m = Ok a /\ k a = Ok b.
Proof.
  destruct m as [a | e]; simpl; intro H; [exists a; auto | discriminate].
Qed.

Lemma bind_raise {A B : Type} (m : result A) (k : A -> result B) :
  (exists e, m = Raise e) -> exists e, bind m k = Raise e.
Proof.
  intros [e ->]. exists e. reflexivity.
Qed.

(** A loop raises as soon as one item makes the body raise in every state. *)
Lemma for_each_raises {A S : Type} (body : S -> A -> result S) (x : A) (xs : list A) :
  In x xs ->
  (forall s, exists e, body s x = Raise e) ->
  forall s, exists e, for_each xs body s = Raise e.
Proof.
  intros Hin Hx.
  induction xs as [| y ys IH]; [contradiction |].
  intros s. simpl.
  destruct (body s y) as [s' | e] eqn:Hy.
  - simpl. destruct Hin as [-> | Hin].
    + destruct (Hx s) as [e He]. congruence.
    + apply IH. exact Hin.
  - exists e. reflexivity.
Qed.

Lemma for_each_ext {A S : Type} (f g : S -> A -> result S) (xs : list A) :
  (forall s x, In x xs -> f s x = g s x) ->
  forall s, for_each xs f s = for_each xs g s.
Proof.
  induction xs as [| x xs IH]; intros Hfg s; [reflexivity |].
  simpl. rewrite Hfg by (left; reflexivity).
  destruct (g s x) as [s' | e]; simpl; [| reflexivity].
  apply IH. intros s0 x0 Hin. apply Hfg. right. exact Hin.
Qed.

Lemma map_r_ext {A B : Type} (f g : A -> result B) (l : list A) :
  (forall x, f x = g x) -> map_r f l = map_r g l.
Proof.
  intro Hfg. induction l as [| x l IH]; [reflexivity |].
  cbn [map_r]. rewrite Hfg, IH. reflexivity.
Qed.

(** A list built by [map_r] has one element per element read, each the
    result of the body. *)
Lemma map_r_ok {A B : Type} (f : A -> result B) (l : list A) (ys : list B) :
  map_r f l = Ok ys -> Forall2 (fun x y => f x = Ok y) l ys.
Proof.
  revert ys. induction l as [| x l IH]; intros ys H.
  - injection H as <-. constructor.
  - cbn [map_r] in H. apply bind_ok in H. destruct H as (y & Hy & H).
    apply bind_ok in H. destruct H as (ys' & Hys & H). injection H as <-.
    constructor; [exact Hy | apply IH; exact Hys].
Qed.

(** ** Lookups *)

(** A type code is never equal to a two-element list, so the membership
    test of [stream_type_bool] fails on every [nargs=2] option. *)
Lemma stream_type_bool_pairs {V : Type} (o : option (list (string * V))) (t : string) :
  stream_type_bool o t = false.
Proof.
  destruct o as [l |]; [| reflexivity].
  simpl. induction l as [| p l IH]; [reflexivity | exact IH].
Qed.

Lemma first_match_none_keys {V : Type} (l : list (string * V)) (t : string) :
  first_match l t = None -> in_list t (map fst l) = false.
Proof.
  induction l as [| [k v] l IH]; [reflexivity |].
  simpl. rewrite (String.eqb_sym t k).
  destruct (String.eqb k t); [discriminate | exact IH].
Qed.

Lemma first_match_some_keys {V : Type} (l : list (string * V)) (t : string) (v : V) :
  first_match l t = Some v -> In t (map fst l).
Proof.
  induction l as [| [k w] l IH]; [discriminate |].
  simpl. destruct (String.eqb k t) eqn:E.
  - intros _. left. apply String.eqb_eq. exact E.
  - intro H. right. apply IH. exact H.
Qed.

(** ** C6: padding *)

(** C6. For every resolution [res >= 0] and padding [p > 0],
    [pad_resolution res p] returns the smallest multiple of [p] that is
    greater than or equal to [res]: padding rounds up, never down.  In
    particular [pad_resolution 1279 4] is [1280]. *)
Theorem pad_resolution_least_multiple (res p : Z) :
  0 <= res -> 0 < p ->
  exists r,
    pad_resolution res p = Ok r
    /\ (p | r) /\ res <= r
    /\ (forall m, (p | m) -> res <= m -> r <= m)
    /\ pad_resolution 1279 4 = Ok 1280.
Proof.
  intros Hres Hp. unfold pad_resolution.
  destruct (Z.eqb_spec p 0) as [-> | _]; [lia |].
  pose proof (Z.mod_pos_bound res p Hp) as Hb.
  pose proof (Z.div_mod res p ltac:(lia)) as Hdm.
  destruct (Z.eqb_spec (res mod p) 0) as [Hz | Hnz].
  - exists res. repeat split; try reflexivity; try lia.
    apply Z.mod_divide; [lia | exact Hz].
  - exists (res + p - res mod p). repeat split; try reflexivity; try lia.
    + exists (res / p + 1). lia.
    + intros m [k ->] Hle.
      assert (res / p < k) by nia. nia.
Qed.

Lemma pad_resolution_least_multiple_witness :
  exists r,
    pad_resolution 1279 4 = Ok r
    /\ (4 | r) /\ 1279 <= r
    /\ (forall m, (4 | m) -> 1279 <= m -> r <= m)
    /\ pad_resolution 1279 4 = Ok 1280.
Proof.
  apply (pad_resolution_least_multiple 1279 4); lia.
Defined.

(** ** C1: the order of the mapping directives *)

(** C1 (evaluation of the code).  The mapping loop walks
    [STREAM_TYPES_SHORT], which lists attachment before data: for a file
    with one data stream and one attachment and no option set, the
    attachment is mapped first, against the order video, audio, subtitle,
    data, attachment that the help text promises. *)
Theorem attachment_mapped_before_data :
  main (world_of [("in.mkv", data_and_attachment)]) (default_args "in.mkv" "out.mkv")
  = Processed
      (Finished 0
         [Ran "in.mkv" "out.mkv"
            ["ffmpeg"; "-i"; "in.mkv"; "-copy_unknown"; "-map"; "0:t?"; "-c:t:0";
             "-map"; "0:d?"; "-c:d:0"; "-map_chapters"; "-1"; "-map_metadata"; "-1";
             "out.mkv"] 0])
  /\ directives ["ffmpeg"; "-i"; "in.mkv"; "-copy_unknown"; "-map"; "0:t?"; "-c:t:0";
                 "-map"; "0:d?"; "-c:d:0"; "-map_chapters"; "-1"; "-map_metadata"; "-1";
                 "out.mkv"] = ["0:t?"; "0:d?"].
Proof.
  split; vm_compute; reflexivity.
Qed.

(** ** C4: convert-only *)

(** C4 (evaluation of the code).  With [-codec v h264 -convertonly v] the
    encoder arguments of the video streams are never built:
    [video_codec_to_encoder] reads [args.vbitrate], an attribute the parser
    does not define, so mapping the video streams raises and the file is
    counted as a failure instead of one stream being copied and the other
    re-encoded. *)
Theorem convert_only_video_raises :
  stream_map (world_of [("in.mkv", two_videos)]) true convert_only_h264 "v" 2 0 "in.mkv"
  = Raise (AttributeError "vbitrate")
  /\ main (world_of [("in.mkv", two_videos)]) convert_only_h264
     = Processed (Finished 1 [BuildError "in.mkv" (AttributeError "vbitrate")]).
Proof.
  split; vm_compute; reflexivity.
Qed.

(** The audio path shows what was meant: with [-codec a mp3 -convertonly a]
    the stream that is already mp3 is copied and the other is encoded. *)
Example convert_only_audio_copies_matching :
  stream_map (world_of [("in.mkv", two_audios)]) true convert_only_mp3 "a" 2 0 "in.mkv"
  = Ok ["-map"; "0:a?"; "-c:a:0"; "copy"; "-c:a:1"; "libmp3lame"].
Proof.
  vm_compute. reflexivity.
Qed.

(** No encoder argument list is ever built for a requested video codec. *)
Lemma video_encoder_never_built (c : string) (args : Args) :
  exists e, video_codec_to_encoder (Some c) args = Raise e.
Proof.
  unfold video_codec_to_encoder.
  destruct (negb (in_list c VIDEO_CODECS)); eexists; reflexivity.
Qed.

(** ** C8: the suffix *)

(** Whatever the options, the suffix only lists the stream types that are
    not copied: the codec branch of [suffix_str] is never entered. *)
Lemma suffix_lists_excluded_types_only (args : Args) (width height : Z) :
  suffix_str args width height
  = Ok (excluded_fragment args "v" "video" ++ excluded_fragment args "a" "audio"
        ++ excluded_fragment args "s" "subtitle" ++ excluded_fragment args "t" "attachment"
        ++ excluded_fragment args "d" "data")%string.
Proof.
  unfold suffix_str, excluded_fragment. cbn [for_each STREAM_TYPES_SHORT].
  rewrite !stream_type_bool_pairs.
  destruct (stream_type_bool (nocopy args) "v"), (stream_type_bool (nocopy args) "a"),
    (stream_type_bool (nocopy args) "s"), (stream_type_bool (nocopy args) "t"),
    (stream_type_bool (nocopy args) "d"); reflexivity.
Qed.


(** C8 (evaluation of the code).  With a video codec requested, a crop
    anchor set and resolved dimensions 1280x720, [suffix_str] returns the
    empty string: the test [stream_type in args.codec] compares a type code
    with the [[type, codec]] entries and never holds, so no codec, WxH or
    crop fragment is produced. *)
Theorem suffix_without_fragments :
  suffix_str cropped_with_suffix 1280 720 = Ok "".
Proof.
  vm_compute. reflexivity.
Qed.

(** ** C7: the validator *)

Lemma enumeration_pairs {V : Type} (o : option (list (string * V))) :
  arg_stream_type_enumeration (pair_keys o) = Ok (keys_of o).
Proof.
  destruct o as [[| p l] |]; reflexivity.
Qed.

Lemma stream_type_arg_none_keys {V : Type} (o : option (list (string * V))) (t : string) :
  stream_type_arg o t = None -> in_list t (keys_of o) = false.
Proof.
  destruct o as [l |]; [apply first_match_none_keys | reflexivity].
Qed.

Lemma stream_type_arg_some_keys {V : Type} (o : option (list (string * V)))
  (t : string) (v : V) :
  stream_type_arg o t = Some v -> In t (keys_of o).
Proof.
  destruct o as [l |]; [apply first_match_some_keys | discriminate].
Qed.

(** The first rule of the validator: a bitrate for a stream type that has
    neither a codec nor an added codec is rejected. *)
Lemma bitrate_rule_rejects (args : Args) (t rate : string) :
  stream_type_arg (bitrate args) t = Some rate ->
  stream_type_arg (codec args) t = None ->
  stream_type_arg (addcodec args) t = None ->
  exists e, check_arg_stream_dependencies args ["bitrate"] ["codec"; "addcodec"] = Raise e.
Proof.
  intros Hb Hc Ha.
  unfold check_arg_stream_dependencies.
  cbn [for_each]. apply bind_raise.
  unfold enumeration_of at 1. cbn [getattr String.eqb Ascii.eqb Bool.eqb bind].
  rewrite enumeration_pairs.
  apply for_each_raises with (x := t).
  - eapply stream_type_arg_some_keys. exact Hb.
  - intros []. cbn [any_r].
    unfold enumeration_of. cbn [getattr String.eqb Ascii.eqb Bool.eqb bind].
    rewrite !enumeration_pairs. cbn [bind].
    rewrite (stream_type_arg_none_keys _ _ Hc). cbn [bind].
    rewrite (stream_type_arg_none_keys _ _ Ha). cbn [bind].
    eexists. reflexivity.
Qed.

Lemma check_valid_arguments_bitrate (args : Args) (t rate : string) :
  stream_type_arg (bitrate args) t = Some rate ->
  stream_type_arg (codec args) t = None ->
  stream_type_arg (addcodec args) t = None ->
  exists e, check_valid_arguments args = Raise e.
Proof.
  intros Hb Hc Ha.
  unfold check_valid_arguments. apply bind_raise.
  eapply bitrate_rule_rejects; eassumption.
Qed.

(** C7. For every option set in which a bitrate is set for a stream type
    [t] while neither codec nor addcodec is set for [t], validation raises,
    and [main] returns a non-zero code without handing any file to the
    batch loop. *)
Theorem bitrate_without_codec_rejected {PF : PyFloat} (env : Env) (args : Args)
  (t rate : string) :
  stream_type_arg (bitrate args) t = Some rate ->
  stream_type_arg (codec args) t = None ->
  stream_type_arg (addcodec args) t = None ->
  (exists e, check_valid_arguments args = Raise e)
  /\ (exists code, main env args = Returned code /\ code <> 0).
Proof.
  intros Hb Hc Ha. split.
  - eapply check_valid_arguments_bitrate; eassumption.
  - unfold main.
    destruct (if isfile env (input args) then [input args]
              else if sequence args && char_in "%" (input args) then [input args]
              else glob env (input args)) as [| f fs].
    + exists ENOENT. split; [reflexivity | discriminate].
    + destruct (_ && negb (isdir env (output args))).
      * exists EFAULT. split; [reflexivity | discriminate].
      * destruct (truthy_ostr (addattach args) && _).
        -- exists ENOENT. split; [reflexivity | discriminate].
        -- match goal with
           | |- context [check_valid_arguments ?a] =>
               destruct (check_valid_arguments_bitrate a t rate) as [e He]
           end.
           ++ destruct (setaffinity args && _); exact Hb.
           ++ destruct (setaffinity args && _); exact Hc.
           ++ destruct (setaffinity args && _); exact Ha.
           ++ rewrite He. exists EINVAL. split; [reflexivity | discriminate].
Qed.

Lemma bitrate_without_codec_rejected_witness :
  (exists e, check_valid_arguments bitrate_only = Raise e)
  /\ (exists code,
        main (world_of [("in.mkv", video_and_audio)]) bitrate_only = Returned code
        /\ code <> 0).
Proof.
  apply (bitrate_without_codec_rejected (world_of [("in.mkv", video_and_audio)])
           bitrate_only "a" "128k"); reflexivity.
Defined.

(** ** C5: a requested dimension equal to the input's *)

(** C5. Whenever the input dimensions are probed (both non-zero, with an
    aspect ratio) and the requested output width equals the input width or
    the requested output height equals the input height, the resolver adds
    no scale or crop filter (the filter list holds only the colour and
    deshake filters of the other options) and both resolved output
    dimensions are 0. *)
Theorem same_dimension_is_noop {PF : PyFloat} (env : Env) (args : Args)
  (output_width output_height : Z) (input_file : string)
  (input_width input_height : Z) (input_ar : float) :
  probe_dimensions env args (if sequence args then printf_filename input_file else input_file)
    = Ok (input_height, input_width) ->
  input_aspect_ratio env args
    (if sequence args then printf_filename input_file else input_file)
    input_width input_height = Ok input_ar ->
  input_width <> 0 -> input_height <> 0 ->
  input_width = output_width \/ input_height = output_height ->
  video_filters_from_args env args output_width output_height input_file
  = Ok (colour_and_deshake args, 0, 0).
Proof.
  intros Hdim Har Hw Hh Hsame.
  unfold video_filters_from_args, colour_and_deshake.
  assert (Hreq : negb (output_width =? 0) || negb (output_height =? 0) = true).
  { destruct Hsame as [<- | <-].
    - apply (proj2 (Z.eqb_neq _ _)) in Hw. rewrite Hw. reflexivity.
    - apply (proj2 (Z.eqb_neq _ _)) in Hh. rewrite Hh. apply orb_true_r. }
  rewrite Hreq, Hdim. cbn [bind]. rewrite Har. cbn [bind].
  assert (Hzero : (input_width =? 0) || (input_height =? 0) = false).
  { apply (proj2 (Z.eqb_neq _ _)) in Hw, Hh. rewrite Hw, Hh. reflexivity. }
  assert (Heq : (input_width =? output_width) || (input_height =? output_height) = true).
  { destruct Hsame as [<- | <-]; rewrite Z.eqb_refl; [reflexivity | apply orb_true_r]. }
  rewrite Hzero, Heq. cbn [bind].
  destruct (sdr args), (deshake args); reflexivity.
Qed.

Lemma same_dimension_is_noop_witness :
  video_filters_from_args (world_of [("in.mkv", two_videos)]) height_1080 0 1080 "in.mkv"
  = Ok (colour_and_deshake height_1080, 0, 0).
Proof.
  apply (same_dimension_is_noop (PF := exact_float)
           (world_of [("in.mkv", two_videos)]) height_1080
           0 1080 "in.mkv" 1920 1080 (Qmake 16 9)).
  - reflexivity.
  - reflexivity.
  - discriminate.
  - discriminate.
  - right. reflexivity.
Defined.

(** ** C3: a stream index beyond the probed count *)

Lemma stream_count_map (env : Env) (args : Args) (input_file listing : string) :
  probe_stream_types env (ffprobebin args) input_file = Ok listing ->
  get_stream_count_map_from_input env args input_file
  = Ok [("v", py_count listing "codec_type=video");
        ("a", py_count listing "codec_type=audio");
        ("s", py_count listing "codec_type=subtitle");
        ("t", py_count listing "codec_type=attachment");
        ("d", py_count listing "codec_type=data")].
Proof.
  intro H. unfold get_stream_count_map_from_input. rewrite H. reflexivity.
Qed.

Lemma stream_count_map_raises (env : Env) (args : Args) (input_file : string) (e : exn) :
  probe_stream_types env (ffprobebin args) input_file = Raise e ->
  get_stream_count_map_from_input env args input_file = Raise e.
Proof.
  intro H. unfold get_stream_count_map_from_input. rewrite H. reflexivity.
Qed.

Lemma stream_count_map_probed (env : Env) (args : Args) (input_file : string)
  (counts : list (string * Z)) :
  get_stream_count_map_from_input env args input_file = Ok counts ->
  exists listing,
    probe_stream_types env (ffprobebin args) input_file = Ok listing
    /\ counts = [("v", py_count listing "codec_type=video");
                 ("a", py_count listing "codec_type=audio");
                 ("s", py_count listing "codec_type=subtitle");
                 ("t", py_count listing "codec_type=attachment");
                 ("d", py_count listing "codec_type=data")].
Proof.
  intro H.
  destruct (probe_stream_types env (ffprobebin args) input_file) as [listing | e] eqn:Hp.
  - exists listing. rewrite (stream_count_map _ _ _ _ Hp) in H. injection H as <-.
    split; reflexivity.
  - rewrite (stream_count_map_raises _ _ _ _ Hp) in H. discriminate H.
Qed.

Lemma counted_types (v a s t' d : Z) (t : string) (c : Z) :
  dict_get [("v", v); ("a", a); ("s", s); ("t", t'); ("d", d)] t = Ok c ->
  In t STREAM_TYPES_SHORT.
Proof.
  unfold dict_get. cbn [find fst snd].
  repeat match goal with
  | |- context [String.eqb ?k t] =>
      destruct (String.eqb_spec k t) as [<- | _]; [intros _; cbn; tauto |]
  end.
  discriminate.
Qed.

Lemma dict_types (t long : string) :
  dict_get STREAM_TYPES_DICT t = Ok long -> In t STREAM_TYPES_SHORT.
Proof.
  unfold dict_get. cbn [find fst snd STREAM_TYPES_DICT combine STREAM_TYPES_SHORT STREAM_TYPES_LONG].
  repeat match goal with
  | |- context [String.eqb ?k t] =>
      destruct (String.eqb_spec k t) as [<- | _]; [intros _; cbn; tauto |]
  end.
  discriminate.
Qed.

Section SkippedFile.
Context {PF : PyFloat}.
Variables (env : Env) (args : Args).

Lemma primary_stream_count_raises (counts : list (string * Z)) (t : string) (n c : Z) :
  stream_type_bool (nocopy args) t = false ->
  stream_type_arg (singlestream args) t = Some n ->
  dict_get counts t = Ok c ->
  n + 1 > c ->
  exists e, primary_stream_count args counts t = Raise e.
Proof.
  intros Hnc Hs Hc Hgt. unfold primary_stream_count.
  rewrite Hnc, Hc, Hs. cbn [negb bind].
  destruct (Z.gtb_spec (n + 1) c); [| lia].
  eexists. reflexivity.
Qed.

Lemma added_stream_count_raises (t : string) (n : Z) :
  added_out_of_range env args t n ->
  exists e, added_stream_count env args t = Raise e.
Proof.
  intros (add_file & long & Hf & Ht & Hl & Hs & count & Hcount & Hgt).
  unfold added_stream_count.
  rewrite Hf, Ht, Hl. cbn [bind]. rewrite Hcount. cbn [bind]. rewrite Hs.
  destruct (Z.gtb_spec (n + 1) count); [| lia].
  eexists. reflexivity.
Qed.

Lemma stream_type_maps_raises (input_file t : string) (n : Z)
  (counts : list (string * Z)) :
  get_stream_count_map_from_input env args input_file = Ok counts ->
  primary_out_of_range env args input_file t n \/ added_out_of_range env args t n ->
  In t STREAM_TYPES_SHORT
  /\ exists e, stream_type_maps env args input_file counts t = Raise e.
Proof.
  intros Hprobed H.
  destruct H as [(Hnc & Hs & counts' & c & Hcounts & Hc & Hgt) | Hadd].
  - rewrite Hprobed in Hcounts. injection Hcounts as <-.
    apply stream_count_map_probed in Hprobed. destruct Hprobed as (listing & _ & ->).
    split; [eapply counted_types; exact Hc |].
    unfold stream_type_maps.
    destruct (added_stream_count env args t) as [na | e]; [| exists e; reflexivity].
    cbn [bind]. apply bind_raise.
    eapply primary_stream_count_raises; eassumption.
  - split.
    + destruct Hadd as (add_file & long & _ & _ & Hl & _). eapply dict_types. exact Hl.
    + unfold stream_type_maps. apply bind_raise.
      eapply added_stream_count_raises. exact Hadd.
Qed.

Lemma stream_maps_raises (input_file : string) (counts : list (string * Z)) (t : string)
  (cmdline : list string) :
  In t STREAM_TYPES_SHORT ->
  (exists e, stream_type_maps env args input_file counts t = Raise e) ->
  exists e, stream_maps env args input_file counts cmdline = Raise e.
Proof.
  intros Hin Hraise. unfold stream_maps.
  apply for_each_raises with (x := t); [exact Hin |].
  intros s. apply bind_raise. exact Hraise.
Qed.

Lemma build_cmdline_raises (input_file input_filename output_extension : string)
  (output_width output_height : Z) (counts : list (string * Z)) (t : string) :
  In t STREAM_TYPES_SHORT ->
  (exists e, stream_type_maps env args input_file counts t = Raise e) ->
  exists e, build_cmdline env args input_file input_filename output_extension
              output_width output_height counts = Raise e.
Proof.
  intros Hin Hraise. unfold build_cmdline.
  destruct (secondary_inputs args _) as [cmdline | e]; [| exists e; reflexivity].
  cbn [bind]. apply bind_raise.
  apply stream_maps_raises with (t := t); assumption.
Qed.

(** C3 (amended).  If a single-stream index is requested for a stream type
    and is checked -- for the primary input when no-copy is not set for
    that type, for the added input when an added file is given for that
    type -- and the index plus one exceeds the probed stream count, then
    no command is built for that input file, the error counter grows by
    exactly one for it, and the loop goes on with the remaining files.
    The stream counts of the input file are taken as probed: an ffprobe
    that cannot be started ends the loop before anything is compiled. *)
Theorem out_of_range_index_skips_one_file (input_file : string) (rest : list string)
  (err_count : Z) (jobs : list job) (t : string) (n : Z) :
  (exists counts, get_stream_count_map_from_input env args input_file = Ok counts) ->
  primary_out_of_range env args input_file t n \/ added_out_of_range env args t n ->
  exists j,
    (j = NoExtension input_file \/ exists e, j = BuildError input_file e)
    /\ process_loop env args (input_file :: rest) err_count jobs
       = process_loop env args rest (err_count + 1) (jobs ++ [j]).
Proof.
  intros [counts Hcounts] H. cbn [process_loop].
  destruct (char_in "." (path_tail input_file)); cbn [negb].
  - destruct (stream_type_maps_raises input_file t n counts Hcounts H) as (Hin & Hraise).
    destruct (get_dimensions_from_args args) as [w h].
    rewrite Hcounts.
    destruct (build_cmdline_raises input_file (path_tail input_file)
                (get_container_extension args input_file) w h counts t Hin Hraise)
      as [e He].
    rewrite He. exists (BuildError input_file e). split; [right; exists e |]; reflexivity.
  - exists (NoExtension input_file). split; [left |]; reflexivity.
Qed.

End SkippedFile.

Lemma out_of_range_index_skips_one_file_witness :
  exists j,
    (j = NoExtension "in.mkv" \/ exists e, j = BuildError "in.mkv" e)
    /\ process_loop (world_of [("in.mkv", video_and_audio)]) single_audio
         ["in.mkv"; "in.mkv"] 0 []
       = process_loop (world_of [("in.mkv", video_and_audio)]) single_audio
           ["in.mkv"] (0 + 1) ([] ++ [j]).
Proof.
  apply (out_of_range_index_skips_one_file (PF := exact_float)
           (world_of [("in.mkv", video_and_audio)]) single_audio
           "in.mkv" ["in.mkv"] 0 [] "a" 5).
  - eexists. vm_compute. reflexivity.
  - left. split; [reflexivity | split; [reflexivity |]].
    eexists. exists 1. split; [vm_compute; reflexivity |].
    split; [vm_compute; reflexivity | lia].
Defined.

(** C3 as stated fails: with [-nocopy a -singlestream a 5] on a file with one
    audio stream the index is beyond the count, yet the command is built and
    run and no error is counted. *)
Lemma unchecked_index_when_not_copied :
  stream_type_arg (singlestream single_audio_not_copied) "a" = Some 5
  /\ probe_stream_count (world_of [("in.mkv", video_and_audio)])
       (ffprobebin single_audio_not_copied) "in.mkv" "audio" = Ok 1
  /\ process_input (world_of [("in.mkv", video_and_audio)]) single_audio_not_copied
       ["in.mkv"]
     = Finished 0
         [Ran "in.mkv" "out.mkv"
            ["ffmpeg"; "-i"; "in.mkv"; "-copy_unknown"; "-map"; "0:v?"; "-c:v:0";
             "copy"; "-map_chapters"; "-1"; "-map_metadata"; "-1"; "out.mkv"] 0].
Proof.
  repeat split; vm_compute; reflexivity.
Qed.

(** ** C9: the compiler depends on the world only through the probed facts *)

Section Determinism.
Context {PF : PyFloat}.
Variables (env1 env2 : Env) (args : Args).
Hypothesis same_probe : forall cmd, ffprobe_stdout env1 cmd = ffprobe_stdout env2 cmd.
Hypothesis same_isdir : isdir env1 (output args) = isdir env2 (output args).

Lemma probe_string_same (bin file : string) (probe_args : list string) :
  probe_string env1 bin file probe_args = probe_string env2 bin file probe_args.
Proof. apply same_probe. Qed.

Lemma probe_media_property_same (bin file property : string) (n : Z) (spec : string) :
  probe_media_property env1 bin file property n spec
  = probe_media_property env2 bin file property n spec.
Proof. apply probe_string_same. Qed.

Lemma probe_stream_count_same (bin file stream_type : string) :
  probe_stream_count env1 bin file stream_type = probe_stream_count env2 bin file stream_type.
Proof.
  unfold probe_stream_count, probe_stream_types. rewrite probe_string_same. reflexivity.
Qed.

Lemma stream_count_map_same (input_file : string) :
  get_stream_count_map_from_input env1 args input_file
  = get_stream_count_map_from_input env2 args input_file.
Proof.
  unfold get_stream_count_map_from_input, probe_stream_types.
  rewrite probe_string_same. reflexivity.
Qed.

Lemma stream_map_same (primary : bool) (t : string) (n first : Z) (file : string) :
  stream_map env1 primary args t n first file = stream_map env2 primary args t n first file.
Proof.
  unfold stream_map.
  destruct (stream_codec_to_encoder t _ args) as [encoder_args | e]; [| reflexivity].
  cbn [bind].
  destruct (primary && negb (Nat.eqb (Datatypes.length encoder_args) 0)
            && stream_type_bool (convertonly args) t); [| reflexivity].
  match goal with
  | |- bind (map_r ?f ?l) _ = bind (map_r ?g ?l) _ =>
      replace (map_r f l) with (map_r g l); [reflexivity |]
  end.
  apply map_r_ext. intros k. rewrite probe_media_property_same. reflexivity.
Qed.

Lemma probe_dimensions_same (path : string) :
  probe_dimensions env1 args path = probe_dimensions env2 args path.
Proof.
  unfold probe_dimensions, probe_int. rewrite !probe_media_property_same. reflexivity.
Qed.

Lemma input_aspect_ratio_same (path : string) (w h : Z) :
  input_aspect_ratio env1 args path w h = input_aspect_ratio env2 args path w h.
Proof.
  unfold input_aspect_ratio, probe_aspect_ratio.
  rewrite !probe_media_property_same. reflexivity.
Qed.

Lemma video_filters_same (w h : Z) (file : string) :
  video_filters_from_args env1 args w h file = video_filters_from_args env2 args w h file.
Proof.
  unfold video_filters_from_args.
  destruct (negb (w =? 0) || negb (h =? 0)); [| reflexivity].
  rewrite probe_dimensions_same.
  destruct (probe_dimensions env2 args _) as [[ih iw] | e]; [| reflexivity].
  cbn [bind]. rewrite input_aspect_ratio_same. reflexivity.
Qed.

Lemma added_stream_count_same (t : string) :
  added_stream_count env1 args t = added_stream_count env2 args t.
Proof.
  unfold added_stream_count.
  destruct (stream_type_arg (addfile args) t) as [add_file |]; [| reflexivity].
  destruct (truthy_str add_file); [| reflexivity].
  destruct (dict_get STREAM_TYPES_DICT t) as [long | e]; [| reflexivity].
  cbn [bind]. rewrite probe_stream_count_same. reflexivity.
Qed.

Lemma stream_type_maps_same (file : string) (counts : list (string * Z)) (t : string) :
  stream_type_maps env1 args file counts t = stream_type_maps env2 args file counts t.
Proof.
  unfold stream_type_maps. rewrite added_stream_count_same.
  destruct (added_stream_count env2 args t) as [na | e]; [| reflexivity].
  cbn [bind].
  destruct (primary_stream_count args counts t) as [np | e]; [| reflexivity].
  cbn [bind]. rewrite !stream_map_same. reflexivity.
Qed.

Lemma stream_maps_same (file : string) (counts : list (string * Z)) (cmdline : list string) :
  stream_maps env1 args file counts cmdline = stream_maps env2 args file counts cmdline.
Proof.
  unfold stream_maps. apply for_each_ext.
  intros s t _. rewrite stream_type_maps_same. reflexivity.
Qed.

Lemma output_path_same (filename extension : string) :
  output_path env1 args filename extension = output_path env2 args filename extension.
Proof.
  unfold output_path. rewrite same_isdir. reflexivity.
Qed.

Lemma build_cmdline_same (file filename extension : string) (w h : Z)
  (counts : list (string * Z)) :
  build_cmdline env1 args file filename extension w h counts
  = build_cmdline env2 args file filename extension w h counts.
Proof.
  unfold build_cmdline.
  destruct (secondary_inputs args _) as [cmdline | e]; [| reflexivity].
  cbn [bind]. rewrite stream_maps_same.
  destruct (stream_maps env2 args file counts _) as [cmdline' | e]; [| reflexivity].
  cbn [bind]. rewrite video_filters_same, output_path_same. reflexivity.
Qed.

Lemma process_loop_same_dry (files : list string) :
  dryrun args = true ->
  forall (err_count : Z) (jobs : list job),
    process_loop env1 args files err_count jobs = process_loop env2 args files err_count jobs.
Proof.
  intros Hdry. induction files as [| f files IH]; intros err_count jobs; [reflexivity |].
  cbn [process_loop].
  destruct (negb (char_in "." (path_tail f))); [apply IH |].
  destruct (get_dimensions_from_args args) as [w h].
  rewrite stream_count_map_same.
  destruct (get_stream_count_map_from_input env2 args f) as [counts | e]; [| reflexivity].
  rewrite build_cmdline_same.
  destruct (build_cmdline env2 args f _ _ w h counts) as [[cmdline out sfx | e] | e];
    try apply IH.
  rewrite Hdry. apply IH.
Qed.

(** C9. Two compilations of the same option set for the same input file
    in worlds that give the same probed facts (the same ffprobe answers,
    the same answer on whether the output path is a directory) yield the
    same stream counts and the same result: the same command tokens, the
    same output file name and the same suffix, or the same error.  A dry
    run of a whole batch therefore records the same commands. *)
Theorem compile_is_deterministic (input_file input_filename output_extension : string)
  (output_width output_height : Z) (input_streams_counts : list (string * Z))
  (input_files : list string) :
  get_stream_count_map_from_input env1 args input_file
  = get_stream_count_map_from_input env2 args input_file
  /\ build_cmdline env1 args input_file input_filename output_extension
       output_width output_height input_streams_counts
     = build_cmdline env2 args input_file input_filename output_extension
         output_width output_height input_streams_counts
  /\ (dryrun args = true ->
      process_input env1 args input_files = process_input env2 args input_files).
Proof.
  split; [apply stream_count_map_same |].
  split; [apply build_cmdline_same |].
  intros Hdry. apply process_loop_same_dry. exact Hdry.
Qed.

End Determinism.

Lemma compile_is_deterministic_witness :
  get_stream_count_map_from_input (world_of [("in.mkv", video_and_audio)])
      keep_chapters "in.mkv"
  = get_stream_count_map_from_input (failing_world_of [("in.mkv", video_and_audio)])
      keep_chapters "in.mkv"
  /\ build_cmdline (world_of [("in.mkv", video_and_audio)]) keep_chapters
       "in.mkv" "in.mkv" ".mkv" 0 0 [("v", 1); ("a", 1); ("s", 0); ("t", 0); ("d", 0)]
     = build_cmdline (failing_world_of [("in.mkv", video_and_audio)]) keep_chapters
         "in.mkv" "in.mkv" ".mkv" 0 0 [("v", 1); ("a", 1); ("s", 0); ("t", 0); ("d", 0)]
  /\ (dryrun keep_chapters = true ->
      process_input (world_of [("in.mkv", video_and_audio)]) keep_chapters ["in.mkv"]
      = process_input (failing_world_of [("in.mkv", video_and_audio)]) keep_chapters
          ["in.mkv"]).
Proof.
  apply (compile_is_deterministic (PF := exact_float)
           (world_of [("in.mkv", video_and_audio)])
           (failing_world_of [("in.mkv", video_and_audio)]) keep_chapters).
  - intros cmd. reflexivity.
  - reflexivity.
Defined.

(** ** The shape of a stream map *)

Lemma for_each_invariant {A S : Type} (P : S -> Prop) (body : S -> A -> result S)
  (xs : list A) :
  (forall s x s', In x xs -> P s -> body s x = Ok s' -> P s') ->
  forall s s', P s -> for_each xs body s = Ok s' -> P s'.
Proof.
  induction xs as [| x xs IH]; intros Hstep s s' Hs Hrun.
  - injection Hrun as <-. exact Hs.
  - cbn [for_each] in Hrun. apply bind_ok in Hrun. destruct Hrun as (s1 & Hx & Hrest).
    apply (IH (fun s0 y s0' Hin => Hstep s0 y s0' (or_intror Hin)) s1 s').
    + apply (Hstep s x s1); [left; reflexivity | exact Hs | exact Hx].
    + exact Hrest.
Qed.

Lemma list_index_in {A : Type} (l : list A) (n : Z) (a : A) :
  list_index l n = Ok a -> In a l.
Proof.
  unfold list_index. destruct (n <? 0).
  - destruct (nth_error l _) eqn:E; [| discriminate].
    destruct (0 <=? _); [| discriminate].
    intro H. injection H as <-. eapply nth_error_In. exact E.
  - destruct (nth_error l _) eqn:E; [| discriminate].
    intro H. injection H as <-. eapply nth_error_In. exact E.
Qed.

Lemma video_encoder_tokens (codec : option string) (args : Args) (enc : list string) :
  video_codec_to_encoder codec args = Ok enc -> forallb mapping_argument enc = true.
Proof.
  unfold video_codec_to_encoder. destruct codec as [c |].
  - destruct (negb (in_list c VIDEO_CODECS)); discriminate.
  - intro H. injection H as <-. reflexivity.
Qed.

Lemma audio_encoder_tokens (codec : option string) (args : Args) (enc : list string) :
  audio_codec_to_encoder codec args = Ok enc -> forallb mapping_argument enc = true.
Proof.
  unfold audio_codec_to_encoder. destruct codec as [c |].
  - destruct (in_list c AUDIO_CODECS) eqn:Hin; cbn [negb]; [| discriminate].
    assert (Hc : mapping_argument c = true).
    { unfold mapping_argument. rewrite Hin. rewrite orb_true_r. reflexivity. }
    cbv zeta.
    destruct (String.eqb "opus" c), (String.eqb "dts" c), (String.eqb "mp3" c),
      (String.eqb "wav" c), (stereo args), (mono args);
      intro H; injection H as <-; cbn [forallb app]; rewrite ?Hc; reflexivity.
  - intro H. injection H as <-. reflexivity.
Qed.

Lemma subtitle_encoder_tokens (codec : option string) (args : Args) (enc : list string) :
  subtitle_codec_to_encoder codec args = Ok enc -> forallb mapping_argument enc = true.
Proof.
  unfold subtitle_codec_to_encoder. destruct codec as [c |].
  - destruct (in_list c SUBTITLE_CODECS) eqn:Hin; cbn [negb]; [| discriminate].
    assert (Hc : mapping_argument c = true).
    { unfold mapping_argument. rewrite Hin. rewrite !orb_true_r. reflexivity. }
    destruct (String.eqb "sub" c); intro H; injection H as <-;
      cbn [forallb]; rewrite ?Hc; reflexivity.
  - intro H. injection H as <-. reflexivity.
Qed.

Lemma stream_encoder_tokens (t : string) (codec : option string) (args : Args)
  (enc : list string) :
  stream_codec_to_encoder t codec args = Ok enc -> forallb mapping_argument enc = true.
Proof.
  unfold stream_codec_to_encoder. rewrite stream_type_bool_pairs.
  intro H. apply bind_ok in H. destruct H as (cmdline & Henc & H).
  injection H as <-.
  destruct (String.eqb "v" t); [eapply video_encoder_tokens; exact Henc |].
  destruct (String.eqb "a" t); [eapply audio_encoder_tokens; exact Henc |].
  destruct (String.eqb "s" t); [eapply subtitle_encoder_tokens; exact Henc |].
  injection Henc as <-. reflexivity.
Qed.

Lemma codec_option_token (x : string) : mapping_argument ("-c:" ++ x)%string = true.
Proof. reflexivity. Qed.

Lemma disposition_token (x : string) : mapping_argument ("-disposition:" ++ x)%string = true.
Proof. reflexivity. Qed.

Lemma metadata_option_token (x : string) :
  mapping_argument ("-metadata:s:" ++ x)%string = true.
Proof. reflexivity. Qed.

Lemma language_token (x : string) : mapping_argument ("language=" ++ x)%string = true.
Proof. reflexivity. Qed.

Lemma drop_form_token (t : string) : mapping_argument (drop_form t) = true.
Proof. reflexivity. Qed.

Lemma select_form_token (args : Args) (t : string) :
  mapping_argument (select_form args t) = true.
Proof.
  unfold select_form. destruct (stream_type_arg (singlestream args) t); reflexivity.
Qed.

Lemma stream_map_args_shape (spec : string) (none : bool) (stream_num : option Z)
  (first count : Z) (codec_args : list (list string)) (metadata : option string)
  (default_stream : option bool) (toks : list string) :
  (forall ca, In ca codec_args -> forallb mapping_argument ca = true) ->
  (forall m, metadata = Some m -> mapping_argument m = true) ->
  stream_map_args spec 0 none stream_num first count codec_args metadata default_stream
  = Ok toks ->
  exists rest,
    toks = "-map"
           :: (if none then drop_form spec
               else match stream_num with
                    | Some n => ("0:" ++ spec ++ ":" ++ str_of_Z n)%string
                    | None => ("0:" ++ spec ++ "?")%string
                    end)
           :: rest
    /\ forallb mapping_argument rest = true.
Proof.
  intros Hcodec Hmeta. unfold stream_map_args.
  destruct none.
  - intro H. injection H as <-. exists []. split; reflexivity.
  - set (d := match stream_num with
              | Some n => ("0:" ++ spec ++ ":" ++ str_of_Z n)%string
              | None => ("0:" ++ spec ++ "?")%string
              end).
    replace (match stream_num with
             | Some n => ["-map"] ++ [(str_of_Z 0 ++ ":" ++ spec ++ ":" ++ str_of_Z n)%string]
             | None => ["-map"] ++ [(str_of_Z 0 ++ ":" ++ spec ++ "?")%string]
             end) with ["-map"; d] by (destruct stream_num; reflexivity).
    destruct codec_args as [| ca0 cas] eqn:Hcas.
    + intro H. injection H as <-. exists []. split; reflexivity.
    + rewrite <- Hcas in *. clear Hcas ca0 cas.
      intro H. apply bind_ok in H. destruct H as (r & Hloop & H). injection H as <-.
      revert Hloop.
      apply (for_each_invariant
               (fun st : list string * option bool =>
                  exists rest, fst st = "-map" :: d :: rest
                               /\ forallb mapping_argument rest = true)).
      * intros [cl ds] n [cl' ds'] _ (rest & Hcl & Hrest) Hbody.
        cbn [fst] in Hcl. subst cl.
        apply bind_ok in Hbody. destruct Hbody as (ca & Hidx & Hbody).
        apply list_index_in, Hcodec in Hidx.
        destruct ds as [[|] |], metadata as [m |];
          try (pose proof (Hmeta m eq_refl) as Hm; destruct (truthy_str m));
          injection Hbody as <- <-; cbn [fst];
          eexists; (split; [rewrite <- ?app_assoc; cbn [app]; reflexivity |]);
          repeat first [rewrite forallb_app | progress cbn [forallb]];
          rewrite ?Hrest, ?Hidx, ?Hm; reflexivity.
      * exists []. split; reflexivity.
Qed.

(** The encoder list of [stream_map], when the codec probes of a
    convert-only group all return: one entry per stream, each [copy] or the
    encoder arguments of the group. *)
Lemma encoder_list_spec (convert : bool) (probe : Z -> result string)
  (encoder : option string) (encoder_args : list string) (first n : Z)
  (encoder_list : list (list string)) :
  (if convert
   then map_r (fun k =>
                 input_audio_codec <- probe k ;;
                 Ok match encoder with
                    | Some e =>
                        if (input_audio_codec =? e)%string then ["copy"] else encoder_args
                    | None => encoder_args
                    end)
          (range_from first n)
   else Ok (repeat encoder_args (Z.to_nat n))) = Ok encoder_list ->
  List.length encoder_list = Z.to_nat n
  /\ (forall ca, In ca encoder_list -> ca = ["copy"] \/ ca = encoder_args).
Proof.
  destruct convert.
  - intro H. apply map_r_ok in H. split.
    + rewrite <- (Forall2_length H). unfold range_from, range.
      rewrite !length_map, length_seq. reflexivity.
    + induction H as [| k ca l l' Hk _ IH]; [intros ca [] |].
      intros ca' [<- | Hin]; [| exact (IH ca' Hin)].
      apply bind_ok in Hk. destruct Hk as (c & _ & Hk). injection Hk as <-.
      destruct encoder as [e |]; [| right; reflexivity].
      destruct (String.eqb c e); [left | right]; reflexivity.
  - intro H. injection H as <-. split; [apply repeat_length |].
    intros ca Hca. apply repeat_spec in Hca. right. exact Hca.
Qed.

(** Every stream map is [-map], one directive, and arguments that are not
    [-map] options. *)
Lemma stream_map_shape (env : Env) (primary : bool) (args : Args) (t : string)
  (n first : Z) (file : string) (toks : list string) :
  stream_map env primary args t n first file = Ok toks ->
  exists rest,
    toks = "-map"
           :: (if stream_type_bool (nocopy args) t then drop_form t else select_form args t)
           :: rest
    /\ forallb mapping_argument rest = true.
Proof.
  unfold stream_map. intro H.
  apply bind_ok in H. destruct H as (encoder_args & Henc & H).
  apply stream_encoder_tokens in Henc.
  apply bind_ok in H. destruct H as (encoder_list & Hlist & H).
  apply encoder_list_spec in Hlist. destruct Hlist as [_ Hlist].
  apply stream_map_args_shape in H; [exact H | |].
  - intros ca Hca. destruct (Hlist ca Hca) as [-> | ->]; [reflexivity | exact Henc].
  - intros m.
    destruct (if primary then stream_type_arg (lang args) t
              else stream_type_arg (addlang args) t) as [l |]; [| discriminate].
    destruct (truthy_str l); [| discriminate].
    intro Hm. injection Hm as <-. apply language_token.
Qed.

Lemma directives_skip (l m : list string) :
  forallb mapping_argument l = true -> directives (l ++ m) = directives m.
Proof.
  induction l as [| x l IH]; [reflexivity |].
  cbn [forallb]. intro H. apply andb_prop in H. destruct H as [Hx Hl].
  specialize (IH Hl). cbn [app directives].
  assert (Hne : String.eqb x "-map" = false).
  { destruct (String.eqb_spec x "-map") as [-> | _]; [discriminate Hx | reflexivity]. }
  rewrite Hne.
  destruct (l ++ m) as [| y r] eqn:E; [| exact IH].
  destruct l; [| discriminate E]. cbn [app] in E. subst m. reflexivity.
Qed.

Lemma directives_of_map (d : string) (rest m : list string) :
  forallb mapping_argument (d :: rest) = true ->
  directives (("-map" :: d :: rest) ++ m) = d :: directives m.
Proof.
  intro H. cbn [app directives String.eqb Ascii.eqb Bool.eqb].
  f_equal. apply (directives_skip (d :: rest) m H).
Qed.

Lemma chosen_form_token (args : Args) (t : string) :
  mapping_argument
    (if stream_type_bool (nocopy args) t then drop_form t else select_form args t) = true.
Proof.
  destruct (stream_type_bool (nocopy args) t);
    [apply drop_form_token | apply select_form_token].
Qed.

(** The directives of a group that is mapped when [guard] is not zero. *)
Lemma guarded_map_directives (env : Env) (primary : bool) (args : Args) (t : string)
  (guard n first : Z) (file : string) (toks m : list string) :
  (if negb (guard =? 0) then stream_map env primary args t n first file else Ok [])
  = Ok toks ->
  directives (toks ++ m) = group_directive args t guard ++ directives m.
Proof.
  unfold group_directive. destruct (guard =? 0); cbn [negb].
  - intro H. injection H as <-. reflexivity.
  - intro H. apply stream_map_shape in H. destruct H as (rest & -> & Hrest).
    apply directives_of_map. cbn [forallb]. rewrite chosen_form_token, Hrest. reflexivity.
Qed.

(** ** C2: one directive per mapped group *)




(** ** C10: the chapter and metadata directives *)








Section Directives.
Context {PF : PyFloat}.
Variables (env : Env) (args : Args).



(** No secondary input is ever added: the membership test on [args.addfile]
    never holds. *)
Lemma secondary_inputs_unchanged (cmdline : list string) :
  secondary_inputs args cmdline = Ok cmdline.
Proof.
  unfold secondary_inputs. cbn [for_each STREAM_TYPES_SHORT].
  rewrite !stream_type_bool_pairs. reflexivity.
Qed.

End Directives.

Section Filters.
Context {PF : PyFloat}.




End Filters.



Lemma built_cmdline_eq (c c' : list string) (o o' : string) (s s' : option string) :
  Ok (Built c o s) = Ok (Built c' o' s') -> c = c'.
Proof. intro H. injection H as H _ _. exact H. Qed.

Lemma built_output_eq (c c' : list string) (o o' : string) (s s' : option string) :
  Ok (Built c o s) = Ok (Built c' o' s') -> o = o'.
Proof. intro H. injection H as _ H _. exact H. Qed.



Section StripDirectives.
Context {PF : PyFloat}.
Variables (env : Env) (args : Args).







End StripDirectives.



(** * Further properties *)

(** ** The entry point *)

Lemma check_ignores_affinity (args : Args) :
  check_valid_arguments (clear_setaffinity args) = check_valid_arguments args.
Proof. reflexivity. Qed.

(** X1. [main] hands to the batch loop exactly the input files it found
    (the input path itself when it is a file or the printf pattern of an
    image sequence, else the matches of the wildcard), and only when that
    list is not empty, the output path is a directory if there are several
    files, a given attachment is a file, and validation passed.  When
    validation raises it returns one of the codes ENOENT, EFAULT, EINVAL,
    and with no input file found it returns ENOENT; in both cases no file
    is looked at. *)
Theorem main_guards_the_batch {PF : PyFloat} (env : Env) (args : Args) :
  (forall e, check_valid_arguments args = Raise e ->
     exists code, main env args = Returned code /\ In code [ENOENT; EFAULT; EINVAL])
  /\ (found_input_files env args = [] -> main env args = Returned ENOENT)
  /\ (forall b, main env args = Processed b ->
        b = process_input env (affinity_checked env args) (found_input_files env args)
        /\ found_input_files env args <> []
        /\ (1 < Z.of_nat (List.length (found_input_files env args)) ->
            isdir env (output args) = true)
        /\ (truthy_ostr (addattach args) = true ->
            exists a, addattach args = Some a /\ isfile env a = true)
        /\ check_valid_arguments args = Ok tt).
Proof.
  unfold main. fold (found_input_files env args). fold (affinity_checked env args).
  assert (Hcheck : check_valid_arguments (affinity_checked env args)
                   = check_valid_arguments args).
  { unfold affinity_checked. destruct (setaffinity args && _);
      [apply check_ignores_affinity | reflexivity]. }
  rewrite Hcheck.
  destruct (found_input_files env args) as [| file files] eqn:Hfiles.
  { repeat split; [intros e _; exists ENOENT; cbn; auto | discriminate ..]. }
  split; [| split; [discriminate |]].
  - intros e He. rewrite He.
    destruct ((1 <? _) && _); [exists EFAULT; cbn; auto |].
    destruct (truthy_ostr (addattach args) && _);
      [exists ENOENT | exists EINVAL]; cbn; auto.
  - intros b.
    assert (Hone : forall P : Prop, (1 <? Z.of_nat (Datatypes.length (file :: files))) = false ->
                     1 < Z.of_nat (Datatypes.length (file :: files)) -> P)
      by (intros P Hle Hlt; apply Z.ltb_ge in Hle; lia).
    destruct (1 <? Z.of_nat (Datatypes.length (file :: files))) eqn:Hmany; cbn [andb].
    + destruct (isdir env (output args)) eqn:Hdir; cbn [negb]; [| discriminate].
      destruct (truthy_ostr (addattach args)) eqn:Hatt; cbn [andb].
      * destruct (addattach args) as [a |] eqn:Ha; [| discriminate Hatt].
        destruct (isfile env a) eqn:Hfile; cbn [negb]; [| discriminate].
        destruct (check_valid_arguments args) as [[] | e]; [| discriminate].
        intro H. injection H as <-.
        split; [reflexivity |]. split; [discriminate |]. split; [reflexivity |].
        split; [| reflexivity]. intros _. exists a. split; [reflexivity | exact Hfile].
      * destruct (check_valid_arguments args) as [[] | e]; [| discriminate].
        intro H. injection H as <-.
        split; [reflexivity |]. split; [discriminate |]. split; [reflexivity |].
        split; [discriminate | reflexivity].
    + destruct (truthy_ostr (addattach args)) eqn:Hatt; cbn [andb].
      * destruct (addattach args) as [a |] eqn:Ha; [| discriminate Hatt].
        destruct (isfile env a) eqn:Hfile; cbn [negb]; [| discriminate].
        destruct (check_valid_arguments args) as [[] | e]; [| discriminate].
        intro H. injection H as <-.
        split; [reflexivity |]. split; [discriminate |].
        split; [apply Hone; reflexivity |].
        split; [| reflexivity]. intros _. exists a. split; [reflexivity | exact Hfile].
      * destruct (check_valid_arguments args) as [[] | e]; [| discriminate].
        intro H. injection H as <-.
        split; [reflexivity |]. split; [discriminate |].
        split; [apply Hone; reflexivity |].
        split; [discriminate | reflexivity].
Qed.

(** ** The batch loop *)

Lemma count_failed_app (l m : list job) :
  count_failed (l ++ m) = count_failed l + count_failed m.
Proof.
  unfold count_failed. rewrite filter_app, length_app. lia.
Qed.

Section BatchLoop.
Context {PF : PyFloat}.
Variables (env : Env) (args : Args).

Lemma process_loop_finished (files : list string) :
  forall err0 jobs0 err jobs,
    process_loop env args files err0 jobs0 = Finished err jobs ->
    exists new,
      jobs = jobs0 ++ new
      /\ map job_file new = files
      /\ err = err0 + count_failed new.
Proof.
  induction files as [| f rest IH]; intros err0 jobs0 err jobs.
  - cbn [process_loop]. intro H. injection H as <- <-.
    exists []. rewrite app_nil_r. cbn. repeat split; lia.
  - cbn [process_loop].
    assert (Hstep : forall j e',
               e' = err0 + count_failed [j] ->
               job_file j = f ->
               process_loop env args rest e' (jobs0 ++ [j]) = Finished err jobs ->
               exists new,
                 jobs = jobs0 ++ new /\ map job_file new = f :: rest
                 /\ err = err0 + count_failed new).
    { intros j e' -> Hf H. apply IH in H. destruct H as (new & -> & Hfiles & ->).
      exists (j :: new). rewrite <- app_assoc. cbn [app map].
      rewrite Hf, Hfiles. repeat split.
      change (j :: new) with ([j] ++ new). rewrite count_failed_app. lia. }
    destruct (negb (char_in "." (path_tail f))).
    { apply Hstep; reflexivity. }
    destruct (get_dimensions_from_args args) as [w h].
    destruct (get_stream_count_map_from_input env args f) as [counts | e];
      [| discriminate].
    destruct (build_cmdline env args f _ _ w h counts) as [[cmdline out sfx | e] | e].
    + destruct (dryrun args).
      { apply Hstep; [cbn; lia | reflexivity]. }
      destruct (run_with_afinity env cmdline (setaffinity args)) as [rc | e];
        [| discriminate].
      destruct (negb (rc =? 0)) eqn:Hrc.
      * destruct (stoponerror args); [discriminate |].
        apply Hstep; [unfold count_failed; cbn; rewrite Hrc; reflexivity | reflexivity].
      * apply Hstep; [unfold count_failed; cbn; rewrite Hrc; cbn; lia | reflexivity].
    + apply Hstep; reflexivity.
    + apply Hstep; reflexivity.
Qed.

(** X2. When the batch loop returns, it has recorded exactly one job per
    input file, in the order of the files, and the error count it returns
    is the number of jobs that failed: files without an extension, build
    and filter errors, and runs with a non-zero return code. *)
Theorem batch_counts_failed_jobs (input_files : list string) (err_count : Z)
  (jobs : list job) :
  process_input env args input_files = Finished err_count jobs ->
  map job_file jobs = input_files
  /\ err_count = count_failed jobs
  /\ 0 <= err_count <= Z.of_nat (List.length input_files).
Proof.
  intro H. apply process_loop_finished in H. destruct H as (new & -> & Hfiles & ->).
  cbn [app]. split; [exact Hfiles |]. split; [lia |].
  rewrite <- Hfiles, length_map. unfold count_failed.
  pose proof (filter_length_le job_failed new). lia.
Qed.

Lemma process_loop_dry (files : list string) :
  dryrun args = true ->
  forall err0 jobs0,
    exists new,
      jobs_of (process_loop env args files err0 jobs0) = jobs0 ++ new
      /\ forallb (fun j => negb (job_ran j)) new = true
      /\ match process_loop env args files err0 jobs0 with
         | Finished _ _ => True
         | Exited _ _ => False
         | Crashed e _ =>
             exists f, In f files
                       /\ probe_stream_types env (ffprobebin args) f = Raise e
         end.
Proof.
  intros Hdry. induction files as [| f rest IH]; intros err0 jobs0.
  - exists []. rewrite app_nil_r. repeat split.
  - cbn [process_loop].
    assert (Hstep : forall j e',
               job_ran j = false ->
               exists new,
                 jobs_of (process_loop env args rest e' (jobs0 ++ [j])) = jobs0 ++ new
                 /\ forallb (fun j => negb (job_ran j)) new = true
                 /\ match process_loop env args rest e' (jobs0 ++ [j]) with
                    | Finished _ _ => True
                    | Exited _ _ => False
                    | Crashed e _ =>
                        exists f', In f' (f :: rest)
                                   /\ probe_stream_types env (ffprobebin args) f' = Raise e
                    end).
    { intros j e' Hj. destruct (IH e' (jobs0 ++ [j])) as (new & Hjobs & Hnew & Hend).
      exists (j :: new). rewrite <- app_assoc in Hjobs. split; [exact Hjobs |].
      split; [cbn [forallb]; rewrite Hj, Hnew; reflexivity |].
      destruct (process_loop env args rest e' (jobs0 ++ [j])); try exact Hend.
      destruct Hend as (f' & Hin & Hf'). exists f'. split; [right; exact Hin | exact Hf']. }
    destruct (negb (char_in "." (path_tail f))); [apply Hstep; reflexivity |].
    destruct (get_dimensions_from_args args) as [w h].
    destruct (probe_stream_types env (ffprobebin args) f) as [listing | e] eqn:Hprobe.
    + rewrite (stream_count_map _ _ _ _ Hprobe).
      destruct (build_cmdline env args f _ _ w h _) as [[cmdline out sfx | e] | e];
        rewrite ?Hdry; apply Hstep; reflexivity.
    + rewrite (stream_count_map_raises _ _ _ _ Hprobe).
      exists []. rewrite app_nil_r. split; [reflexivity |]. split; [reflexivity |].
      exists f. split; [left; reflexivity | exact Hprobe].
Qed.

(** X3. A dry run never starts ffmpeg and never ends the script with a
    return code.  The loop is left early only by an exception of the
    stream count probe of an input file, which is made outside the [try]
    block; when that probe returns for every file, the loop goes through
    the whole list and returns its error count. *)
Theorem dry_run_never_runs (input_files : list string) :
  dryrun args = true ->
  forallb (fun j => negb (job_ran j)) (jobs_of (process_input env args input_files)) = true
  /\ match process_input env args input_files with
     | Finished _ _ => True
     | Exited _ _ => False
     | Crashed e _ =>
         exists f, In f input_files
                   /\ probe_stream_types env (ffprobebin args) f = Raise e
     end
  /\ ((forall f, In f input_files ->
         is_ok (probe_stream_types env (ffprobebin args) f) = true) ->
      exists err_count jobs, process_input env args input_files = Finished err_count jobs).
Proof.
  intro Hdry. unfold process_input.
  destruct (process_loop_dry input_files Hdry 0 []) as (new & Hjobs & Hnew & Hend).
  cbn [app] in Hjobs. rewrite Hjobs. split; [exact Hnew |]. split; [exact Hend |].
  intro Hprobes.
  destruct (process_loop env args input_files 0 []) as [err jobs | rc jobs | e jobs].
  - exists err, jobs. reflexivity.
  - contradiction.
  - destruct Hend as (f & Hin & Hf). specialize (Hprobes f Hin).
    rewrite Hf in Hprobes. discriminate Hprobes.
Qed.

Lemma process_loop_exited (files : list string) :
  forall err0 jobs0 rc jobs,
    process_loop env args files err0 jobs0 = Exited rc jobs ->
    stoponerror args = true /\ dryrun args = false /\ rc <> 0
    /\ exists done file output_file cmdline later,
         jobs = jobs0 ++ done ++ [Ran file output_file cmdline rc]
         /\ files = map job_file done ++ file :: later
         /\ run_with_afinity env cmdline (setaffinity args) = Ok rc.
Proof.
  induction files as [| f rest IH]; intros err0 jobs0 rc jobs; [discriminate |].
  cbn [process_loop].
  assert (Hstep : forall j e',
             job_file j = f ->
             process_loop env args rest e' (jobs0 ++ [j]) = Exited rc jobs ->
             stoponerror args = true /\ dryrun args = false /\ rc <> 0
             /\ exists done file output_file cmdline later,
                  jobs = jobs0 ++ done ++ [Ran file output_file cmdline rc]
                  /\ f :: rest = map job_file done ++ file :: later
                  /\ run_with_afinity env cmdline (setaffinity args) = Ok rc).
  { intros j e' Hf H. apply IH in H.
    destruct H as (Hs & Hd & Hrc & done & file & out & c & later & -> & -> & Hrun).
    repeat split; try assumption.
    exists (j :: done), file, out, c, later.
    rewrite <- app_assoc. cbn [app map]. rewrite Hf. auto. }
  destruct (negb (char_in "." (path_tail f))); [apply Hstep; reflexivity |].
  destruct (get_dimensions_from_args args) as [w h].
  destruct (get_stream_count_map_from_input env args f) as [counts | e];
    [| discriminate].
  destruct (build_cmdline env args f _ _ w h counts) as [[cmdline out sfx | e] | e];
    try (apply Hstep; reflexivity).
  destruct (dryrun args) eqn:Hdry; [apply Hstep; reflexivity |].
  destruct (run_with_afinity env cmdline (setaffinity args)) as [rc' | e] eqn:Hrun;
    [| discriminate].
  destruct (Z.eqb_spec rc' 0) as [Hz | Hnz]; cbn [negb];
    [apply Hstep; reflexivity |].
  destruct (stoponerror args) eqn:Hstop; [| apply Hstep; reflexivity].
  intro H. injection H as <- <-.
  repeat split; try assumption; try reflexivity.
  exists [], f, out, cmdline, rest. cbn [app map]. auto.
Qed.

(** X4. The loop ends the script early only under stop-on-error, outside a
    dry run, with the non-zero return code of the run that failed: that
    run is the last job recorded, the jobs before it are those of the
    files before it, and the files after it are not looked at. *)
Theorem early_exit_is_a_failed_run (input_files : list string) (returncode : Z)
  (jobs : list job) :
  process_input env args input_files = Exited returncode jobs ->
  stoponerror args = true /\ dryrun args = false /\ returncode <> 0
  /\ exists done file output_file cmdline later,
       jobs = done ++ [Ran file output_file cmdline returncode]
       /\ input_files = map job_file done ++ file :: later
       /\ run_with_afinity env cmdline (setaffinity args) = Ok returncode.
Proof.
  intro H. apply process_loop_exited in H. exact H.
Qed.

End BatchLoop.

Lemma batch_counts_failed_jobs_witness :
  map job_file
    (jobs_of (process_input (PF := exact_float) (world_of [("in.mkv", video_and_audio)])
                (default_args "in.mkv" "out") ["in.mkv"; "README"]))
  = ["in.mkv"; "README"]
  /\ 1 = count_failed
           (jobs_of (process_input (PF := exact_float)
                       (world_of [("in.mkv", video_and_audio)])
                       (default_args "in.mkv" "out") ["in.mkv"; "README"]))
  /\ 0 <= 1 <= Z.of_nat (List.length ["in.mkv"; "README"]).
Proof.
  apply (batch_counts_failed_jobs (PF := exact_float)
           (world_of [("in.mkv", video_and_audio)]) (default_args "in.mkv" "out")
           ["in.mkv"; "README"] 1).
  vm_compute. reflexivity.
Defined.

Lemma dry_run_never_runs_witness :
  (exists err_count jobs,
     process_input (PF := exact_float) (world_of [("in.mkv", video_and_audio)]) dry_run
       ["in.mkv"; "README"]
     = Finished err_count jobs)
  /\ exists f,
       In f ["README"; "in.mkv"; "b.mkv"]
       /\ probe_stream_types world_without_ffprobe (ffprobebin dry_run) f
          = Raise (FileNotFoundError "ffprobe").
Proof.
  split.
  - apply (dry_run_never_runs (PF := exact_float)
             (world_of [("in.mkv", video_and_audio)]) dry_run ["in.mkv"; "README"]
             eq_refl).
    intros f _. reflexivity.
  - exact (proj1 (proj2 (dry_run_never_runs (PF := exact_float) world_without_ffprobe
                           dry_run ["README"; "in.mkv"; "b.mkv"] eq_refl))).
Defined.

Lemma early_exit_is_a_failed_run_witness :
  stoponerror stop_on_error = true /\ dryrun stop_on_error = false /\ 1 <> 0
  /\ exists done file output_file cmdline later,
       jobs_of (process_input (PF := exact_float)
                  (failing_world_of [("a.mkv", video_and_audio)]) stop_on_error
                  ["a.mkv"; "b.mkv"])
       = done ++ [Ran file output_file cmdline 1]
       /\ ["a.mkv"; "b.mkv"] = map job_file done ++ file :: later
       /\ run_with_afinity (failing_world_of [("a.mkv", video_and_audio)]) cmdline
            (setaffinity stop_on_error) = Ok 1.
Proof.
  apply (early_exit_is_a_failed_run (PF := exact_float)
           (failing_world_of [("a.mkv", video_and_audio)]) stop_on_error
           ["a.mkv"; "b.mkv"] 1).
  vm_compute. reflexivity.
Defined.

(** ** A requested video codec *)

Section VideoCodec.
Context {PF : PyFloat}.
Variables (env : Env) (args : Args).

Lemma stream_map_video_raises (c : string) (n first : Z) (file : string) :
  stream_type_arg (codec args) "v" = Some c ->
  exists e, stream_map env true args "v" n first file = Raise e.
Proof.
  intro Hc. unfold stream_map. rewrite Hc. apply bind_raise.
  unfold stream_codec_to_encoder. apply bind_raise.
  cbn [String.eqb Ascii.eqb Bool.eqb]. apply video_encoder_never_built.
Qed.

Lemma primary_stream_count_cases (counts : list (string * Z)) (t : string) (n : Z) :
  stream_type_bool (nocopy args) t = false ->
  dict_get counts t = Ok n ->
  n <> 0 ->
  (exists e, primary_stream_count args counts t = Raise e)
  \/ (exists np, primary_stream_count args counts t = Ok np /\ np <> 0).
Proof.
  intros Hnc Hn Hnz. unfold primary_stream_count. rewrite Hnc, Hn. cbn [negb bind].
  destruct (stream_type_arg (singlestream args) t) as [k |].
  - destruct (k + 1 >? n); [left; eexists; reflexivity |].
    right. exists 1. split; [reflexivity | discriminate].
  - right. exists n. split; [reflexivity | exact Hnz].
Qed.

Lemma stream_type_maps_video_raises (c file : string) (counts : list (string * Z))
  (n : Z) :
  stream_type_arg (codec args) "v" = Some c ->
  stream_type_bool (nocopy args) "v" = false ->
  dict_get counts "v" = Ok n ->
  n <> 0 ->
  exists e, stream_type_maps env args file counts "v" = Raise e.
Proof.
  intros Hc Hnc Hn Hnz. unfold stream_type_maps.
  destruct (added_stream_count env args "v") as [na | e]; [| exists e; reflexivity].
  cbn [bind].
  destruct (primary_stream_count_cases counts "v" n Hnc Hn Hnz)
    as [[e ->] | (np & -> & Hnp)]; [exists e; reflexivity |].
  cbn [bind]. apply (proj2 (Z.eqb_neq _ _)) in Hnp, Hnz.
  destruct (negb (stream_type_bool (addfirst args) "v")).
  - apply bind_raise. rewrite Hnp. cbn [negb].
    eapply stream_map_video_raises. exact Hc.
  - destruct (if negb (na =? 0) then _ else _) as [added_map | e];
      [| exists e; reflexivity].
    cbn [bind]. rewrite Hn. cbn [bind]. apply bind_raise.
    rewrite Hnz. cbn [negb]. eapply stream_map_video_raises. exact Hc.
Qed.

(** X5. No command is ever built for a file with a video stream once a
    video codec is requested for the primary input: building the encoder
    arguments reads [args.vbitrate], which raises, so the file is counted
    as one error and the loop moves on without running anything for it. *)
Theorem video_codec_request_skips_file (c input_file : string) (rest : list string)
  (err_count : Z) (jobs : list job) (n : Z) :
  stream_type_arg (codec args) "v" = Some c ->
  stream_type_bool (nocopy args) "v" = false ->
  probe_stream_count env (ffprobebin args) input_file "video" = Ok n ->
  n <> 0 ->
  exists j,
    command_of j = None
    /\ process_loop env args (input_file :: rest) err_count jobs
       = process_loop env args rest (err_count + 1) (jobs ++ [j]).
Proof.
  intros Hc Hnc Hcount Hn. cbn [process_loop].
  destruct (char_in "." (path_tail input_file)); cbn [negb].
  - destruct (get_dimensions_from_args args) as [w h].
    unfold probe_stream_count in Hcount.
    destruct (probe_stream_types env (ffprobebin args) input_file) as [listing | e]
      eqn:Hprobe; [| discriminate Hcount].
    cbn [bind] in Hcount. injection Hcount as <-.
    rewrite (stream_count_map _ _ _ _ Hprobe).
    match goal with
    | |- context [build_cmdline env args _ _ _ w h ?counts] =>
        pose proof (stream_type_maps_video_raises c input_file counts _ Hc Hnc eq_refl Hn)
          as Hraise;
        destruct (build_cmdline_raises env args input_file (path_tail input_file)
                    (get_container_extension args input_file) w h counts "v"
                    (or_introl eq_refl) Hraise) as [e He]
    end.
    rewrite He. exists (BuildError input_file e). split; reflexivity.
  - exists (NoExtension input_file). split; reflexivity.
Qed.

End VideoCodec.

Lemma video_codec_request_skips_file_witness :
  exists j,
    command_of j = None
    /\ process_loop (world_of [("in.mkv", two_videos)]) convert_only_h264
         ["in.mkv"; "in.mkv"] 0 []
       = process_loop (world_of [("in.mkv", two_videos)]) convert_only_h264
           ["in.mkv"] (0 + 1) ([] ++ [j]).
Proof.
  apply (video_codec_request_skips_file (PF := exact_float)
           (world_of [("in.mkv", two_videos)]) convert_only_h264 "h264" "in.mkv"
           ["in.mkv"] 0 [] 2).
  - reflexivity.
  - reflexivity.
  - vm_compute. reflexivity.
  - discriminate.
Defined.

(** ** The rules of the validator *)

Lemma in_list_true (x : string) (l : list string) : In x l -> in_list x l = true.
Proof.
  intro H. apply existsb_exists. exists x. split; [exact H | apply String.eqb_refl].
Qed.

Lemma any_rule_rejects (args : Args) :
  (exists e, check_arg_stream_dependencies args ["bitrate"] ["codec"; "addcodec"] = Raise e)
  \/ (exists e, check_arg_stream_dependencies args
                  ["addcodec"; "addstream"; "addfirst"; "adddefault"; "addlang"; "addlooped"]
                  ["addfile"] = Raise e)
  \/ (exists e, check_arg_stream_dependencies args ["addlooped"] ["addcodec"] = Raise e)
  \/ (exists e, check_arg_stream_names_dependencies args
                  (["tune"; "crf"; "crop"] ++ DEPTH_ARGS ++ COLOR_ARGS ++ RES_ARGS)
                  ["codec"; "addcodec"] "v" = Raise e)
  \/ (exists e, check_arg_stream_names_dependencies args CHANNELS_ARGS
                  ["codec"; "addcodec"] "a" = Raise e)
  \/ (exists e, check_dependent_args args ["crop"] (RES_ARGS ++ ["width"; "height"])
                = Raise e)
  \/ (exists e, check_dependent_args args ["addlooped"] LENGTH_ARGS = Raise e)
  \/ (exists e, check_arg_stream_exclusive args ["nocopy"; "codec"] = Raise e)
  \/ (exists e, check_arg_stream_names_exclusive args RES_ARGS ["nocopy"] "v" = Raise e)
  \/ (exists e, check_exclusive_args args (RES_ARGS ++ ["width"]) = Raise e)
  \/ (exists e, check_exclusive_args args (RES_ARGS ++ ["height"]) = Raise e) ->
  exists e, check_valid_arguments args = Raise e.
Proof.
  intro H. unfold check_valid_arguments.
  repeat match goal with
  | |- exists e, bind ?m _ = Raise e =>
      let E := fresh "E" in
      destruct m as [[] | ?] eqn:E; [cbn [bind] | eexists; reflexivity]
  end.
  repeat destruct H as [H | H]; destruct H as [e He]; try congruence.
  exists e. exact He.
Qed.

Lemma filter_r_total {A : Type} (f : A -> result bool) (l : list A) :
  (forall x, In x l -> exists b, f x = Ok b) ->
  exists r, filter_r f l = Ok r /\ forall x, In x l -> f x = Ok true -> In x r.
Proof.
  induction l as [| a l IH]; intro Htotal.
  - exists []. split; [reflexivity | contradiction].
  - destruct IH as (r & Hr & Hin); [intros x Hx; apply Htotal; right; exact Hx |].
    destruct (Htotal a (or_introl eq_refl)) as [b Hb].
    cbn [filter_r]. rewrite Hb, Hr. cbn [bind].
    eexists. split; [reflexivity |].
    intros x [<- | Hx] Hfx.
    + rewrite Hb in Hfx. injection Hfx as ->. left. reflexivity.
    + destruct b; [right |]; apply Hin; assumption.
Qed.

Lemma flag_keys (l keys : list string) (t : string) :
  arg_stream_type_enumeration (AFlags (Some l)) = Ok keys ->
  In t l -> In t (STREAM_TYPES_SHORT ++ ["c"; "m"]) -> In t keys.
Proof.
  intros H Hin Ht.
  assert (Hfirst : first_char t = Ok t).
  { cbn in Ht. repeat destruct Ht as [<- | Ht]; try reflexivity. contradiction. }
  unfold arg_stream_type_enumeration in H.
  destruct l as [| a l]; [contradiction |]. cbn [truthy negb] in H.
  revert keys H. generalize dependent (a :: l). clear a l.
  induction l as [| a l IH]; intros Hin keys H; [contradiction |].
  cbn [map_r] in H. apply bind_ok in H. destruct H as (y & Hy & H).
  apply bind_ok in H. destruct H as (ys & Hys & H). injection H as <-.
  destruct Hin as [-> | Hin].
  - rewrite Hfirst in Hy. injection Hy as <-. left. reflexivity.
  - right. apply IH; assumption.
Qed.

Ltac enumerate :=
  unfold enumeration_of;
  cbn [getattr String.eqb Ascii.eqb Bool.eqb bind];
  rewrite ?enumeration_pairs; cbn [bind].

(** X6. Validation raises whenever no-copy and a codec are both given for
    the same stream type. *)
Theorem nocopy_with_codec_rejected (args : Args) (excluded : list string) (t c : string) :
  nocopy args = Some excluded ->
  In t excluded ->
  In t STREAM_TYPES_SHORT ->
  stream_type_arg (codec args) t = Some c ->
  exists e, check_valid_arguments args = Raise e.
Proof.
  intros Hnc Hin Ht Hc. apply any_rule_rejects. do 7 right. left.
  unfold check_arg_stream_exclusive.
  apply for_each_raises with (x := "nocopy"); [left; reflexivity |].
  intros []. enumerate. rewrite Hnc.
  destruct (arg_stream_type_enumeration (AFlags (Some excluded))) as [keys | e] eqn:Hkeys;
    [| exists e; reflexivity].
  cbn [bind].
  apply for_each_raises with (x := t).
  - eapply flag_keys; [exact Hkeys | exact Hin | apply in_or_app; left; exact Ht].
  - intros []. cbn [filter_r]. enumerate. rewrite Hnc, Hkeys. cbn [bind].
    rewrite (in_list_true t keys)
      by (eapply flag_keys; [exact Hkeys | exact Hin | apply in_or_app; left; exact Ht]).
    rewrite (in_list_true t (keys_of (codec args)))
      by (eapply stream_type_arg_some_keys; exact Hc).
    cbn. eexists. reflexivity.
Qed.

Lemma nocopy_with_codec_rejected_witness :
  exists e, check_valid_arguments excluded_and_encoded = Raise e.
Proof.
  apply (nocopy_with_codec_rejected excluded_and_encoded ["a"] "a" "aac").
  - reflexivity.
  - left. reflexivity.
  - right. left. reflexivity.
  - reflexivity.
Defined.

(** X7. Validation raises whenever one of the options for added streams
    (addcodec, addstream, addfirst, adddefault, addlang, addlooped) names a
    stream type for which no addfile is given. *)
Theorem added_options_require_addfile (args : Args) (name : string)
  (keys : list string) (t : string) :
  In name ["addcodec"; "addstream"; "addfirst"; "adddefault"; "addlang"; "addlooped"] ->
  enumeration_of args name = Ok keys ->
  In t keys ->
  stream_type_arg (addfile args) t = None ->
  exists e, check_valid_arguments args = Raise e.
Proof.
  intros Hname Hkeys Ht Hfile. apply any_rule_rejects. right. left.
  unfold check_arg_stream_dependencies.
  apply for_each_raises with (x := name); [exact Hname |].
  intros []. rewrite Hkeys. cbn [bind].
  apply for_each_raises with (x := t); [exact Ht |].
  intros []. cbn [any_r]. enumerate.
  rewrite (stream_type_arg_none_keys _ _ Hfile). cbn [bind].
  eexists. reflexivity.
Qed.

Lemma added_options_require_addfile_witness :
  exists e, check_valid_arguments added_codec_without_file = Raise e.
Proof.
  apply (added_options_require_addfile added_codec_without_file "addcodec" ["a"] "a").
  - left. reflexivity.
  - reflexivity.
  - left. reflexivity.
  - reflexivity.
Defined.

Lemma named_attr_total (args : Args) (names : list string) (name : string) :
  names = ["tune"; "crf"; "crop"] ++ DEPTH_ARGS ++ COLOR_ARGS ++ RES_ARGS
  \/ names = CHANNELS_ARGS \/ names = RES_ARGS
  \/ names = RES_ARGS ++ ["width"] \/ names = RES_ARGS ++ ["height"] ->
  In name names -> exists b, attr_truthy args name = Ok b.
Proof.
  intros Hnames Hin.
  repeat destruct Hnames as [Hnames | Hnames]; subst names; cbn in Hin;
    repeat destruct Hin as [<- | Hin]; try contradiction; eexists; reflexivity.
Qed.

(** X8. Validation raises whenever a video option (tune, crf, crop, 8bit,
    10bit, sdr, hdr, hd, fhd, qhd, uhd) is set while neither codec nor
    addcodec names the video type, and whenever mono or stereo is set while
    neither names the audio type. *)
Theorem named_options_require_codec (args : Args) (name spec : string) :
  (In name (["tune"; "crf"; "crop"] ++ DEPTH_ARGS ++ COLOR_ARGS ++ RES_ARGS) /\ spec = "v")
  \/ (In name CHANNELS_ARGS /\ spec = "a") ->
  attr_truthy args name = Ok true ->
  stream_type_arg (codec args) spec = None ->
  stream_type_arg (addcodec args) spec = None ->
  exists e, check_valid_arguments args = Raise e.
Proof.
  intros Hname Hset Hc Ha. apply any_rule_rejects.
  assert (Hrule : forall names,
             names = ["tune"; "crf"; "crop"] ++ DEPTH_ARGS ++ COLOR_ARGS ++ RES_ARGS
             \/ names = CHANNELS_ARGS ->
             In name names ->
             exists e, check_arg_stream_names_dependencies args names
                         ["codec"; "addcodec"] spec = Raise e).
  { intros names Hnames Hin. unfold check_arg_stream_names_dependencies.
    destruct (filter_r_total (attr_truthy args) names) as (set_names & -> & Hsel).
    { intros x Hx. apply (named_attr_total args names); [tauto | exact Hx]. }
    cbn [bind]. specialize (Hsel name Hin Hset).
    destruct set_names as [| first others]; [contradiction |].
    cbn [for_each any_r]. enumerate.
    rewrite (stream_type_arg_none_keys _ _ Hc). cbn [bind].
    rewrite (stream_type_arg_none_keys _ _ Ha). cbn [bind].
    eexists. reflexivity. }
  destruct Hname as [[Hin ->] | [Hin ->]].
  - do 3 right. left. apply Hrule; [left; reflexivity | exact Hin].
  - do 4 right. left. apply Hrule; [right; reflexivity | exact Hin].
Qed.

Lemma named_options_require_codec_witness :
  exists e, check_valid_arguments height_and_crop = Raise e.
Proof.
  apply (named_options_require_codec height_and_crop "crop" "v").
  - left. split; [cbn; tauto | reflexivity].
  - reflexivity.
  - reflexivity.
  - reflexivity.
Defined.

(** X9. Validation raises when crop is set without any resolution (no
    preset, no width, no height), and when addlooped is set with neither
    shortest nor a duration. *)
Theorem dependent_options_rejected (args : Args) :
  (truthy_ostr (crop args) = true
   /\ hd args = false /\ fhd args = false /\ qhd args = false /\ uhd args = false
   /\ truthy_oint (width args) = false /\ truthy_oint (height args) = false)
  \/ (truthy (AFlags (addlooped args)) = true
      /\ shortest args = false /\ truthy_ostr (duration args) = false) ->
  exists e, check_valid_arguments args = Raise e.
Proof.
  intros [(Hcrop & Hhd & Hfhd & Hqhd & Huhd & Hw & Hh) | (Hloop & Hs & Hd)];
    apply any_rule_rejects.
  - do 5 right. left.
    unfold check_dependent_args, attr_truthy.
    cbn [for_each map_r getattr String.eqb Ascii.eqb Bool.eqb bind truthy RES_ARGS app].
    rewrite Hcrop, Hhd, Hfhd, Hqhd, Huhd, Hw, Hh. cbn. eexists. reflexivity.
  - do 6 right. left.
    unfold check_dependent_args, attr_truthy.
    cbn [for_each map_r getattr String.eqb Ascii.eqb Bool.eqb bind LENGTH_ARGS].
    rewrite Hloop. cbn [truthy]. rewrite Hs, Hd. cbn. eexists. reflexivity.
Qed.

Lemma dependent_options_rejected_witness :
  exists e, check_valid_arguments crop_only = Raise e.
Proof.
  apply (dependent_options_rejected crop_only).
  left. repeat split; reflexivity.
Defined.

(** X10. Validation raises when a resolution preset (hd, fhd, qhd, uhd) is
    combined with no-copy for video, with another preset, or with an
    explicit width or height. *)
Theorem resolution_presets_are_exclusive (args : Args) (preset other : string) :
  In preset RES_ARGS ->
  attr_truthy args preset = Ok true ->
  (other = "nocopy" /\ exists excluded, nocopy args = Some excluded /\ In "v" excluded)
  \/ (In other (RES_ARGS ++ ["width"; "height"]) /\ other <> preset
      /\ attr_truthy args other = Ok true) ->
  exists e, check_valid_arguments args = Raise e.
Proof.
  intros Hpreset Hset Hother. apply any_rule_rejects.
  assert (Htwo : forall names,
             names = RES_ARGS ++ ["width"] \/ names = RES_ARGS ++ ["height"] ->
             In other names -> other <> preset -> attr_truthy args other = Ok true ->
             exists e, check_exclusive_args args names = Raise e).
  { intros names Hnames Hin Hne Hso. unfold check_exclusive_args.
    destruct (filter_r_total (attr_truthy args) names) as (set_args & -> & Hsel).
    { intros x Hx. apply (named_attr_total args names); [tauto | exact Hx]. }
    cbn [bind].
    assert (Hp : In preset set_args).
    { apply Hsel; [| exact Hset].
      destruct Hnames as [-> | ->]; apply in_or_app; left; exact Hpreset. }
    assert (Ho : In other set_args) by (apply Hsel; assumption).
    destruct set_args as [| a [| b rest]].
    - contradiction.
    - destruct Hp as [<- | []], Ho as [<- | []]. contradiction Hne. reflexivity.
    - destruct (Z.ltb_spec 1 (Z.of_nat (Datatypes.length (a :: b :: rest))))
        as [_ | Hlen]; [eexists; reflexivity | cbn [Datatypes.length] in Hlen; lia]. }
  destruct Hother as [(-> & excluded & Hnc & Hv) | (Hin & Hne & Hso)].
  - do 8 right. left. unfold check_arg_stream_names_exclusive.
    destruct (filter_r_total (attr_truthy args) RES_ARGS) as (set_names & -> & Hsel).
    { intros x Hx. apply (named_attr_total args RES_ARGS); [tauto | exact Hx]. }
    cbn [bind]. specialize (Hsel preset Hpreset Hset).
    destruct set_names as [| first others]; [contradiction |].
    cbn [for_each]. enumerate. rewrite Hnc.
    destruct (arg_stream_type_enumeration (AFlags (Some excluded))) as [keys | e] eqn:Hkeys;
      [| exists e; reflexivity].
    cbn [bind].
    rewrite (in_list_true "v" keys)
      by (eapply flag_keys; [exact Hkeys | exact Hv | cbn; tauto]).
    eexists. reflexivity.
  - apply in_app_or in Hin. destruct Hin as [Hin | [<- | [<- | []]]].
    + do 9 right. left. apply Htwo; try assumption; [left; reflexivity |].
      apply in_or_app. left. exact Hin.
    + do 9 right. left. apply Htwo; try assumption; [left; reflexivity |].
      apply in_or_app. right. left. reflexivity.
    + do 10 right. apply Htwo; try assumption; [right; reflexivity |].
      apply in_or_app. right. left. reflexivity.
Qed.

Lemma resolution_presets_are_exclusive_witness :
  exists e, check_valid_arguments hd_and_width = Raise e.
Proof.
  apply (resolution_presets_are_exclusive hd_and_width "hd" "width").
  - left. reflexivity.
  - reflexivity.
  - right. split; [cbn; tauto | split; [discriminate | reflexivity]].
Defined.

(** ** The codec argument callable of the parser *)

Lemma in_list_in (x : string) (l : list string) : in_list x l = true -> In x l.
Proof.
  intro H. apply existsb_exists in H. destruct H as (y & Hy & E).
  apply String.eqb_eq in E. subst y. exact Hy.
Qed.

Lemma codec_type_accepted (t r : string) (st : option string) :
  ValidateStreamCodecArg None t = Ok (r, st) -> st = Some t /\ In t STREAM_TYPES_SHORT.
Proof.
  unfold ValidateStreamCodecArg. cbn [truthy_ostr negb].
  destruct (in_list t STREAM_TYPES_SHORT) eqn:Hin; cbn [negb]; [| discriminate].
  intro H. injection H as _ <-. split; [reflexivity | apply in_list_in; exact Hin].
Qed.

Lemma codec_name_accepted (t c r : string) (st : option string) :
  In t STREAM_TYPES_SHORT ->
  ValidateStreamCodecArg (Some t) c = Ok (r, st) ->
  st = Some t /\ In t ["v"; "a"; "s"].
Proof.
  intros Ht. cbn in Ht.
  repeat destruct Ht as [<- | Ht]; try contradiction;
    unfold ValidateStreamCodecArg;
    cbn [truthy_ostr truthy_str String.eqb Ascii.eqb Bool.eqb negb];
    try discriminate;
    match goal with
    | |- context [in_list c ?codecs] => destruct (in_list c codecs)
    end; cbn [negb]; try discriminate;
    intro H; injection H as _ <-; (split; [reflexivity | cbn; tauto]).
Qed.

Lemma type_is_no_codec (t t' : string) :
  In t ["v"; "a"; "s"] -> In t' STREAM_TYPES_SHORT ->
  exists e, ValidateStreamCodecArg (Some t) t' = Raise e.
Proof.
  intros Ht Ht'. cbn in Ht, Ht'.
  repeat destruct Ht as [<- | Ht]; try contradiction;
    repeat destruct Ht' as [<- | Ht']; try contradiction;
    eexists; vm_compute; reflexivity.
Qed.

(** X11. The parser accepts at most one [-codec] or [-addcodec] option:
    once a stream type and its codec were accepted, the remembered type is
    never cleared, so the stream type of any further such option is checked
    as a codec name and rejected. *)
Theorem only_one_codec_option_parses (t c t' : string) (rest : list string) :
  is_ok (validate_all ValidateStreamCodecArg None [t; c]) = true ->
  In t' STREAM_TYPES_SHORT ->
  exists e, validate_all ValidateStreamCodecArg None (t :: c :: t' :: rest) = Raise e.
Proof.
  intros Hok Ht'. cbn [validate_all] in *.
  destruct (ValidateStreamCodecArg None t) as [[r st] | e] eqn:H1; [| discriminate Hok].
  cbn [bind] in *.
  destruct (codec_type_accepted _ _ _ H1) as [-> Ht].
  destruct (ValidateStreamCodecArg (Some t) c) as [[r' st'] | e] eqn:H2;
    [| discriminate Hok].
  cbn [bind].
  destruct (codec_name_accepted _ _ _ _ Ht H2) as [-> Hvas].
  destruct (type_is_no_codec t t' Hvas Ht') as [e ->].
  exists e. reflexivity.
Qed.

Lemma only_one_codec_option_parses_witness :
  exists e,
    validate_all ValidateStreamCodecArg None ["v"; "h264"; "a"; "aac"] = Raise e.
Proof.
  apply (only_one_codec_option_parses "v" "h264" "a" ["aac"]).
  - vm_compute. reflexivity.
  - cbn. tauto.
Defined.

(** X12. The string argument callable alternates between its two kinds of
    argument: every list of (stream type, text) pairs with valid stream
    types is returned unchanged and leaves the callable ready for the next
    option, whatever the texts are. *)
Theorem string_options_parse (pairs : list (string * string)) :
  Forall (fun p => In (fst p) STREAM_TYPES_SHORT) pairs ->
  validate_all ValidateStreamStringArg true (flat_map (fun p => [fst p; snd p]) pairs)
  = Ok (flat_map (fun p => [fst p; snd p]) pairs, true).
Proof.
  induction 1 as [| [t v] pairs Ht _ IH]; [reflexivity |].
  cbn [flat_map app validate_all fst snd] in *.
  unfold ValidateStreamStringArg at 1 2.
  rewrite (in_list_true _ _ Ht). cbn [negb bind]. rewrite IH. reflexivity.
Qed.

Lemma string_options_parse_witness :
  validate_all ValidateStreamStringArg true
    (flat_map (fun p => [fst p; snd p]) [("a", "128k"); ("v", "a")])
  = Ok (flat_map (fun p => [fst p; snd p]) [("a", "128k"); ("v", "a")], true).
Proof.
  apply (string_options_parse [("a", "128k"); ("v", "a")]).
  repeat constructor; cbn; tauto.
Defined.

(** ** Options that never reach the command *)

Section IgnoredOptions.
Context {PF : PyFloat}.
Variables (env : Env) (args : Args).

(** X13. With [-suffix], the suffix put into the output file name is made
    of the fragments [_no<type>] of the stream types that are not copied,
    in the order video, audio, subtitle, attachment, data, and of nothing
    else: no codec, quality or size fragment is ever added. *)
Theorem suffix_names_only_excluded_types (file filename extension : string) (w h : Z)
  (counts : list (string * Z)) (cmdline : list string) (out : string)
  (sfx : option string) :
  build_cmdline env args file filename extension w h counts = Ok (Built cmdline out sfx) ->
  sfx = if suffix args
        then Some (excluded_fragment args "v" "video" ++ excluded_fragment args "a" "audio"
                   ++ excluded_fragment args "s" "subtitle"
                   ++ excluded_fragment args "t" "attachment"
                   ++ excluded_fragment args "d" "data")%string
        else None.
Proof.
  unfold build_cmdline. rewrite secondary_inputs_unchanged. cbn [bind].
  intro H. apply bind_ok in H. destruct H as (cmdline1 & _ & H).
  assert (Hsfx : forall ow oh out' sfx',
             (if suffix args
              then
                suffix <- suffix_str args ow oh ;;
                Ok ((py_slice_to (output_path env args filename extension)
                       (py_rfind "." (output_path env args filename extension))
                     ++ suffix
                     ++ py_slice_from (output_path env args filename extension)
                          (py_rfind "." (output_path env args filename extension)))%string,
                    Some suffix)
              else Ok (output_path env args filename extension, None)) = Ok (out', sfx') ->
             sfx' = if suffix args
                    then Some (excluded_fragment args "v" "video"
                               ++ excluded_fragment args "a" "audio"
                               ++ excluded_fragment args "s" "subtitle"
                               ++ excluded_fragment args "t" "attachment"
                               ++ excluded_fragment args "d" "data")%string
                    else None).
  { intros ow oh out' sfx'. destruct (suffix args).
    - rewrite suffix_lists_excluded_types_only. cbn [bind].
      intro E. injection E as _ <-. reflexivity.
    - intro E. injection E as _ <-. reflexivity. }
  destruct (negb (stream_type_bool (nocopy args) "v")).
  - destruct (video_filters_from_args env args w h file) as [[[vf ow] oh] | e];
      [| discriminate].
    apply bind_ok in H. destruct H as ([out' sfx'] & Hs & H).
    apply Hsfx in Hs. injection H as _ _ <-. exact Hs.
  - apply bind_ok in H. destruct H as ([out' sfx'] & Hs & H).
    apply Hsfx in Hs. injection H as _ _ <-. exact Hs.
Qed.

Lemma group_directive_first_input (t : string) (n : Z) :
  Forall (fun d => starts_with "0:" d || starts_with "-0:" d = true)
    (group_directive args t n).
Proof.
  unfold group_directive. destruct (n =? 0); constructor; [| constructor].
  destruct (stream_type_bool (nocopy args) t); [reflexivity |].
  unfold select_form. destruct (stream_type_arg (singlestream args) t); reflexivity.
Qed.

(** X14. A file given with [-addfile] is never used: it is not added to the
    command as an input, and every map directive, also those of the added
    streams, selects from input 0, the primary input file. *)
Theorem added_files_are_never_used (cmdline : list string) (file : string)
  (counts : list (string * Z)) (t : string) (toks : list string) :
  secondary_inputs args cmdline = Ok cmdline
  /\ (stream_type_maps env args file counts t = Ok toks ->
      Forall (fun d => starts_with "0:" d || starts_with "-0:" d = true)
        (directives toks)).
Proof.
  split; [apply secondary_inputs_unchanged |].
  unfold stream_type_maps. intro H.
  apply bind_ok in H. destruct H as (na & _ & H).
  apply bind_ok in H. destruct H as (np & _ & H).
  destruct (negb (stream_type_bool (addfirst args) t)).
  - apply bind_ok in H. destruct H as (p & Hp & H).
    apply bind_ok in H. destruct H as (a & Ha & H). injection H as <-.
    rewrite (guarded_map_directives _ _ _ _ _ _ _ _ _ a Hp).
    rewrite <- (app_nil_r a).
    rewrite (guarded_map_directives _ _ _ _ _ _ _ _ _ [] Ha).
    cbn [directives]. rewrite app_nil_r.
    apply Forall_app. split; apply group_directive_first_input.
  - apply bind_ok in H. destruct H as (a & Ha & H).
    apply bind_ok in H. destruct H as (probed & _ & H).
    apply bind_ok in H. destruct H as (p & Hp & H). injection H as <-.
    rewrite (guarded_map_directives _ _ _ _ _ _ _ _ _ p Ha).
    rewrite <- (app_nil_r p).
    rewrite (guarded_map_directives _ _ _ _ _ _ _ _ _ [] Hp).
    cbn [directives]. rewrite app_nil_r.
    apply Forall_app. split; apply group_directive_first_input.
Qed.

Lemma stream_encoder_ignores_bitrate (b : option (list (string * string)))
  (t : string) (c : option string) :
  stream_codec_to_encoder t c (set_bitrate args b) = stream_codec_to_encoder t c args.
Proof.
  unfold stream_codec_to_encoder. rewrite !stream_type_bool_pairs. reflexivity.
Qed.

Lemma stream_map_ignores_bitrate (b : option (list (string * string)))
  (primary : bool) (t : string) (n first : Z) (f : string) :
  stream_map env primary (set_bitrate args b) t n first f
  = stream_map env primary args t n first f.
Proof.
  unfold stream_map.
  change (codec (set_bitrate args b)) with (codec args).
  change (addcodec (set_bitrate args b)) with (addcodec args).
  rewrite stream_encoder_ignores_bitrate. reflexivity.
Qed.

Lemma stream_type_maps_ignores_bitrate (b : option (list (string * string)))
  (f : string) (counts : list (string * Z)) (t : string) :
  stream_type_maps env (set_bitrate args b) f counts t
  = stream_type_maps env args f counts t.
Proof.
  unfold stream_type_maps.
  change (added_stream_count env (set_bitrate args b) t)
    with (added_stream_count env args t).
  change (primary_stream_count (set_bitrate args b) counts t)
    with (primary_stream_count args counts t).
  destruct (added_stream_count env args t) as [na | e]; [| reflexivity].
  destruct (primary_stream_count args counts t) as [np | e]; [| reflexivity].
  cbn [bind]. rewrite !stream_map_ignores_bitrate. reflexivity.
Qed.

(** X15. A [-bitrate] option never changes the command: building with any
    bitrate list gives the same result as building without it. *)
Theorem bitrate_never_changes_the_command (b : option (list (string * string)))
  (file filename extension : string) (w h : Z) (counts : list (string * Z)) :
  build_cmdline env (set_bitrate args b) file filename extension w h counts
  = build_cmdline env args file filename extension w h counts.
Proof.
  unfold build_cmdline.
  rewrite !secondary_inputs_unchanged. cbn [bind].
  assert (Hmaps : forall cmdline,
             stream_maps env (set_bitrate args b) file counts cmdline
             = stream_maps env args file counts cmdline).
  { intro cmdline. unfold stream_maps. apply for_each_ext.
    intros s t _. rewrite stream_type_maps_ignores_bitrate. reflexivity. }
  rewrite Hmaps. reflexivity.
Qed.

End IgnoredOptions.

Lemma suffix_names_only_excluded_types_witness :
  Some "_noaudio"
  = if suffix suffix_without_audio
    then Some (excluded_fragment suffix_without_audio "v" "video"
               ++ excluded_fragment suffix_without_audio "a" "audio"
               ++ excluded_fragment suffix_without_audio "s" "subtitle"
               ++ excluded_fragment suffix_without_audio "t" "attachment"
               ++ excluded_fragment suffix_without_audio "d" "data")%string
    else None.
Proof.
  apply (suffix_names_only_excluded_types (PF := exact_float)
           (world_of [("in.mkv", video_and_audio)]) suffix_without_audio
           "in.mkv" "in.mkv" ".mkv" 0 0 [("v", 1); ("a", 1); ("s", 0); ("t", 0); ("d", 0)]
           ["ffmpeg"; "-i"; "in.mkv"; "-copy_unknown"; "-map"; "0:v?"; "-c:v:0"; "copy";
            "-map_chapters"; "-1"; "-map_metadata"; "-1"; "out_noaudio.mkv"]
           "out_noaudio.mkv").
  vm_compute. reflexivity.
Defined.

(** ** Padding with any modulus *)

(** X16. Padding with modulus 0 raises [ZeroDivisionError].  With any other
    modulus the result is a multiple of it less than one modulus away from
    the resolution, padding the result again changes nothing, and a
    resolution is returned unchanged exactly when it is already a multiple;
    a positive modulus never rounds down and a negative one never up. *)
Theorem pad_resolution_any_modulus (res p : Z) :
  (p = 0 -> pad_resolution res p = Raise ZeroDivisionError)
  /\ (p <> 0 ->
      exists r,
        pad_resolution res p = Ok r
        /\ (p | r) /\ Z.abs (r - res) < Z.abs p
        /\ pad_resolution r p = Ok r
        /\ (r = res <-> (p | res))
        /\ (0 < p -> res <= r) /\ (p < 0 -> r <= res)).
Proof.
  split; [intros ->; reflexivity |].
  intro Hp. unfold pad_resolution.
  destruct (Z.eqb_spec p 0) as [| _]; [contradiction |].
  pose proof (Z.div_mod res p Hp) as Hdm.
  assert (Hmult : forall r, (p | r) -> (if r mod p =? 0 then Ok r
                                         else Ok (r + p - r mod p)) = Ok r).
  { intros r Hr. apply Z.mod_divide in Hr; [| exact Hp]. rewrite Hr. reflexivity. }
  destruct (Z.eqb_spec (res mod p) 0) as [Hz | Hnz].
  - assert (Hdiv : (p | res)) by (apply Z.mod_divide; assumption).
    exists res. repeat split; try lia; try (apply Hmult; exact Hdiv).
    + exact Hdiv.
    + intros _. exact Hdiv.
  - assert (Hdiv : (p | res + p - res mod p)) by (exists (res / p + 1); lia).
    exists (res + p - res mod p). repeat split; try (apply Hmult; exact Hdiv).
    + exact Hdiv.
    + destruct (Z.lt_total p 0) as [Hneg | [-> | Hpos]]; [| contradiction |].
      * pose proof (Z.mod_neg_bound res p Hneg). lia.
      * pose proof (Z.mod_pos_bound res p Hpos). lia.
    + intro E. exfalso. apply Hnz.
      assert (res mod p = p) by lia.
      destruct (Z.lt_total p 0) as [Hneg | [-> | Hpos]]; [| contradiction |].
      * pose proof (Z.mod_neg_bound res p Hneg). lia.
      * pose proof (Z.mod_pos_bound res p Hpos). lia.
    + intro Hd. apply Z.mod_divide in Hd; [contradiction | exact Hp].
    + intro Hpos. pose proof (Z.mod_pos_bound res p Hpos). lia.
    + intro Hneg. pose proof (Z.mod_neg_bound res p Hneg). lia.
Qed.

(** ** The probed stream counts *)

Lemma count_from_nonneg (sub s : string) (skip : nat) : 0 <= count_from sub s skip.
Proof.
  revert skip. induction s as [| c s IH]; intro skip; cbn [count_from]; [lia |].
  destruct skip; [| apply IH].
  destruct (String.prefix sub (String c s)).
  - pose proof (IH (String.length sub - 1)%nat). lia.
  - apply IH.
Qed.

(** X17. Building the stream count map of an input file raises what the
    ffprobe call raises.  When ffprobe answers with a listing, the map has
    exactly the five stream types as keys (looking up anything else raises
    [KeyError]), holds for each type the number of [codec_type=<long name>]
    entries of the listing, and never holds a negative count. *)
Theorem stream_counts_cover_the_types (env : Env) (args : Args) (input_file : string) :
  (forall e,
      probe_stream_types env (ffprobebin args) input_file = Raise e ->
      get_stream_count_map_from_input env args input_file = Raise e)
  /\ (forall listing,
         probe_stream_types env (ffprobebin args) input_file = Ok listing ->
         exists counts,
           get_stream_count_map_from_input env args input_file = Ok counts
           /\ (forall t, In t STREAM_TYPES_SHORT <-> exists c, dict_get counts t = Ok c)
           /\ (forall t, ~ In t STREAM_TYPES_SHORT ->
                 dict_get counts t = Raise (KeyError t))
           /\ (forall t long, dict_get STREAM_TYPES_DICT t = Ok long ->
                 dict_get counts t
                 = Ok (py_count listing ("codec_type=" ++ long)%string))
           /\ (forall t c, dict_get counts t = Ok c -> 0 <= c)).
Proof.
  split; [intros e He; apply stream_count_map_raises; exact He |].
  intros listing Hlisting.
  eexists. split; [apply stream_count_map; exact Hlisting |].
  split; [| split; [| split]].
  - intro t. split.
    + intro Ht. cbn in Ht.
      repeat destruct Ht as [<- | Ht]; try contradiction; eexists; reflexivity.
    + intros [c Hc]. eapply counted_types. exact Hc.
  - intros t Ht. unfold dict_get. cbn [find fst snd].
    repeat match goal with
    | |- context [String.eqb ?k t] =>
        destruct (String.eqb_spec k t) as [<- | _]; [contradiction Ht; cbn; tauto |]
    end.
    reflexivity.
  - intros t long. unfold dict_get at 1.
    cbn [find fst snd STREAM_TYPES_DICT combine STREAM_TYPES_SHORT STREAM_TYPES_LONG].
    repeat match goal with
    | |- context [String.eqb ?k t] =>
        destruct (String.eqb_spec k t) as [<- | _];
          [intro H; injection H as <-; reflexivity |]
    end.
    discriminate.
  - intros t c. unfold dict_get. cbn [find fst snd].
    repeat match goal with
    | |- context [String.eqb ?k t] =>
        destruct (String.eqb_spec k t) as [<- | _];
          [intro H; injection H as <-; apply count_from_nonneg |]
    end.
    discriminate.
Qed.

(** ** Cropping *)

(** X18. With a crop anchor set, the resolved output dimensions never
    exceed the probed input dimensions, whatever was requested. *)
Theorem crop_stays_within_the_input {PF : PyFloat} (env : Env) (args : Args)
  (output_width output_height : Z) (input_file : string)
  (input_width input_height : Z) (vf : list string) (w h : Z) :
  truthy_ostr (crop args) = true ->
  probe_dimensions env args (if sequence args then printf_filename input_file else input_file)
    = Ok (input_height, input_width) ->
  0 <= input_width -> 0 <= input_height ->
  video_filters_from_args env args output_width output_height input_file = Ok (vf, w, h) ->
  w <= input_width /\ h <= input_height.
Proof.
  intros Hcrop Hdim Hw Hh. unfold video_filters_from_args.
  destruct (negb (output_width =? 0) || negb (output_height =? 0)) eqn:Hreq.
  - rewrite Hdim. cbn [bind]. intro H.
    apply bind_ok in H. destruct H as ([[vf1 w1] h1] & Hgeo & H).
    assert (w = w1 /\ h = h1) as [-> ->]
      by (destruct (deshake args); injection H as _ <- <-; auto).
    clear H.
    apply bind_ok in Hgeo. destruct Hgeo as (ar & _ & Hgeo).
    destruct ((input_width =? 0) || (input_height =? 0)); [discriminate |].
    destruct ((input_width =? output_width) || (input_height =? output_height));
      [injection Hgeo as _ <- <-; lia |].
    apply bind_ok in Hgeo. destruct Hgeo as (ow' & _ & Hgeo).
    apply bind_ok in Hgeo. destruct Hgeo as (oh' & _ & Hgeo).
    apply bind_ok in Hgeo. destruct Hgeo as ([[s w2] h2] & Hs & Hgeo).
    injection Hgeo as _ <- <-.
    rewrite Hcrop in Hs. unfold crop_filter in Hs.
    apply bind_ok in Hs. destruct Hs as ([xpos ypos] & _ & Hs).
    injection Hs as _ <- <-.
    destruct (Z.gtb_spec ow' input_width), (Z.gtb_spec oh' input_height); lia.
  - apply orb_false_elim in Hreq. destruct Hreq as [H1 H2].
    apply negb_false_iff, Z.eqb_eq in H1, H2.
    intro H. destruct (deshake args); injection H as _ <- <-; lia.
Qed.

Lemma crop_stays_within_the_input_witness :
  1920 <= 1920 /\ 720 <= 1080.
Proof.
  apply (crop_stays_within_the_input (PF := exact_float)
           (world_of [("in.mkv", two_videos)]) wide_crop 4000 720 "in.mkv" 1920 1080
           ["crop=1920:720:0:180"] 1920 720).
  - reflexivity.
  - reflexivity.
  - lia.
  - lia.
  - vm_compute. reflexivity.
Defined.

(** ** The options of the mapped streams *)

Lemma list_index_nat {A : Type} (l : list A) (k : nat) (a : A) :
  nth_error l k = Some a -> list_index l (Z.of_nat k) = Ok a.
Proof.
  intro H. unfold list_index.
  destruct (Z.ltb_spec (Z.of_nat k) 0); [lia |].
  rewrite Nat2Z.id, H. reflexivity.
Qed.

(** The tokens of a group that is selected: the map, then the options of
    each of its streams in turn. *)
Lemma stream_map_args_closed (spec : string) (stream_num : option Z)
  (first count : Z) (codec_args : list (list string)) (metadata : option string)
  (default_stream : option bool) :
  (Z.to_nat count <= List.length codec_args)%nat ->
  stream_map_args spec 0 false stream_num first count codec_args metadata default_stream
  = Ok (["-map";
         match stream_num with
         | Some n => ("0:" ++ spec ++ ":" ++ str_of_Z n)%string
         | None => ("0:" ++ spec ++ "?")%string
         end]
        ++ flat_map (fun k => stream_options spec (first + Z.of_nat k)
                                (nth k codec_args []) metadata
                                (disposition_of default_stream k))
             (seq 0 (Z.to_nat count))).
Proof.
  intro Hlen. unfold stream_map_args.
  set (d := match stream_num with
            | Some n => ("0:" ++ spec ++ ":" ++ str_of_Z n)%string
            | None => ("0:" ++ spec ++ "?")%string
            end).
  replace (match stream_num with
           | Some n => ["-map"] ++ [(str_of_Z 0 ++ ":" ++ spec ++ ":" ++ str_of_Z n)%string]
           | None => ["-map"] ++ [(str_of_Z 0 ++ ":" ++ spec ++ "?")%string]
           end) with ["-map"; d] by (destruct stream_num; reflexivity).
  destruct codec_args as [| ca0 cas] eqn:Hcas.
  { cbn [Datatypes.length] in Hlen.
    replace (Z.to_nat count) with 0%nat by lia. reflexivity. }
  rewrite <- Hcas in *. clear Hcas ca0 cas.
  unfold range.
  match goal with
  | |- context [for_each _ ?body _] => set (loop := body)
  end.
  assert (Hstep : forall cl st k ca,
             list_index codec_args k = Ok ca ->
             loop (cl, st) k
             = Ok (cl ++ stream_options spec (first + k) ca metadata
                           match st with
                           | Some d0 => Some (if d0 then "default" else "none")
                           | None => None
                           end,
                   match st with Some _ => Some false | None => None end)).
  { intros cl st k ca Hca. unfold loop, stream_options. rewrite Hca. cbn [bind].
    destruct st as [[|] |], metadata as [mt |]; try destruct (truthy_str mt);
      cbn [app]; rewrite ?app_nil_r; repeat rewrite <- app_assoc; reflexivity. }
  clearbody loop.
  assert (Hloop : forall m a cl,
             (a + m <= List.length codec_args)%nat ->
             for_each (map Z.of_nat (seq a m)) loop (cl, default_state default_stream a)
             = Ok (cl ++ flat_map (fun k => stream_options spec (first + Z.of_nat k)
                                              (nth k codec_args []) metadata
                                              (disposition_of default_stream k))
                           (seq a m),
                   default_state default_stream (a + m))).
  { induction m as [| m IH]; intros a cl Hm.
    - cbn [seq map for_each flat_map]. rewrite app_nil_r, Nat.add_0_r. reflexivity.
    - cbn [seq map for_each flat_map].
      destruct (nth_error codec_args a) as [ca |] eqn:Hca;
        [| apply nth_error_None in Hca; lia].
      rewrite (Hstep _ _ _ _ (list_index_nat _ _ _ Hca)). cbn [bind].
      rewrite (nth_error_nth _ _ [] Hca).
      replace (match default_state default_stream a with
               | Some _ => Some false
               | None => None
               end) with (default_state default_stream (S a))
        by (destruct default_stream; cbn; rewrite ?andb_false_r; reflexivity).
      rewrite IH by lia.
      replace (S a + m)%nat with (a + S m)%nat by lia.
      rewrite <- app_assoc. repeat f_equal.
      destruct default_stream; reflexivity. }
  specialize (Hloop (Z.to_nat count) 0%nat ["-map"; d] ltac:(lia)).
  replace (default_state default_stream 0) with default_stream in Hloop
    by (destruct default_stream as [[|] |]; reflexivity).
  rewrite Hloop. reflexivity.
Qed.


Lemma stream_map_closed (env : Env) (primary : bool) (args : Args) (t : string)
  (n first : Z) (file : string) (toks : list string) :
  stream_type_bool (nocopy args) t = false ->
  stream_map env primary args t n first file = Ok toks ->
  exists encoder_args encoder_list,
    stream_codec_to_encoder t
      (if primary then stream_type_arg (codec args) t
       else stream_type_arg (addcodec args) t) args = Ok encoder_args
    /\ List.length encoder_list = Z.to_nat n
    /\ (forall ca, In ca encoder_list -> ca = ["copy"] \/ ca = encoder_args)
    /\ toks = ["-map"; select_form args t]
              ++ flat_map (fun k => stream_options t (first + Z.of_nat k)
                                      (nth k encoder_list [])
                                      (language_tag primary args t)
                                      (disposition_of (group_default primary args t) k))
                   (seq 0 (Z.to_nat n)).
Proof.
  intros Hnc H. unfold stream_map in H.
  apply bind_ok in H. destruct H as (encoder_args & Henc & H).
  apply bind_ok in H. destruct H as (encoder_list & Hlist & H).
  apply encoder_list_spec in Hlist. destruct Hlist as [Hlen Hlist].
  exists encoder_args, encoder_list.
  split; [exact Henc |]. split; [exact Hlen |]. split; [exact Hlist |].
  rewrite Hnc in H.
  replace (if primary
           then if stream_type_bool (adddefault args) t then Some false else None
           else if stream_type_bool (adddefault args) t then Some true else None)
    with (group_default primary args t) in H
    by (unfold group_default; destruct primary, (stream_type_bool (adddefault args) t);
        reflexivity).
  fold (language_tag primary args t) in H.
  rewrite stream_map_args_closed in H by (rewrite Hlen; lia).
  injection H as <-. reflexivity.
Qed.

Lemma encoder_words_of_video (c : option string) (args : Args) (enc : list string) :
  video_codec_to_encoder c args = Ok enc -> forallb encoder_word enc = true.
Proof.
  unfold video_codec_to_encoder. destruct c as [c |].
  - destruct (negb (in_list c VIDEO_CODECS)); discriminate.
  - intro H. injection H as <-. reflexivity.
Qed.

Lemma encoder_words_of_audio (c : option string) (args : Args) (enc : list string) :
  audio_codec_to_encoder c args = Ok enc -> forallb encoder_word enc = true.
Proof.
  unfold audio_codec_to_encoder. destruct c as [c |].
  - destruct (in_list c AUDIO_CODECS) eqn:Hin; cbn [negb]; [| discriminate].
    assert (Hc : encoder_word c = true).
    { unfold encoder_word. rewrite Hin. rewrite orb_true_r. reflexivity. }
    cbv zeta.
    destruct (String.eqb "opus" c), (String.eqb "dts" c), (String.eqb "mp3" c),
      (String.eqb "wav" c), (stereo args), (mono args);
      intro H; injection H as <-; cbn [forallb app]; rewrite ?Hc; reflexivity.
  - intro H. injection H as <-. reflexivity.
Qed.

Lemma encoder_words_of_subtitle (c : option string) (args : Args) (enc : list string) :
  subtitle_codec_to_encoder c args = Ok enc -> forallb encoder_word enc = true.
Proof.
  unfold subtitle_codec_to_encoder. destruct c as [c |].
  - destruct (in_list c SUBTITLE_CODECS) eqn:Hin; cbn [negb]; [| discriminate].
    assert (Hc : encoder_word c = true).
    { unfold encoder_word. rewrite Hin. rewrite !orb_true_r. reflexivity. }
    destruct (String.eqb "sub" c); intro H; injection H as <-;
      cbn [forallb]; rewrite ?Hc; reflexivity.
  - intro H. injection H as <-. reflexivity.
Qed.

Lemma encoder_words (t : string) (c : option string) (args : Args) (enc : list string) :
  stream_codec_to_encoder t c args = Ok enc -> forallb encoder_word enc = true.
Proof.
  unfold stream_codec_to_encoder. rewrite stream_type_bool_pairs.
  intro H. apply bind_ok in H. destruct H as (cmdline & Henc & H).
  injection H as <-.
  destruct (String.eqb "v" t); [eapply encoder_words_of_video; exact Henc |].
  destruct (String.eqb "a" t); [eapply encoder_words_of_audio; exact Henc |].
  destruct (String.eqb "s" t); [eapply encoder_words_of_subtitle; exact Henc |].
  injection Henc as <-. reflexivity.
Qed.

(** An encoder word is neither a codec option nor a disposition option. *)
Lemma encoder_word_plain (w : string) :
  encoder_word w = true ->
  starts_with "-c:" w = false /\ starts_with "-disposition:" w = false.
Proof.
  unfold encoder_word. intro H.
  apply orb_prop in H. destruct H as [H | H];
    [apply orb_prop in H; destruct H as [H | H] |];
    apply in_list_in in H; cbn in H;
    repeat destruct H as [<- | H]; try contradiction; split; reflexivity.
Qed.

Lemma language_tag_plain (primary : bool) (args : Args) (t m : string) :
  language_tag primary args t = Some m ->
  truthy_str m = true
  /\ starts_with "-c:" m = false /\ starts_with "-disposition:" m = false.
Proof.
  unfold language_tag.
  destruct (if primary then _ else _) as [l |]; [| discriminate].
  destruct (truthy_str l); [| discriminate].
  intro H. injection H as <-. repeat split; reflexivity.
Qed.

Lemma stream_map_ok_closed (env : Env) (primary : bool) (args : Args) (t : string)
  (n first : Z) (file : string) (toks : list string) :
  stream_type_bool (nocopy args) t = false ->
  stream_map env primary args t n first file = Ok toks ->
  exists encoder_list,
    (forall k, forallb encoder_word (nth k encoder_list []) = true)
    /\ toks = ["-map"; select_form args t]
              ++ flat_map (fun k => stream_options t (first + Z.of_nat k)
                                      (nth k encoder_list [])
                                      (language_tag primary args t)
                                      (disposition_of (group_default primary args t) k))
                   (seq 0 (Z.to_nat n)).
Proof.
  intros Hnc H. apply stream_map_closed in H; [| exact Hnc].
  destruct H as (encoder_args & encoder_list & Henc & _ & Hlist & ->).
  exists encoder_list. split; [| reflexivity].
  intro k. destruct (nth_in_or_default k encoder_list []) as [Hin | ->];
    [| reflexivity].
  destruct (Hlist _ Hin) as [-> | ->]; [reflexivity |].
  eapply encoder_words. exact Henc.
Qed.

Lemma filter_none {A : Type} (f : A -> bool) (l : list A) :
  forallb (fun x => negb (f x)) l = true -> filter f l = [].
Proof.
  induction l as [| x l IH]; [reflexivity |].
  cbn [forallb filter]. intro H. apply andb_prop in H. destruct H as [Hx Hl].
  apply negb_true_iff in Hx. rewrite Hx. apply IH. exact Hl.
Qed.

Lemma encoder_words_are_no_codec_options (l : list string) :
  forallb encoder_word l = true ->
  forallb (fun x => negb (starts_with "-c:" x)) l = true
  /\ forallb (fun x => negb (starts_with "-disposition:" x)) l = true.
Proof.
  intro H. split; apply forallb_forall; intros x Hx;
    apply (proj1 (forallb_forall _ _) H) in Hx;
    apply encoder_word_plain in Hx; destruct Hx as [H1 H2];
    rewrite ?H1, ?H2; reflexivity.
Qed.

Lemma stream_options_codec_option (primary : bool) (args : Args) (t : string) (out : Z)
  (ca : list string) (ds : option bool) (k : nat) :
  forallb encoder_word ca = true ->
  options_named "-c:" (stream_options t out ca (language_tag primary args t)
                         (disposition_of ds k))
  = [codec_option t out].
Proof.
  intro Hca. unfold options_named, stream_options.
  rewrite !filter_app.
  rewrite (filter_none _ ca) by (apply encoder_words_are_no_codec_options; exact Hca).
  assert (Hd : filter (starts_with "-c:")
                 match disposition_of ds k with
                 | Some d => [("-disposition:" ++ t ++ ":" ++ str_of_Z out)%string; d]
                 | None => []
                 end = []).
  { unfold disposition_of. destruct ds as [d |]; [| reflexivity].
    destruct (d && Nat.eqb k 0); reflexivity. }
  assert (Hm : filter (starts_with "-c:")
                 match language_tag primary args t with
                 | Some m => if truthy_str m
                             then [("-metadata:s:" ++ t ++ ":" ++ str_of_Z out)%string; m]
                             else []
                 | None => []
                 end = []).
  { destruct (language_tag primary args t) as [m |] eqn:Hm; [| reflexivity].
    apply language_tag_plain in Hm. destruct Hm as (-> & Hc & _).
    cbn [filter]. rewrite Hc. reflexivity. }
  rewrite Hd, Hm. reflexivity.
Qed.

Lemma options_named_app (prefix : string) (l m : list string) :
  options_named prefix (l ++ m) = options_named prefix l ++ options_named prefix m.
Proof. apply filter_app. Qed.

Lemma options_of_streams (primary : bool) (args : Args) (t : string) (first : Z)
  (cas : nat -> list string) (ds : option bool) (ks : list nat) :
  (forall k, forallb encoder_word (cas k) = true) ->
  options_named "-c:"
    (flat_map (fun k => stream_options t (first + Z.of_nat k) (cas k)
                          (language_tag primary args t) (disposition_of ds k)) ks)
  = map (fun k => codec_option t (first + Z.of_nat k)) ks.
Proof.
  intro Hcas. induction ks as [| k ks IH]; [reflexivity |].
  cbn [flat_map map]. rewrite options_named_app, IH.
  rewrite (stream_options_codec_option primary args t _ _ ds k (Hcas k)). reflexivity.
Qed.

(** The codec options of one group: those of its streams, numbered from
    [first] on. *)
Lemma group_codec_options (env : Env) (primary : bool) (args : Args) (t : string)
  (guard n first : Z) (file : string) (toks : list string) :
  stream_type_bool (nocopy args) t = false ->
  (if negb (guard =? 0) then stream_map env primary args t n first file else Ok [])
  = Ok toks ->
  options_named "-c:" toks
  = if guard =? 0 then []
    else map (fun k => codec_option t (first + Z.of_nat k)) (seq 0 (Z.to_nat n)).
Proof.
  intros Hnc. destruct (guard =? 0); cbn [negb].
  - intro H. injection H as <-. reflexivity.
  - intro H. apply stream_map_ok_closed in H; [| exact Hnc].
    destruct H as (encoder_list & Hwords & ->).
    rewrite options_named_app.
    assert (Hhead : options_named "-c:" ["-map"; select_form args t] = []).
    { unfold select_form. destruct (stream_type_arg (singlestream args) t); reflexivity. }
    rewrite Hhead. cbn [app].
    apply (options_of_streams primary args t first (fun k => nth k encoder_list [])).
    exact Hwords.
Qed.

Lemma seq_from (a b : nat) : seq a b = map (Nat.add a) (seq 0 b).
Proof.
  revert a. induction b as [| b IH]; intro a; [reflexivity |].
  cbn [seq map]. rewrite Nat.add_0_r. f_equal.
  rewrite <- (seq_shift b 0), map_map, (IH (S a)).
  apply map_ext. intro k. lia.
Qed.

Lemma numbered_from (t : string) (first : Z) (a b : nat) :
  first = Z.of_nat a ->
  map (fun k => codec_option t (Z.of_nat k)) (seq 0 a)
  ++ map (fun k => codec_option t (first + Z.of_nat k)) (seq 0 b)
  = map (fun k => codec_option t (Z.of_nat k)) (seq 0 (a + b)).
Proof.
  intros ->. rewrite seq_app, map_app. f_equal.
  cbn [plus]. rewrite (seq_from a b), map_map.
  apply map_ext. intro k. rewrite Nat2Z.inj_add. reflexivity.
Qed.

Lemma guarded_options (t : string) (guard first : Z) (n : nat) :
  (guard = 0 -> n = 0%nat) ->
  (if guard =? 0 then []
   else map (fun k => codec_option t (first + Z.of_nat k)) (seq 0 n))
  = map (fun k => codec_option t (first + Z.of_nat k)) (seq 0 n).
Proof.
  intro H. destruct (Z.eqb_spec guard 0) as [E | _]; [| reflexivity].
  rewrite (H E). reflexivity.
Qed.

Lemma added_stream_count_nonneg (env : Env) (args : Args) (t : string) (n : Z) :
  added_stream_count env args t = Ok n -> 0 <= n.
Proof.
  unfold added_stream_count.
  destruct (stream_type_arg (addfile args) t) as [add_file |];
    [| intro H; injection H as <-; lia].
  destruct (truthy_str add_file); [| intro H; injection H as <-; lia].
  intro H. apply bind_ok in H. destruct H as (long & _ & H).
  apply bind_ok in H. destruct H as (count & Hcount & H).
  unfold probe_stream_count in Hcount.
  apply bind_ok in Hcount. destruct Hcount as (listing & _ & Hcount).
  injection Hcount as <-.
  destruct (stream_type_arg (addstream args) t) as [k |].
  - destruct (k + 1 >? _); [discriminate H | injection H as <-; lia].
  - injection H as <-. apply count_from_nonneg.
Qed.

(** X19. Within a stream type that is copied, the output streams are
    numbered consecutively from 0 across the groups that are mapped, in the
    order they are mapped: the codec options of the type are
    [-c:<type>:0], ..., [-c:<type>:n-1], where [n] counts the streams taken
    from the added file and those taken from the input file.  Under
    add-first the primary group is mapped only when the probed count of the
    type is not zero, so a single-stream request on a type the input file
    has no stream of (accepted when the index is negative) adds nothing to
    [n]. *)
Theorem output_streams_are_numbered_consecutively (env : Env) (args : Args)
  (input_file : string) (counts : list (string * Z)) (t : string)
  (input_streams input_add_streams probed : Z) (toks : list string) :
  stream_type_bool (nocopy args) t = false ->
  get_stream_count_map_from_input env args input_file = Ok counts ->
  dict_get counts t = Ok probed ->
  added_stream_count env args t = Ok input_add_streams ->
  primary_stream_count args counts t = Ok input_streams ->
  stream_type_maps env args input_file counts t = Ok toks ->
  options_named "-c:" toks
  = map (fun k => codec_option t (Z.of_nat k))
      (seq 0 (Z.to_nat
                (input_add_streams
                 + if stream_type_bool (addfirst args) t && (probed =? 0)
                   then 0 else input_streams))).
Proof.
  intros Hnc Hcounts Hprobed Hadd Hprim.
  pose proof (added_stream_count_nonneg env args t _ Hadd) as Hna.
  assert (Hp0 : 0 <= probed).
  { apply stream_count_map_probed in Hcounts. destruct Hcounts as (listing & _ & ->).
    revert Hprobed. unfold dict_get. cbn [find fst snd].
    repeat match goal with
    | |- context [String.eqb ?k t] =>
        destruct (String.eqb k t);
          [intro H; injection H as <-; apply count_from_nonneg |]
    end.
    discriminate. }
  assert (Hnp : 0 <= input_streams).
  { revert Hprim. unfold primary_stream_count. rewrite Hnc, Hprobed. cbn [negb bind].
    destruct (stream_type_arg (singlestream args) t) as [k |].
    - destruct (k + 1 >? probed); [discriminate |].
      intro E. injection E as <-. lia.
    - intro E. injection E as <-. exact Hp0. }
  unfold stream_type_maps. rewrite Hadd, Hprim. cbn [bind].
  destruct (stream_type_bool (addfirst args) t); cbn [negb andb].
  - intro H. apply bind_ok in H. destruct H as (a & Ha & H).
    rewrite Hprobed in H. cbn [bind] in H.
    apply bind_ok in H. destruct H as (p & Hp & H). injection H as <-.
    rewrite options_named_app.
    rewrite (group_codec_options _ _ _ _ _ _ _ _ _ Hnc Ha).
    rewrite (group_codec_options _ _ _ _ _ _ _ _ _ Hnc Hp).
    rewrite (guarded_options t input_add_streams 0) by (intros ->; reflexivity).
    destruct (probed =? 0).
    + rewrite app_nil_r, Z.add_0_r. reflexivity.
    + rewrite Z2Nat.inj_add by lia.
      apply (numbered_from t input_add_streams). lia.
  - intro H. apply bind_ok in H. destruct H as (p & Hp & H).
    apply bind_ok in H. destruct H as (a & Ha & H). injection H as <-.
    rewrite options_named_app.
    rewrite (group_codec_options _ _ _ _ _ _ _ _ _ Hnc Hp).
    rewrite (group_codec_options _ _ _ _ _ _ _ _ _ Hnc Ha).
    rewrite (guarded_options t input_streams 0) by (intros ->; reflexivity).
    rewrite (guarded_options t input_add_streams) by (intros ->; reflexivity).
    replace (input_add_streams + input_streams) with (input_streams + input_add_streams)
      by lia.
    rewrite Z2Nat.inj_add by lia.
    apply (numbered_from t input_streams). lia.
Qed.

Lemma output_streams_are_numbered_consecutively_witness :
  options_named "-c:" ["-map"; "0:v?"; "-c:v:0"; "copy"; "-c:v:1"; "copy"]
  = map (fun k => codec_option "v" (Z.of_nat k)) (seq 0 (Z.to_nat (0 + 2)))
  /\ options_named "-c:" ["-map"; "0:a:-1"; "-c:a:0"; "copy"; "-c:a:1"; "copy"]
     = map (fun k => codec_option "a" (Z.of_nat k)) (seq 0 (Z.to_nat (2 + 0))).
Proof.
  split.
  - apply (output_streams_are_numbered_consecutively
             (world_of [("in.mkv", two_videos)]) (default_args "in.mkv" "out.mkv")
             "in.mkv" [("v", 2); ("a", 0); ("s", 0); ("t", 0); ("d", 0)] "v" 2 0 2);
      reflexivity.
  - apply (output_streams_are_numbered_consecutively
             (world_of [("in.mkv", two_videos); ("add.mka", two_audios)])
             added_first_last_audio
             "in.mkv" [("v", 2); ("a", 0); ("s", 0); ("t", 0); ("d", 0)] "a" 1 2 0);
      reflexivity.
Defined.

(** ** Dispositions *)

Lemma values_of_skip (prefix x : string) (l : list string) :
  starts_with prefix x = false -> values_of prefix (x :: l) = values_of prefix l.
Proof.
  intro H. destruct l as [| y l]; cbn [values_of]; [reflexivity |].
  rewrite H. reflexivity.
Qed.

Lemma values_of_hit (prefix x y : string) (l : list string) :
  starts_with prefix x = true ->
  values_of prefix (x :: y :: l) = y :: values_of prefix (y :: l).
Proof.
  intro H. cbn [values_of]. rewrite H. reflexivity.
Qed.

Lemma values_of_skip_all (prefix : string) (l m : list string) :
  forallb (fun x => negb (starts_with prefix x)) l = true ->
  values_of prefix (l ++ m) = values_of prefix m.
Proof.
  induction l as [| x l IH]; [reflexivity |].
  cbn [forallb app]. intro H. apply andb_prop in H. destruct H as [Hx Hl].
  rewrite values_of_skip by (apply negb_true_iff; exact Hx).
  apply IH. exact Hl.
Qed.

Lemma stream_options_disposition (primary : bool) (args : Args) (t : string) (out : Z)
  (ca : list string) (ds : option bool) (k : nat) (m : list string) :
  forallb encoder_word ca = true ->
  values_of "-disposition:"
    (stream_options t out ca (language_tag primary args t) (disposition_of ds k) ++ m)
  = match disposition_of ds k with Some d => [d] | None => [] end
    ++ values_of "-disposition:" m.
Proof.
  intro Hca. unfold stream_options. rewrite <- !app_assoc. cbn [app].
  rewrite values_of_skip by reflexivity.
  rewrite values_of_skip_all by (apply encoder_words_are_no_codec_options; exact Hca).
  assert (Hm : values_of "-disposition:"
                 (match language_tag primary args t with
                  | Some mt =>
                      if truthy_str mt
                      then [("-metadata:s:" ++ t ++ ":" ++ str_of_Z out)%string; mt]
                      else []
                  | None => []
                  end ++ m) = values_of "-disposition:" m).
  { destruct (language_tag primary args t) as [mt |] eqn:Hmt; [| reflexivity].
    apply language_tag_plain in Hmt. destruct Hmt as (-> & _ & Hd).
    cbn [app]. rewrite values_of_skip by reflexivity.
    rewrite values_of_skip by exact Hd. reflexivity. }
  unfold disposition_of. destruct ds as [d |]; [| exact Hm].
  cbn [app]. rewrite values_of_hit by reflexivity. f_equal.
  rewrite values_of_skip by (destruct (d && Nat.eqb k 0); reflexivity).
  exact Hm.
Qed.

Lemma dispositions_of_streams (primary : bool) (args : Args) (t : string) (first : Z)
  (cas : nat -> list string) (ds : option bool) (ks : list nat) :
  (forall k, forallb encoder_word (cas k) = true) ->
  values_of "-disposition:"
    (flat_map (fun k => stream_options t (first + Z.of_nat k) (cas k)
                          (language_tag primary args t) (disposition_of ds k)) ks)
  = flat_map (fun k => match disposition_of ds k with Some d => [d] | None => [] end) ks.
Proof.
  intro Hcas. induction ks as [| k ks IH]; [reflexivity |].
  cbn [flat_map]. rewrite stream_options_disposition by apply Hcas.
  rewrite IH. reflexivity.
Qed.

(** X20. With [-adddefault] set for a stream type, each stream of a group
    that is selected is given exactly one disposition: the first stream of
    the added group is marked default and every other stream, of either
    group, is marked none.  Without it no disposition is written. *)
Theorem first_added_stream_is_the_default (env : Env) (primary : bool) (args : Args)
  (t : string) (n first : Z) (file : string) (toks : list string) :
  stream_type_bool (nocopy args) t = false ->
  stream_map env primary args t n first file = Ok toks ->
  values_of "-disposition:" toks
  = if stream_type_bool (adddefault args) t
    then map (fun k => if negb primary && Nat.eqb k 0 then "default" else "none")
           (seq 0 (Z.to_nat n))
    else [].
Proof.
  intros Hnc H. apply stream_map_ok_closed in H; [| exact Hnc].
  destruct H as (encoder_list & Hwords & ->).
  cbn [app].
  rewrite values_of_skip by reflexivity.
  rewrite values_of_skip
    by (unfold select_form; destruct (stream_type_arg (singlestream args) t); reflexivity).
  rewrite (dispositions_of_streams primary args t first (fun k => nth k encoder_list []))
    by exact Hwords.
  unfold group_default, disposition_of.
  destruct (stream_type_bool (adddefault args) t).
  - induction (seq 0 (Z.to_nat n)) as [| k ks IH]; [reflexivity |].
    cbn [flat_map map app]. rewrite IH. reflexivity.
  - induction (seq 0 (Z.to_nat n)); [reflexivity | assumption].
Qed.

Lemma first_added_stream_is_the_default_witness :
  values_of "-disposition:"
    ["-map"; "0:a?"; "-c:a:0"; "aac"; "-disposition:a:0"; "default";
     "-c:a:1"; "aac"; "-disposition:a:1"; "none"]
  = if stream_type_bool (adddefault added_default_audio) "a"
    then map (fun k => if negb false && Nat.eqb k 0 then "default" else "none")
           (seq 0 (Z.to_nat 2))
    else [].
Proof.
  apply (first_added_stream_is_the_default (world_of [("add.mka", two_audios)]) false
           added_default_audio "a" 2 0 "add.mka").
  - reflexivity.
  - vm_compute. reflexivity.
Defined.

(** ** Strings: the last occurrence of a character and slices *)

Lemma rfind_from_shift (c : ascii) (s : string) :
  forall i last,
    rfind_from c s i last
    = if 0 <=? py_rfind c s then i + py_rfind c s else last.
Proof.
  unfold py_rfind. induction s as [| a s IH]; intros i last; [reflexivity |].
  cbn [rfind_from]. rewrite (IH (i + 1)), (IH (0 + 1)).
  destruct (0 <=? rfind_from c s 0 (-1)) eqn:Hs.
  - apply Z.leb_le in Hs.
    destruct (Z.leb_spec 0 (0 + 1 + rfind_from c s 0 (-1))); lia.
  - destruct (Ascii.eqb a c).
    + cbn. lia.
    + reflexivity.
Qed.

Lemma rfind_bounds (c : ascii) (s : string) : -1 <= py_rfind c s < str_len s.
Proof.
  unfold str_len. induction s as [| a s IH].
  - cbn. lia.
  - unfold py_rfind in *. cbn [rfind_from String.length]. rewrite rfind_from_shift.
    unfold py_rfind.
    destruct (Z.leb_spec 0 (rfind_from c s 0 (-1))); [lia |].
    destruct (Ascii.eqb a c); lia.
Qed.

Lemma str_len_app (a b : string) : str_len (a ++ b) = str_len a + str_len b.
Proof.
  unfold str_len. induction a as [| x a IH]; [reflexivity |].
  cbn [append String.length]. lia.
Qed.

Lemma rfind_app (c : ascii) (a b : string) :
  py_rfind c (a ++ b)
  = if 0 <=? py_rfind c b then str_len a + py_rfind c b else py_rfind c a.
Proof.
  unfold py_rfind at 1.
  assert (H : forall i last,
             rfind_from c (a ++ b) i last
             = rfind_from c b (i + str_len a) (rfind_from c a i last)).
  { unfold str_len. induction a as [| x a IH]; intros i last.
    - cbn. rewrite Z.add_0_r. reflexivity.
    - cbn [append rfind_from String.length]. rewrite IH. f_equal. lia. }
  rewrite H, rfind_from_shift. reflexivity.
Qed.

Lemma substring_all (s : string) : String.substring 0 (String.length s) s = s.
Proof.
  induction s as [| a s IH]; [reflexivity |]. cbn. rewrite IH. reflexivity.
Qed.

Lemma substring_none (n : nat) (s : string) : String.substring n 0 s = "".
Proof.
  revert n. induction s as [| a s IH]; intro n; destruct n; cbn; auto.
Qed.

Lemma substring_app_l (a b : string) :
  String.substring 0 (String.length a) (a ++ b) = a.
Proof.
  induction a as [| x a IH]; [apply substring_none |]. cbn. rewrite IH. reflexivity.
Qed.

Lemma substring_app_r (a b : string) (j m : nat) :
  String.substring (String.length a + j) m (a ++ b) = String.substring j m b.
Proof.
  induction a as [| x a IH]; [reflexivity |]. cbn. exact IH.
Qed.

(** [s[:k]] and [s[k:]] for a position inside [s = a ++ b]. *)
Lemma slice_to_app (a b : string) : py_slice_to (a ++ b) (str_len a) = a.
Proof.
  unfold py_slice_to, py_slice, slice_index. rewrite str_len_app.
  pose proof (Zle_0_nat (String.length a)). pose proof (Zle_0_nat (String.length b)).
  unfold str_len in *.
  destruct (Z.ltb_spec 0 0); [lia |]. destruct (Z.ltb_spec (Z.of_nat (String.length a)) 0);
    [lia |].
  rewrite Z.min_l, Z.min_l by lia.
  rewrite Z.sub_0_r, Nat2Z.id. apply substring_app_l.
Qed.

Lemma slice_from_app (a b : string) : py_slice_from (a ++ b) (str_len a) = b.
Proof.
  unfold py_slice_from, py_slice, slice_index. rewrite str_len_app.
  pose proof (Zle_0_nat (String.length a)). pose proof (Zle_0_nat (String.length b)).
  unfold str_len in *.
  destruct (Z.ltb_spec (Z.of_nat (String.length a)) 0); [lia |].
  destruct (Z.ltb_spec (Z.of_nat (String.length a) + Z.of_nat (String.length b)) 0);
    [lia |].
  rewrite Z.min_l, Z.min_r by lia.
  replace (Z.of_nat (String.length a) + Z.of_nat (String.length b)
           - Z.of_nat (String.length a)) with (Z.of_nat (String.length b)) by lia.
  rewrite !Nat2Z.id.
  rewrite <- (Nat.add_0_r (String.length a)), substring_app_r.
  apply substring_all.
Qed.

Lemma split_at (s : string) (k : nat) :
  (k <= String.length s)%nat ->
  exists a b, s = (a ++ b)%string /\ String.length a = k.
Proof.
  revert k. induction s as [| x s IH]; intros k Hk.
  - exists "", "". cbn in *. split; [reflexivity | lia].
  - destruct k as [| k].
    + exists "", (String x s). split; reflexivity.
    + destruct (IH k) as (a & b & -> & Ha); [cbn in Hk; lia |].
      exists (String x a), b. cbn. split; [reflexivity | lia].
Qed.

Lemma slice_index_idem (len k : Z) :
  0 <= len -> slice_index len (slice_index len k) = slice_index len k.
Proof.
  intro Hlen. unfold slice_index.
  destruct (Z.ltb_spec k 0).
  - destruct (Z.ltb_spec (Z.max 0 (k + len)) 0); lia.
  - destruct (Z.ltb_spec (Z.min k len) 0); lia.
Qed.

Lemma slice_to_normal (s : string) (k : Z) :
  py_slice_to s k = py_slice_to s (slice_index (str_len s) k).
Proof.
  unfold py_slice_to, py_slice.
  rewrite slice_index_idem by (unfold str_len; lia). reflexivity.
Qed.

Lemma slice_from_normal (s : string) (k : Z) :
  py_slice_from s k = py_slice_from s (slice_index (str_len s) k).
Proof.
  unfold py_slice_from, py_slice.
  rewrite slice_index_idem by (unfold str_len; lia). reflexivity.
Qed.

(** Python's [s[:k] + s[k:] == s], for every integer [k]. *)
Lemma slices_rejoin (s : string) (k : Z) :
  (py_slice_to s k ++ py_slice_from s k)%string = s.
Proof.
  rewrite (slice_to_normal s k), (slice_from_normal s k).
  remember (slice_index (str_len s) k) as i eqn:Hidef.
  assert (Hi : 0 <= i <= Z.of_nat (String.length s)).
  { subst i. unfold slice_index, str_len.
    pose proof (Zle_0_nat (String.length s)). destruct (Z.ltb_spec k 0); lia. }
  destruct (split_at s (Z.to_nat i)) as (a & b & Hs & Ha); [lia |].
  replace i with (str_len a) by (unfold str_len; lia).
  rewrite Hs, slice_to_app, slice_from_app. reflexivity.
Qed.

Lemma append_assoc' (a b c : string) : ((a ++ b) ++ c = a ++ (b ++ c))%string.
Proof.
  induction a as [| x a IH]; [reflexivity |]. cbn. rewrite IH. reflexivity.
Qed.

Lemma slice_from_inside (d t : string) (j : Z) :
  0 <= j <= str_len t ->
  py_slice_from (d ++ t) (str_len d + j) = py_slice_from t j.
Proof.
  intro Hj. unfold str_len in Hj.
  destruct (split_at t (Z.to_nat j)) as (t1 & t2 & -> & H1); [lia |].
  replace j with (str_len t1) by (unfold str_len; lia).
  rewrite <- str_len_app, <- append_assoc', !slice_from_app. reflexivity.
Qed.

(** ** The output file name *)

Lemma extension_of_the_name (file : string) :
  char_in "." (path_tail file) = true ->
  py_slice_from file (py_rfind "." file)
  = py_slice_from (path_tail file) (py_rfind "." (path_tail file)).
Proof.
  unfold char_in, path_tail. intro Hdot. apply Z.leb_le in Hdot.
  set (k := py_rfind "/" file + 1) in *.
  pose proof (slices_rejoin file k) as Hsplit.
  set (d := py_slice_to file k) in *. set (t := py_slice_from file k) in *.
  pose proof (rfind_bounds "." t) as Hb.
  rewrite <- Hsplit at 1 2.
  rewrite rfind_app.
  destruct (Z.leb_spec 0 (py_rfind "." t)); [| lia].
  apply slice_from_inside. lia.
Qed.

(** X21. When the output is a directory and no container is requested, the
    output file is that directory joined with the name of the input file
    itself: stripping the extension and appending the input's extension
    give the name back. *)
Theorem output_in_a_directory_keeps_the_name (env : Env) (args : Args) (file : string) :
  isdir env (output args) = true ->
  truthy_ostr (container args) = false ->
  char_in "." (path_tail file) = true ->
  output_path env args (path_tail file) (get_container_extension args file)
  = path_join (output args) (path_tail file).
Proof.
  intros Hdir Hcont Hdot. unfold output_path. rewrite Hdir.
  assert (Hext : get_container_extension args file
                 = py_slice_from file (py_rfind "." file)).
  { unfold get_container_extension. destruct (container args) as [c |]; [| reflexivity].
    cbn in Hcont. rewrite Hcont. reflexivity. }
  rewrite Hext, extension_of_the_name by exact Hdot.
  rewrite slices_rejoin. reflexivity.
Qed.

Lemma output_in_a_directory_keeps_the_name_witness :
  output_path (world_of []) (default_args "clips/a.b.mkv" "out") (path_tail "clips/a.b.mkv")
    (get_container_extension (default_args "clips/a.b.mkv" "out") "clips/a.b.mkv")
  = path_join (output (default_args "clips/a.b.mkv" "out")) (path_tail "clips/a.b.mkv").
Proof.
  apply (output_in_a_directory_keeps_the_name (world_of [])
           (default_args "clips/a.b.mkv" "out") "clips/a.b.mkv"); reflexivity.
Defined.

Lemma no_char_rfind (c : ascii) (s : string) :
  char_in c s = false -> py_rfind c s = -1.
Proof.
  unfold char_in. intro H. apply Z.leb_gt in H.
  pose proof (rfind_bounds c s). lia.
Qed.

Section OutputName.
Context {PF : PyFloat}.
Variables (env : Env) (args : Args).

Lemma built_output_name (file filename extension : string) (w h : Z)
  (counts : list (string * Z)) (cmdline : list string) (out sfx : string) :
  build_cmdline env args file filename extension w h counts
  = Ok (Built cmdline out (Some sfx)) ->
  out = (py_slice_to (output_path env args filename extension)
           (py_rfind "." (output_path env args filename extension))
         ++ sfx
         ++ py_slice_from (output_path env args filename extension)
              (py_rfind "." (output_path env args filename extension)))%string
  /\ exists body, cmdline = body ++ [out].
Proof.
  unfold build_cmdline. rewrite secondary_inputs_unchanged. cbn [bind].
  intro H. apply bind_ok in H. destruct H as (cmdline1 & _ & H).
  set (o := output_path env args filename extension) in *.
  assert (Hsfx : forall ow oh body,
             (' (output_file, suffix_used) <-
                (if suffix args
                 then
                   suffix <- suffix_str args ow oh ;;
                   Ok ((py_slice_to o (py_rfind "." o) ++ suffix
                          ++ py_slice_from o (py_rfind "." o))%string, Some suffix)
                 else Ok (o, None)) ;;
              Ok (Built (body ++ [output_file]) output_file suffix_used))
             = Ok (Built cmdline out (Some sfx)) ->
             out = (py_slice_to o (py_rfind "." o) ++ sfx
                      ++ py_slice_from o (py_rfind "." o))%string
             /\ exists body, cmdline = body ++ [out]).
  { intros ow oh body Hb. apply bind_ok in Hb.
    destruct Hb as ([output_file suffix_used] & Hs & Hb).
    assert (Hused : suffix_used = Some sfx) by (injection Hb as _ _ Hu; exact Hu).
    pose proof (built_output_eq _ _ _ _ _ _ Hb) as Ho.
    apply built_cmdline_eq in Hb. subst suffix_used.
    destruct (suffix args); [| discriminate Hs].
    apply bind_ok in Hs. destruct Hs as (s & _ & Hs).
    assert (s = sfx) by congruence. subst s.
    split; [| exists body; rewrite <- Hb, Ho; reflexivity].
    rewrite <- Ho. congruence. }
  cbn [audio_filters_from_args] in H.
  destruct (negb (stream_type_bool (nocopy args) "v")).
  - destruct (video_filters_from_args env args w h file) as [[[vf ow] oh] | e];
      [| discriminate].
    exact (Hsfx _ _ _ H).
  - exact (Hsfx _ _ _ H).
Qed.

(** X22. The suffix is inserted into the output path in front of its last
    dot.  An output path without any dot gets the suffix in front of its
    last character, since [rfind] then answers -1. *)
Theorem suffix_goes_before_the_last_dot (file filename extension : string) (w h : Z)
  (counts : list (string * Z)) (cmdline : list string) (out sfx : string) :
  build_cmdline env args file filename extension w h counts
  = Ok (Built cmdline out (Some sfx)) ->
  (forall stem e : string,
      output_path env args filename extension = (stem ++ "." ++ e)%string ->
      char_in "." e = false ->
      out = (stem ++ sfx ++ "." ++ e)%string)
  /\ (forall (body : string) (c : ascii),
         output_path env args filename extension = (body ++ String c "")%string ->
         char_in "." (body ++ String c "") = false ->
         out = (body ++ sfx ++ String c "")%string)
  /\ exists options, cmdline = options ++ [out].
Proof.
  intro H. apply built_output_name in H. destruct H as [Hout Hlast].
  split; [| split; [| exact Hlast]].
  - intros stem e Ho He. rewrite Ho in Hout.
    assert (Hk : py_rfind "." (stem ++ "." ++ e) = str_len stem).
    { rewrite rfind_app.
      change ("." ++ e)%string with (String "." "" ++ e)%string.
      rewrite (rfind_app "." (String "." "") e), (no_char_rfind _ _ He).
      cbn. lia. }
    rewrite Hk, slice_to_app, slice_from_app in Hout. exact Hout.
  - intros body c Ho Hc. rewrite Ho in Hout.
    rewrite (no_char_rfind _ _ Hc) in Hout.
    rewrite slice_to_normal, slice_from_normal in Hout.
    assert (Hk : slice_index (str_len (body ++ String c "")) (-1) = str_len body).
    { rewrite str_len_app. unfold slice_index, str_len. cbn [String.length Z.ltb Z.compare].
      lia. }
    rewrite Hk, slice_to_app, slice_from_app in Hout. exact Hout.
Qed.

End OutputName.

Lemma suffix_goes_before_the_last_dot_witness :
  "out_noaudio.mkv" = ("out" ++ "_noaudio" ++ "." ++ "mkv")%string
  /\ "resul_noaudiot" = ("resul" ++ "_noaudio" ++ "t")%string.
Proof.
  split.
  - refine (proj1 (suffix_goes_before_the_last_dot (PF := exact_float)
                     (world_of [("in.mkv", video_and_audio)]) suffix_without_audio
                     "in.mkv" "in.mkv" ".mkv" 0 0
                     [("v", 1); ("a", 1); ("s", 0); ("t", 0); ("d", 0)]
                     ["ffmpeg"; "-i"; "in.mkv"; "-copy_unknown"; "-map"; "0:v?";
                      "-c:v:0"; "copy"; "-map_chapters"; "-1"; "-map_metadata"; "-1";
                      "out_noaudio.mkv"]
                     "out_noaudio.mkv" "_noaudio" _) "out" "mkv" _ _);
      vm_compute; reflexivity.
  - refine (proj1 (proj2 (suffix_goes_before_the_last_dot (PF := exact_float)
                     (world_of [("in.mkv", video_and_audio)]) suffix_on_plain_name
                     "in.mkv" "in.mkv" ".mkv" 0 0
                     [("v", 1); ("a", 1); ("s", 0); ("t", 0); ("d", 0)]
                     ["ffmpeg"; "-i"; "in.mkv"; "-copy_unknown"; "-map"; "0:v?";
                      "-c:v:0"; "copy"; "-map_chapters"; "-1"; "-map_metadata"; "-1";
                      "resul_noaudiot"]
                     "resul_noaudiot" "_noaudio" _)) "resul" "t"%char _ _);
      vm_compute; reflexivity.
Defined.

(** ** The first file of an image sequence *)











